(** * PureMVC TypeScript Standard Framework: core registries and dispatch

    A shallow embedding of the three core singletons ([Model], [View],
    [Controller]) of [bin/cjs/core], of the [Facade] and the [Notifier],
    and of the singleton discipline of the four classes, with the
    properties of registration, removal and broadcast.

    Modelling conventions.

    - The dictionaries [observerMap], [mediatorMap], [commandMap] and
      [proxyMap] are plain objects ([{}]): a finite map of own properties
      over the members every object inherits from [Object.prototype].
      A lookup [map[key]] that finds no own property finds the inherited
      member ([constructor], [toString], ...) when the key names one, and
      [undefined] otherwise; [get] is that lookup.  [Object.prototype] is
      the one of the language: an application that adds members to it is
      outside the model.
    - An assignment [map["__proto__"] = object] makes [object] the
      prototype of the map.  What the map holds from then on depends on
      the members of that object of the application, which the model does
      not hold: such a run ends in [Unmodelled], and nothing is said
      about it.
    - Object identity (the [notifyContext] of an observer, the instance
      held by a registry) is an explicit identifier.
    - Mediators, proxies and commands are external collaborators.  Their
      methods are user code that may call back into the framework, so
      they are scripts over the public operations, run by an interpreter
      with fuel (a script may broadcast the notification it is handling).
    - The log of calls into user code is kept as a call tree: every
      invocation of a handler or hook is one event that carries the
      events of the calls made while it ran. *)

From stdpp Require Import base option list strings gmap.

Set Warnings "-register-all".

(** ** Data model *)
(** The owner of an observer, compared by identity. *)
Inductive NotifyContext :=
  | CtxController
  | CtxObject (id : nat).

#[global] Instance NotifyContext_eq_dec : EqDecision NotifyContext.
Proof. solve_decision. Defined.

(** Modelled from the spec: the class [Notification] is not among the
    sources at hand; it is the envelope of the specification, a name, an
    optional body (here a reference) and an optional type. *)
Record Notification := mkNotification {
  note_name : string;
  note_body : option nat;
  note_type : option string
}.

(** JavaScript failures: [throw Error(msg)] and the runtime's [TypeError],
    with the message Node.js gives it. *)
Inductive Failure :=
  | Error (msg : string)
  | TypeError (msg : string).

(** Calls into user code, and the call tree they leave in the log. *)
Inductive Call :=
  | CNotify (ctx : NotifyContext) (note : Notification)
  | CExecute (factory : nat) (note : Notification)
  | COnRegisterMediator (id : nat)
  | COnRemoveMediator (id : nat)
  | COnRegisterProxy (id : nat)
  | COnRemoveProxy (id : nat).

Inductive Event :=
  | EvCall (c : Call) (inner : list Event)
  | EvListInterests (id : nat)
  | EvFactory (factory : nat).


(** ** Plain objects used as maps *)

(** What a lookup inherits from [Object.prototype]: one of its built-in
    functions, known here by its [length] (the number of declared
    parameters), or, under the key [__proto__], the prototype object
    itself, which has no [length]. *)
Inductive Inherited :=
| BuiltinFunction (length : nat)
| ObjectPrototype.

(** The members of [Object.prototype], as the language defines them. *)
Definition objectPrototypeMembers : list (string * Inherited) :=
  [("constructor", BuiltinFunction 1);
   ("hasOwnProperty", BuiltinFunction 1);
   ("isPrototypeOf", BuiltinFunction 1);
   ("propertyIsEnumerable", BuiltinFunction 1);
   ("toLocaleString", BuiltinFunction 0);
   ("toString", BuiltinFunction 0);
   ("valueOf", BuiltinFunction 0);
   ("__defineGetter__", BuiltinFunction 2);
   ("__defineSetter__", BuiltinFunction 2);
   ("__lookupGetter__", BuiltinFunction 1);
   ("__lookupSetter__", BuiltinFunction 1);
   ("__proto__", ObjectPrototype)].

Fixpoint member (key : string) (members : list (string * Inherited)) : option Inherited :=
  match members with
  | [] => None
  | (name, value) :: rest => if decide (name = key) then Some value else member key rest
  end.

Definition objectPrototype (key : string) : option Inherited :=
  member key objectPrototypeMembers.

(** What a built-in function of [Object.prototype] does when it is
    called as a plain function, with no receiver and no argument:
    [constructor] returns a new object, [isPrototypeOf] returns [false]
    and [toString] returns a string ([None]); the other ones need their
    receiver and throw a [TypeError] with the message given. *)
Definition calledBare (key : string) : option string :=
  if decide (key ∈ ["constructor"; "isPrototypeOf"; "toString"]) then None
  else if decide (key = "toLocaleString")
       then Some "Object.prototype.toLocaleString called on null or undefined"
       else Some "Cannot convert undefined or null to object".

(** The value of [map[key]]: an own property, an inherited member, or
    [undefined]. *)
Inductive Slot (A : Type) :=
| Own (a : A)
| Inherit (b : Inherited)
| Absent.

Arguments Own {A} a.
Arguments Inherit {A} b.
Arguments Absent {A}.

(** [map[key]] on a plain object with the own properties [object]. *)
Definition get {A} (object : gmap string A) (key : string) : Slot A :=
  match object !! key with
  | Some a => Own a
  | None =>
      match objectPrototype key with
      | Some b => Inherit b
      | None => Absent
      end
  end.

Section Collaborators.
(** [U] is the state of the application around the framework (the value
    objects and fields that user code reads and writes). *)
Context {U : Type}.

(** Modelled from the spec: the classes [Observer], [Mediator], [Proxy] and
    the commands are not among the sources at hand; their shape follows
    the interfaces of the specification (an observer is a handler bound to
    a context; a mediator has a name, its interests, a handler and two
    hooks; a proxy has a name and two hooks; a command is built by a
    factory and has [execute]).

    User code is a script: a sequence of updates of the application's own
    state and of calls of the framework's public operations.  The
    collaborators carry their methods as scripts. *)
Inductive Action :=
| AUpdate (f : U → U)
| AIf (c : U → bool) (thn els : list Action)
| AThrow (msg : string)
| ARegisterObserver (notificationName : string) (observer : Observer)
| ARemoveObserver (notificationName : string) (notifyContext : NotifyContext)
| ANotifyObservers (notification : Notification)
| ARegisterMediator (mediator : Mediator)
| ARemoveMediator (mediatorName : string)
| ARegisterCommand (notificationName : string) (factory : Factory)
| AExecuteCommand (notification : Notification)
| ARemoveCommand (notificationName : string)
| ARegisterProxy (proxy : Proxy)
| ARemoveProxy (proxyName : string)
with Observer :=
| mkObserver (notify : Notification → list Action) (context : NotifyContext)
with Mediator :=
| mkMediator (id : nat) (name : string)
    (interests : U → list string)
    (handle : Notification → list Action)
    (onRegister onRemove : list Action)
with Proxy :=
| mkProxy (id : nat) (name : string) (onRegister onRemove : list Action)
with Factory :=
| mkFactory (id : nat) (create : Command)
with Command :=
| mkCommand (execute : Notification → list Action).

End Collaborators.

Arguments Action : clear implicits.
Arguments Observer : clear implicits.
Arguments Mediator : clear implicits.
Arguments Proxy : clear implicits.
Arguments Factory : clear implicits.
Arguments Command : clear implicits.

Abbreviation Script U := (list (Action U)).

(** The result of running code: normal return with a value, a thrown
    failure, the interpreter's fuel running out, or a run that has left
    the model by replacing the prototype of a registry map.  The state at
    the point of the throw is kept, since a [throw] does not undo
    effects. *)
Inductive Outcome (S A : Type) :=
| Ok (a : A) (s : S)
| Throw (e : Failure) (s : S)
| OutOfFuel
| Unmodelled.

Arguments Ok {S A} a s.
Arguments Throw {S A} e s.
Arguments OutOfFuel {S A}.
Arguments Unmodelled {S A}.

Definition bind {S A B} (m : Outcome S A) (k : A → S → Outcome S B) : Outcome S B :=
  match m with
  | Ok a s => k a s
  | Throw e s => Throw e s
  | OutOfFuel => OutOfFuel
  | Unmodelled => Unmodelled
  end.

(** The state an outcome ends in, when it has one. *)
Definition final {S A} (m : Outcome S A) : option S :=
  match m with
  | Ok _ s => Some s
  | Throw _ s => Some s
  | OutOfFuel => None
  | Unmodelled => None
  end.

(** The whole process: the fields of the [View], [Controller] and [Model]
    singletons, the application's state and the log of calls. *)
Record World (U : Type) := mkWorld {
  observerMap : gmap string (list (Observer U));
  mediatorMap : gmap string (Mediator U);
  commandMap : gmap string (Factory U);
  proxyMap : gmap string (Proxy U);
  user : U;
  trace : list Event
}.

Arguments mkWorld {U}.
Arguments observerMap {U}.
Arguments mediatorMap {U}.
Arguments commandMap {U}.
Arguments proxyMap {U}.
Arguments user {U}.
Arguments trace {U}.

Section Framework.
Context {U : Type}.

(** ** Accessors of the collaborators *)

Definition notifyMethod (o : Observer U) : Notification → Script U :=
  match o with mkObserver notify _ => notify end.

Definition notifyContext (o : Observer U) : NotifyContext :=
  match o with mkObserver _ context => context end.

Definition mediatorId (m : Mediator U) : nat :=
  match m with mkMediator id _ _ _ _ _ => id end.

Definition mediatorName (m : Mediator U) : string :=
  match m with mkMediator _ name _ _ _ _ => name end.

Definition listNotificationInterests (m : Mediator U) : U → list string :=
  match m with mkMediator _ _ interests _ _ _ => interests end.

Definition handleNotification (m : Mediator U) : Notification → Script U :=
  match m with mkMediator _ _ _ handle _ _ => handle end.

Definition mediatorOnRegister (m : Mediator U) : Script U :=
  match m with mkMediator _ _ _ _ onRegister _ => onRegister end.

Definition mediatorOnRemove (m : Mediator U) : Script U :=
  match m with mkMediator _ _ _ _ _ onRemove => onRemove end.

Definition proxyId (p : Proxy U) : nat :=
  match p with mkProxy id _ _ _ => id end.

Definition proxyName (p : Proxy U) : string :=
  match p with mkProxy _ name _ _ => name end.

Definition proxyOnRegister (p : Proxy U) : Script U :=
  match p with mkProxy _ _ onRegister _ => onRegister end.

Definition proxyOnRemove (p : Proxy U) : Script U :=
  match p with mkProxy _ _ _ onRemove => onRemove end.

Definition factoryId (f : Factory U) : nat :=
  match f with mkFactory id _ => id end.

Definition create (f : Factory U) : Command U :=
  match f with mkFactory _ c => c end.

Definition execute (c : Command U) : Notification → Script U :=
  match c with mkCommand e => e end.

(** ** Field updates of the world *)

Definition set_observerMap (f : gmap string (list (Observer U)) → gmap string (list (Observer U)))
    (w : World U) : World U :=
  mkWorld (f (observerMap w)) (mediatorMap w) (commandMap w) (proxyMap w) (user w) (trace w).

Definition set_mediatorMap (f : gmap string (Mediator U) → gmap string (Mediator U))
    (w : World U) : World U :=
  mkWorld (observerMap w) (f (mediatorMap w)) (commandMap w) (proxyMap w) (user w) (trace w).

Definition set_commandMap (f : gmap string (Factory U) → gmap string (Factory U))
    (w : World U) : World U :=
  mkWorld (observerMap w) (mediatorMap w) (f (commandMap w)) (proxyMap w) (user w) (trace w).

Definition set_proxyMap (f : gmap string (Proxy U) → gmap string (Proxy U))
    (w : World U) : World U :=
  mkWorld (observerMap w) (mediatorMap w) (commandMap w) (f (proxyMap w)) (user w) (trace w).

Definition set_user (f : U → U) (w : World U) : World U :=
  mkWorld (observerMap w) (mediatorMap w) (commandMap w) (proxyMap w) (f (user w)) (trace w).

Definition set_trace (t : list Event) (w : World U) : World U :=
  mkWorld (observerMap w) (mediatorMap w) (commandMap w) (proxyMap w) (user w) t.

Definition log (e : Event) (w : World U) : World U :=
  set_trace (trace w ++ [e]) w.

(** The registries right after construction: every map is [{}]. *)
Definition initial (u : U) : World U :=
  mkWorld ∅ ∅ ∅ ∅ u [].

(** ** Calls into user code *)

Section Operations.
(** [call] runs a script; it is the interpreter at some fuel. *)
Variable call : Script U → World U → Outcome (World U) unit.

(** Give the events of a finished call their place in the caller's log. *)
Definition enclose (c : Call) (outer : list Event) (w : World U) : World U :=
  set_trace (outer ++ [EvCall c (trace w)]) w.

(** Run the method [body] of a collaborator and log the call, with the
    calls made while it ran as its children. *)
Definition invoke (c : Call) (body : Script U) (w : World U) : Outcome (World U) unit :=
  match call body (set_trace [] w) with
  | Ok _ w' => Ok tt (enclose c (trace w) w')
  | Throw e w' => Throw e (enclose c (trace w) w')
  | OutOfFuel => OutOfFuel
  | Unmodelled => Unmodelled
  end.

(** ** Observer *)

(** Modelled from the spec: [Observer.notifyObserver], of a class that is
    not among the sources at hand, invokes the stored handler with the
    notification, bound to the stored context. *)
Definition notifyObserver (o : Observer U) (notification : Notification)
    (w : World U) : Outcome (World U) unit :=
  invoke (CNotify (notifyContext o) notification) (notifyMethod o notification) w.

(** Modelled from the spec: [Observer.compareNotifyContext] is true iff
    the given object is identical to the stored context. *)
Definition compareNotifyContext (o : Observer U) (object : NotifyContext) : bool :=
  bool_decide (object = notifyContext o).

(** ** View *)

(** [View.registerObserver]: push on the list of the name, or start one.
    An inherited member is not [null] either, and has no [push]. *)
Definition registerObserver (notificationName : string) (observer : Observer U)
    (w : World U) : Outcome (World U) unit :=
  match get (observerMap w) notificationName with
  | Own observers =>
      Ok tt (set_observerMap <[notificationName := observers ++ [observer]]> w)
  | Inherit _ =>
      Throw (TypeError "this.observerMap[notificationName].push is not a function") w
  | Absent => Ok tt (set_observerMap <[notificationName := [observer]]> w)
  end.

(** The loop of [View.notifyObservers] over the working array. *)
Fixpoint notifyEach (observers : list (Observer U)) (notification : Notification)
    (w : World U) : Outcome (World U) unit :=
  match observers with
  | [] => Ok tt w
  | o :: rest =>
      bind (notifyObserver o notification w) (λ _ w', notifyEach rest notification w')
  end.

(** [View.notifyObservers]: nothing when the lookup gives [undefined];
    otherwise the list is copied ([slice]) and the copy is walked,
    whatever happens to the list of the map meanwhile.  An inherited
    member has no [slice]. *)
Definition notifyObservers (notification : Notification) (w : World U)
    : Outcome (World U) unit :=
  match get (observerMap w) (note_name notification) with
  | Absent => Ok tt w
  | Own reference =>
      let observers := reference in
      notifyEach observers notification w
  | Inherit _ =>
      Throw (TypeError "this.observerMap[notification.name].slice is not a function") w
  end.

(** The scan of [View.removeObserver]: [splice] out the first observer
    whose context is [notifyContext], then [break]. *)
Fixpoint spliceFirst (notifyContext : NotifyContext) (observers : list (Observer U))
    : list (Observer U) :=
  match observers with
  | [] => []
  | o :: rest =>
      if compareNotifyContext o notifyContext then rest
      else o :: spliceFirst notifyContext rest
  end.

(** [View.removeObserver].  The value looked up is used without a check.
    On [undefined], reading [observers.length] is a [TypeError].  On an
    inherited function the loop runs up to its [length]: with a positive
    [length], [observers[0]] is [undefined] and the call of
    [compareNotifyContext] on it is a [TypeError]; with [length] 0 the
    loop is skipped and [delete] finds no own property.  On the prototype
    object [length] is [undefined]: the loop is skipped and the final
    test fails. *)
Definition removeObserver (notificationName : string) (notifyContext : NotifyContext)
    (w : World U) : Outcome (World U) unit :=
  match get (observerMap w) notificationName with
  | Absent => Throw (TypeError "Cannot read properties of undefined (reading 'length')") w
  | Own observers =>
      let observers' := spliceFirst notifyContext observers in
      if decide (length observers' = 0)
      then Ok tt (set_observerMap (delete notificationName) w)
      else Ok tt (set_observerMap <[notificationName := observers']> w)
  | Inherit (BuiltinFunction (S _)) =>
      Throw (TypeError
               "Cannot read properties of undefined (reading 'compareNotifyContext')") w
  | Inherit (BuiltinFunction 0) => Ok tt (set_observerMap (delete notificationName) w)
  | Inherit ObjectPrototype => Ok tt w
  end.

(** The loop of [View.registerMediator] over the interests. *)
Fixpoint registerEach (interests : list string) (observer : Observer U)
    (w : World U) : Outcome (World U) unit :=
  match interests with
  | [] => Ok tt w
  | i :: rest =>
      bind (registerObserver i observer w) (λ _ w', registerEach rest observer w')
  end.

(** [View.registerMediator].  The guard lets through only a name whose
    lookup is [undefined]. *)
Definition registerMediator (mediator : Mediator U) (w : World U)
    : Outcome (World U) unit :=
  match get (mediatorMap w) (mediatorName mediator) with
  | Own _ | Inherit _ => Ok tt w
  | Absent =>
      let w1 := set_mediatorMap <[mediatorName mediator := mediator]> w in
      let interests := listNotificationInterests mediator (user w1) in
      let w2 := log (EvListInterests (mediatorId mediator)) w1 in
      bind
        (if decide (0 < length interests)
         then
           let observer :=
             mkObserver (handleNotification mediator) (CtxObject (mediatorId mediator)) in
           registerEach interests observer w2
         else Ok tt w2)
        (λ _ w3,
           invoke (COnRegisterMediator (mediatorId mediator)) (mediatorOnRegister mediator) w3)
  end.

(** [View.retrieveMediator]: [this.mediatorMap[mediatorName] || null];
    [Absent] is the [null] returned. *)
Definition retrieveMediator (mediatorName : string) (w : World U) : Slot (Mediator U) :=
  get (mediatorMap w) mediatorName.

(** [View.hasMediator]: [this.mediatorMap[mediatorName] != null]. *)
Definition hasMediator (mediatorName : string) (w : World U) : bool :=
  match get (mediatorMap w) mediatorName with
  | Absent => false
  | _ => true
  end.

(** The loop of [View.removeMediator] over the interests. *)
Fixpoint removeEach (interests : list string) (notifyContext : NotifyContext)
    (w : World U) : Outcome (World U) unit :=
  match interests with
  | [] => Ok tt w
  | i :: rest =>
      bind (removeObserver i notifyContext w) (λ _ w', removeEach rest notifyContext w')
  end.

(** [View.removeMediator]: the interests are asked of the mediator again.
    An inherited member passes the guard and has no
    [listNotificationInterests]. *)
Definition removeMediator (mediatorName : string) (w : World U)
    : Outcome (World U) (option (Mediator U)) :=
  match get (mediatorMap w) mediatorName with
  | Absent => Ok None w
  | Inherit _ => Throw (TypeError "mediator.listNotificationInterests is not a function") w
  | Own mediator =>
      let interests := listNotificationInterests mediator (user w) in
      let w1 := log (EvListInterests (mediatorId mediator)) w in
      bind (removeEach interests (CtxObject (mediatorId mediator)) w1) (λ _ w2,
      let w3 := set_mediatorMap (delete mediatorName) w2 in
      bind (invoke (COnRemoveMediator (mediatorId mediator)) (mediatorOnRemove mediator) w3)
        (λ _ w4, Ok (Some mediator) w4))
  end.

(** ** Controller *)

(** The observer the [Controller] installs for a command:
    [new Observer(this.executeCommand, this)]. *)
Definition commandObserver : Observer U :=
  mkObserver (λ notification, [AExecuteCommand notification]) CtxController.

(** [Controller.registerCommand].  The observer is installed when the
    lookup gives [undefined]; the assignment that follows makes an own
    property, except under [__proto__], where it replaces the prototype
    of the map. *)
Definition registerCommand (notificationName : string) (factory : Factory U)
    (w : World U) : Outcome (World U) unit :=
  bind
    (match get (commandMap w) notificationName with
     | Absent => registerObserver notificationName commandObserver w
     | Own _ | Inherit _ => Ok tt w
     end)
    (λ _ w1,
       if decide (notificationName = "__proto__") then Unmodelled
       else Ok tt (set_commandMap <[notificationName := factory]> w1)).

(** [Controller.executeCommand]: a new command from the factory at each
    call, then its [execute].  An inherited member passes the guard and
    is called as the factory: a built-in of [Object.prototype], called
    without arguments and receiver, either throws a [TypeError] itself
    or returns a value without [execute], and the prototype object is
    not a function. *)
Definition executeCommand (notification : Notification) (w : World U)
    : Outcome (World U) unit :=
  match get (commandMap w) (note_name notification) with
  | Absent => Ok tt w
  | Own factory =>
      let command := create factory in
      let w1 := log (EvFactory (factoryId factory)) w in
      invoke (CExecute (factoryId factory) notification) (execute command notification) w1
  | Inherit (BuiltinFunction _) =>
      match calledBare (note_name notification) with
      | Some msg => Throw (TypeError msg) w
      | None => Throw (TypeError "command.execute is not a function") w
      end
  | Inherit ObjectPrototype => Throw (TypeError "factory is not a function") w
  end.

(** [Controller.hasCommand]: [this.commandMap[notificationName] != null]. *)
Definition hasCommand (notificationName : string) (w : World U) : bool :=
  match get (commandMap w) notificationName with
  | Absent => false
  | _ => true
  end.

(** [Controller.removeCommand]. *)
Definition removeCommand (notificationName : string) (w : World U)
    : Outcome (World U) unit :=
  if hasCommand notificationName w
  then
    bind (removeObserver notificationName CtxController w) (λ _ w1,
    Ok tt (set_commandMap (delete notificationName) w1))
  else Ok tt w.

(** ** Model *)

(** [Model.registerProxy].  The assignment makes an own property, except
    under [__proto__], where it replaces the prototype of the map. *)
Definition registerProxy (proxy : Proxy U) (w : World U) : Outcome (World U) unit :=
  if decide (proxyName proxy = "__proto__") then Unmodelled
  else
    let w1 := set_proxyMap <[proxyName proxy := proxy]> w in
    invoke (COnRegisterProxy (proxyId proxy)) (proxyOnRegister proxy) w1.

(** [Model.retrieveProxy]: [this.proxyMap[proxyName] || null]; [Absent]
    is the [null] returned. *)
Definition retrieveProxy (proxyName : string) (w : World U) : Slot (Proxy U) :=
  get (proxyMap w) proxyName.

(** [Model.hasProxy]: [this.proxyMap[proxyName] != null]. *)
Definition hasProxy (proxyName : string) (w : World U) : bool :=
  match get (proxyMap w) proxyName with
  | Absent => false
  | _ => true
  end.

(** [Model.removeProxy].  An inherited member is truthy: [delete] finds
    no own property, and the member has no [onRemove]. *)
Definition removeProxy (proxyName : string) (w : World U)
    : Outcome (World U) (option (Proxy U)) :=
  match get (proxyMap w) proxyName with
  | Absent => Ok None w
  | Inherit _ =>
      let w1 := set_proxyMap (delete proxyName) w in
      Throw (TypeError "proxy.onRemove is not a function") w1
  | Own proxy =>
      let w1 := set_proxyMap (delete proxyName) w in
      bind (invoke (COnRemoveProxy (proxyId proxy)) (proxyOnRemove proxy) w1)
        (λ _ w2, Ok (Some proxy) w2)
  end.

(** ** Facade

    [Facade.sendNotification] builds the notification and hands it to the
    view; the other methods of the facade forward to the registry that
    owns the operation. *)
Definition sendNotification (notificationName : string) (body : option nat)
    (type : option string) (w : World U) : Outcome (World U) unit :=
  notifyObservers (mkNotification notificationName body type) w.

(** ** One step of user code *)

Definition discard {A} (m : Outcome (World U) A) : Outcome (World U) unit :=
  bind m (λ _ w, Ok tt w).

Definition perform (a : Action U) (w : World U) : Outcome (World U) unit :=
  match a with
  | AUpdate f => Ok tt (set_user f w)
  | AIf c thn els => if c (user w) then call thn w else call els w
  | AThrow msg => Throw (Error msg) w
  | ARegisterObserver n o => registerObserver n o w
  | ARemoveObserver n ctx => removeObserver n ctx w
  | ANotifyObservers notification => notifyObservers notification w
  | ARegisterMediator m => registerMediator m w
  | ARemoveMediator n => discard (removeMediator n w)
  | ARegisterCommand n f => registerCommand n f w
  | AExecuteCommand notification => executeCommand notification w
  | ARemoveCommand n => removeCommand n w
  | ARegisterProxy p => registerProxy p w
  | ARemoveProxy n => discard (removeProxy n w)
  end.

(** The statements of a script, in order, until one throws. *)
Fixpoint sequence (s : Script U) (w : World U) : Outcome (World U) unit :=
  match s with
  | [] => Ok tt w
  | a :: rest => bind (perform a w) (λ _ w', sequence rest w')
  end.

End Operations.

(** ** The interpreter

    Each nested call into user code takes one unit of fuel. *)
Fixpoint run (fuel : nat) (s : Script U) (w : World U) : Outcome (World U) unit :=
  match fuel with
  | 0 => OutOfFuel
  | S fuel' => sequence (run fuel') s w
  end.

End Framework.

(** ** The singleton discipline

    Every core class keeps its one instance in a static slot.  The
    constructor refuses to run when the slot is taken; [getInstance] builds
    an instance with the factory it is given only when the slot is free. *)
Module Singleton.

(** The objects built by the constructors, with the fields that hold
    references to other singletons. *)
Inductive Object :=
| OModel
| OView
| OController (view : option nat)
| OFacade (model controller view : option nat).

(** The static slots and the allocated objects; a reference is an index
    into [objects]. *)
Record Statics := mkStatics {
  Model_instance : option nat;
  View_instance : option nat;
  Controller_instance : option nat;
  Facade_instance : option nat;
  objects : list Object
}.

Definition set_Model_instance (i : option nat) (st : Statics) : Statics :=
  mkStatics i (View_instance st) (Controller_instance st) (Facade_instance st) (objects st).

Definition set_View_instance (i : option nat) (st : Statics) : Statics :=
  mkStatics (Model_instance st) i (Controller_instance st) (Facade_instance st) (objects st).

Definition set_Controller_instance (i : option nat) (st : Statics) : Statics :=
  mkStatics (Model_instance st) (View_instance st) i (Facade_instance st) (objects st).

Definition set_Facade_instance (i : option nat) (st : Statics) : Statics :=
  mkStatics (Model_instance st) (View_instance st) (Controller_instance st) i (objects st).

Definition set_objects (f : list Object → list Object) (st : Statics) : Statics :=
  mkStatics (Model_instance st) (View_instance st) (Controller_instance st)
    (Facade_instance st) (f (objects st)).

(** Nothing constructed yet. *)
Definition empty : Statics := mkStatics None None None None [].

(** A factory is user code: any computation that yields a reference. *)
Abbreviation FactoryFn := (Statics → Outcome Statics nat).

Module Model.

Definition SINGLETON_MSG : string := "Model Singleton already constructed!".

Definition initializeModel (this : nat) (st : Statics) : Outcome Statics unit :=
  Ok tt st.

(** [new Model()]. *)
Definition new (st : Statics) : Outcome Statics nat :=
  match Model_instance st with
  | Some _ => Throw (Error SINGLETON_MSG) st
  | None =>
      let this := length (objects st) in
      let st1 := set_Model_instance (Some this) (set_objects (λ h, h ++ [OModel]) st) in
      bind (initializeModel this st1) (λ _ st2, Ok this st2)
  end.

(** [Model.getInstance(factory)]. *)
Definition getInstance (factory : FactoryFn) (st : Statics) : Outcome Statics nat :=
  match Model_instance st with
  | None => bind (factory st) (λ i st1, Ok i (set_Model_instance (Some i) st1))
  | Some i => Ok i st
  end.

End Model.

Module View.

Definition SINGLETON_MSG : string := "View Singleton already constructed!".

Definition initializeView (this : nat) (st : Statics) : Outcome Statics unit :=
  Ok tt st.

(** [new View()]. *)
Definition new (st : Statics) : Outcome Statics nat :=
  match View_instance st with
  | Some _ => Throw (Error SINGLETON_MSG) st
  | None =>
      let this := length (objects st) in
      let st1 := set_View_instance (Some this) (set_objects (λ h, h ++ [OView]) st) in
      bind (initializeView this st1) (λ _ st2, Ok this st2)
  end.

(** [View.getInstance(factory)]. *)
Definition getInstance (factory : FactoryFn) (st : Statics) : Outcome Statics nat :=
  match View_instance st with
  | None => bind (factory st) (λ i st1, Ok i (set_View_instance (Some i) st1))
  | Some i => Ok i st
  end.

End View.

Module Controller.

Definition SINGLETON_MSG : string := "Controller Singleton already constructed!".

(** [this.view = View.getInstance(() => new View())]. *)
Definition initializeController (this : nat) (st : Statics) : Outcome Statics unit :=
  bind (View.getInstance View.new st) (λ view st1,
  Ok tt (set_objects <[this := OController (Some view)]> st1)).

(** [new Controller()]. *)
Definition new (st : Statics) : Outcome Statics nat :=
  match Controller_instance st with
  | Some _ => Throw (Error SINGLETON_MSG) st
  | None =>
      let this := length (objects st) in
      let st1 :=
        set_Controller_instance (Some this) (set_objects (λ h, h ++ [OController None]) st) in
      bind (initializeController this st1) (λ _ st2, Ok this st2)
  end.

(** [Controller.getInstance(factory)]. *)
Definition getInstance (factory : FactoryFn) (st : Statics) : Outcome Statics nat :=
  match Controller_instance st with
  | None => bind (factory st) (λ i st1, Ok i (set_Controller_instance (Some i) st1))
  | Some i => Ok i st
  end.

End Controller.

Module Facade.

Definition SINGLETON_MSG : string := "Facade Singleton already constructed!".

Definition facadeFields (o : Object) : option nat * option nat * option nat :=
  match o with
  | OFacade m c v => (m, c, v)
  | _ => (None, None, None)
  end.

Definition set_field (this : nat) (f : option nat * option nat * option nat → Object)
    (st : Statics) : Statics :=
  set_objects (λ h, <[this := f (facadeFields (default OModel (h !! this)))]> h) st.

(** [this.model = Model.getInstance(() => new Model())]. *)
Definition initializeModel (this : nat) (st : Statics) : Outcome Statics unit :=
  bind (Model.getInstance Model.new st) (λ model st1,
  Ok tt (set_field this (λ '(_, c, v), OFacade (Some model) c v) st1)).

(** [this.controller = Controller.getInstance(() => new Controller())]. *)
Definition initializeController (this : nat) (st : Statics) : Outcome Statics unit :=
  bind (Controller.getInstance Controller.new st) (λ controller st1,
  Ok tt (set_field this (λ '(m, _, v), OFacade m (Some controller) v) st1)).

(** [this.view = View.getInstance(() => new View())]. *)
Definition initializeView (this : nat) (st : Statics) : Outcome Statics unit :=
  bind (View.getInstance View.new st) (λ view st1,
  Ok tt (set_field this (λ '(m, c, _), OFacade m c (Some view)) st1)).

Definition initializeFacade (this : nat) (st : Statics) : Outcome Statics unit :=
  bind (initializeModel this st) (λ _ st1,
  bind (initializeController this st1) (λ _ st2,
  initializeView this st2)).

(** [new Facade()]. *)
Definition new (st : Statics) : Outcome Statics nat :=
  match Facade_instance st with
  | Some _ => Throw (Error SINGLETON_MSG) st
  | None =>
      let this := length (objects st) in
      let st1 :=
        set_Facade_instance (Some this)
          (set_objects (λ h, h ++ [OFacade None None None]) st) in
      bind (initializeFacade this st1) (λ _ st2, Ok this st2)
  end.

(** [Facade.getInstance(factory)]. *)
Definition getInstance (factory : FactoryFn) (st : Statics) : Outcome Statics nat :=
  match Facade_instance st with
  | None => bind (factory st) (λ i st1, Ok i (set_Facade_instance (Some i) st1))
  | Some i => Ok i st
  end.

End Facade.

End Singleton.

(** ** The methods of the facade

    Every method of [Facade] forwards to the registry held in one of the
    fields [model], [controller], [view] of the facade object, and falls
    back to a default ([undefined], [null] or [false]) when the field is
    not set.  The registries are the singletons, whose fields the world
    holds. *)
Module Facade.

Section Methods.
Context {U : Type}.
Variable call : Script U → World U → Outcome (World U) unit.
(** The facade object the method is called on. *)
Variable this : Singleton.Object.

Definition model : option nat := (Singleton.Facade.facadeFields this).1.1.

Definition controller : option nat := (Singleton.Facade.facadeFields this).1.2.

Definition view : option nat := (Singleton.Facade.facadeFields this).2.

(** [Facade.registerCommand]: [this.controller?.registerCommand(...)]. *)
Definition registerCommand (notificationName : string) (factory : Factory U)
    (w : World U) : Outcome (World U) unit :=
  match controller with
  | Some _ => registerCommand notificationName factory w
  | None => Ok tt w
  end.

(** [Facade.hasCommand]: [this.controller?.hasCommand(...) ?? false]. *)
Definition hasCommand (notificationName : string) (w : World U) : bool :=
  match controller with
  | Some _ => hasCommand notificationName w
  | None => false
  end.

(** [Facade.removeCommand]. *)
Definition removeCommand (notificationName : string) (w : World U)
    : Outcome (World U) unit :=
  match controller with
  | Some _ => removeCommand notificationName w
  | None => Ok tt w
  end.

(** [Facade.registerProxy]. *)
Definition registerProxy (proxy : Proxy U) (w : World U) : Outcome (World U) unit :=
  match model with
  | Some _ => registerProxy call proxy w
  | None => Ok tt w
  end.

(** [Facade.retrieveProxy]: [this.model?.retrieveProxy(...) ?? null]. *)
Definition retrieveProxy (proxyName : string) (w : World U) : Slot (Proxy U) :=
  match model with
  | Some _ => retrieveProxy proxyName w
  | None => Absent
  end.

(** [Facade.hasProxy]. *)
Definition hasProxy (proxyName : string) (w : World U) : bool :=
  match model with
  | Some _ => hasProxy proxyName w
  | None => false
  end.

(** [Facade.removeProxy]. *)
Definition removeProxy (proxyName : string) (w : World U)
    : Outcome (World U) (option (Proxy U)) :=
  match model with
  | Some _ => removeProxy call proxyName w
  | None => Ok None w
  end.

(** [Facade.registerMediator]. *)
Definition registerMediator (mediator : Mediator U) (w : World U)
    : Outcome (World U) unit :=
  match view with
  | Some _ => registerMediator call mediator w
  | None => Ok tt w
  end.

(** [Facade.retrieveMediator]. *)
Definition retrieveMediator (mediatorName : string) (w : World U)
    : Slot (Mediator U) :=
  match view with
  | Some _ => retrieveMediator mediatorName w
  | None => Absent
  end.

(** [Facade.hasMediator]. *)
Definition hasMediator (mediatorName : string) (w : World U) : bool :=
  match view with
  | Some _ => hasMediator mediatorName w
  | None => false
  end.

(** [Facade.removeMediator]. *)
Definition removeMediator (mediatorName : string) (w : World U)
    : Outcome (World U) (option (Mediator U)) :=
  match view with
  | Some _ => removeMediator call mediatorName w
  | None => Ok None w
  end.

(** [Facade.notifyObservers]: [this.view?.notifyObservers(notification)]. *)
Definition notifyObservers (notification : Notification) (w : World U)
    : Outcome (World U) unit :=
  match view with
  | Some _ => notifyObservers call notification w
  | None => Ok tt w
  end.

(** [Facade.sendNotification]:
    [this.notifyObservers(new Notification(name, body, type))]. *)
Definition sendNotification (notificationName : string) (body : option nat)
    (type : option string) (w : World U) : Outcome (World U) unit :=
  notifyObservers (mkNotification notificationName body type) w.

End Methods.

End Facade.

(** ** Notifier *)
Module Notifier.

(** A notifier holds a reference to the facade. *)
Record Instance := mkNotifier { facade : nat }.

(** [new Notifier()]:
    [this.facade = Facade.getInstance(() => new Facade())]. *)
Definition new (st : Singleton.Statics) : Outcome Singleton.Statics Instance :=
  bind (Singleton.Facade.getInstance Singleton.Facade.new st) (λ facade st1,
  Ok (mkNotifier facade) st1).

(** [Notifier.sendNotification]: [this.facade.sendNotification(...)], on
    the facade object [facadeObject] that [this.facade] refers to. *)
Definition sendNotification {U} (call : Script U → World U → Outcome (World U) unit)
    (facadeObject : Singleton.Object) (notificationName : string) (body : option nat)
    (type : option string) (w : World U) : Outcome (World U) unit :=
  Facade.sendNotification call facadeObject notificationName body type w.

End Notifier.

(** * Vocabulary of the properties *)

(** [P] holds of the state an outcome ends in. *)
Definition post {S A} (P : S → Prop) (m : Outcome S A) : Prop :=
  match final m with
  | Some s => P s
  | None => True
  end.

(** [call'] agrees with [call] wherever [call] has an answer. *)
Definition extends {U} (call call' : Script U → World U → Outcome (World U) unit) : Prop :=
  ∀ s w, call s w ≠ OutOfFuel → call' s w = call s w.

(** The log entries of the handler calls made by one broadcast: one entry
    per observer, in order, each with the events of its own run. *)
Definition deliveries {U} (notification : Notification) (observers : list (Observer U))
    (inners : list (list Event)) : list Event :=
  zip_with (λ o inner, EvCall (CNotify (notifyContext o) notification) inner)
    observers inners.

(** The context a log entry notifies, when the entry is a handler call. *)
Definition notifiedContext (e : Event) : option NotifyContext :=
  match e with
  | EvCall (CNotify ctx _) _ => Some ctx
  | _ => None
  end.

(** What a broadcast over the snapshot [observers] leaves in the log: on
    return, one call per observer of the snapshot; on a throw, the calls
    up to and including the handler that threw. *)
Definition delivered {U} (notification : Notification) (observers : list (Observer U))
    (before : list Event) (m : Outcome (World U) unit) : Prop :=
  match m with
  | Ok _ w' =>
      ∃ inners, length inners = length observers
        ∧ trace w' = before ++ deliveries notification observers inners
  | Throw _ w' =>
      ∃ k inners, k < length observers ∧ length inners = S k
        ∧ trace w' = before ++ deliveries notification (take (S k) observers) inners
  | OutOfFuel => True
  | Unmodelled => True
  end.

(** The same outcome with the log of its final state rewritten. *)
Definition relabel {U} (g : list Event → list Event) (m : Outcome (World U) unit)
    : Outcome (World U) unit :=
  match m with
  | Ok a w => Ok a (set_trace (g (trace w)) w)
  | Throw e w => Throw e (set_trace (g (trace w)) w)
  | OutOfFuel => OutOfFuel
  | Unmodelled => Unmodelled
  end.

(** The call [c] of the user code [body] made in the world [w]: the
    outcome of [body] itself, started with an empty log, with the events
    it leaves filed under one event for the call at the end of the log
    of [w]. *)
Definition callOf {U} (call : Script U → World U → Outcome (World U) unit)
    (c : Call) (body : Script U) (w : World U) : Outcome (World U) unit :=
  relabel (λ inner, trace w ++ [EvCall c inner]) (call body (set_trace [] w)).

(** The broadcast as the specification words it: invoke the handler of
    each observer of the snapshot, in snapshot order, until one throws.
    Each invocation is the handler's own run, filed in the log as one
    call. *)
Fixpoint deliver {U} (call : Script U → World U → Outcome (World U) unit)
    (notification : Notification) (snapshot : list (Observer U)) (w : World U)
    : Outcome (World U) unit :=
  match snapshot with
  | [] => Ok tt w
  | o :: rest =>
      bind (callOf call (CNotify (notifyContext o) notification)
              (notifyMethod o notification) w)
        (λ _ w', deliver call notification rest w')
  end.

(** A name that [Object.prototype] has no member for: on a plain object
    it reads as an own property or as [undefined]. *)
Definition ordinary (name : string) : Prop := objectPrototype name = None.

(** The observers of a name: its list, or none when the name has no key. *)
Definition observersFor {U} (n : string) (w : World U) : list (Observer U) :=
  default [] (observerMap w !! n).

(** The invariant of [observerMap]: a name that has a key has at least
    one observer. *)
Definition noEmptyList {U} (w : World U) : Prop :=
  ∀ n observers, observerMap w !! n = Some observers → observers ≠ [].

(** The worlds an application can get to: from the registries as
    constructed, by running user code, whether it returns or throws. *)
Inductive reachable {U} : World U → Prop :=
| reachable_initial u : reachable (initial u)
| reachable_run w fuel s w' :
    reachable w → final (run fuel s w) = Some w' → reachable w'.

(** The observers of a name that belong to [ctx], and the other ones. *)
Definition boundTo {U} (ctx : NotifyContext) (n : string) (w : World U) : list (Observer U) :=
  filter (λ o, notifyContext o = ctx) (observersFor n w).

Definition others {U} (ctx : NotifyContext) (n : string) (w : World U) : list (Observer U) :=
  filter (λ o, notifyContext o ≠ ctx) (observersFor n w).

(** Everything but the observer map is the same in both worlds. *)
Definition exceptObservers {U} (w w' : World U) : Prop :=
  mediatorMap w' = mediatorMap w ∧ commandMap w' = commandMap w
  ∧ proxyMap w' = proxyMap w ∧ user w' = user w ∧ trace w' = trace w.

(** User code [s] returns normally from every world and leaves the part
    [field] of the world as it found it (as the empty hooks of the base
    classes do). *)
Definition preserves {U A} (field : World U → A)
    (call : Script U → World U → Outcome (World U) unit) (s : Script U) : Prop :=
  ∀ w, ∃ w', call s w = Ok tt w' ∧ field w' = field w.

(** User code [s] leaves the part [field] of the world as it found it
    whenever it ends, by return or by throw. *)
Definition keeps {U A} (field : World U → A)
    (call : Script U → World U → Outcome (World U) unit) (s : Script U) : Prop :=
  ∀ w w', final (call s w) = Some w' → field w' = field w.

(** How many times a name occurs among the interests. *)
Definition multiplicity (i : string) (interests : list string) : nat :=
  length (filter (λ x, x = i) interests).

(** The observers of the mediator are in place for the interests it
    declares now: each interest has as many observers of the mediator as
    the name occurs among the interests ([registerMediator] installs one
    per occurrence). *)
Definition installed {U} (m : Mediator U) (w : World U) : Prop :=
  ∀ i, i ∈ listNotificationInterests m (user w) →
    length (boundTo (CtxObject (mediatorId m)) i w)
    = multiplicity i (listNotificationInterests m (user w)).

(** The number of queries of the interests of mediator [id] in a log. *)
Definition isQuery (id : nat) (e : Event) : bool :=
  match e with
  | EvListInterests j => bool_decide (j = id)
  | _ => false
  end.

Definition queries (id : nat) (t : list Event) : nat :=
  length (filter (λ e, isQuery id e = true) t).

(** The world with [o] at the end of the observer list of [n]. *)
Definition withObserver {U} (n : string) (o : Observer U) (w : World U) : World U :=
  set_observerMap <[n := observersFor n w ++ [o]]> w.

(** The world with [o] at the end of the list of each name of
    [interests], one after the other. *)
Fixpoint withObservers {U} (interests : list string) (o : Observer U) (w : World U)
    : World U :=
  match interests with
  | [] => w
  | i :: rest => withObservers rest o (withObserver i o w)
  end.

(** The world with [f] as the command of [n], and with the controller's
    observer at the end of the list of [n] when [n] had no command. *)
Definition withCommand {U} (n : string) (f : Factory U) (w : World U) : World U :=
  set_commandMap <[n := f]>
    (if commandMap w !! n is Some _ then w else withObserver n commandObserver w).

(** [registerCommand] called for the same name with each factory of
    [factories] in turn. *)
Fixpoint registerAll {U} (n : string) (factories : list (Factory U)) (w : World U)
    : Outcome (World U) unit :=
  match factories with
  | [] => Ok tt w
  | f :: rest => bind (registerCommand n f w) (λ _ w', registerAll n rest w')
  end.

(** The observer lists hold one observer of the controller for the names
    that have a command, and none for the other names. *)
Definition commandBound {U} (n : string) (w : World U) : Prop :=
  length (boundTo CtxController n w) = if commandMap w !! n is Some _ then 1 else 0.


(** The log of a broadcast that runs one command, built by [factory]:
    one call of the controller's handler, in which the factory is called
    once and the command it built is executed once. *)
Definition oneExecution {U} (factory : Factory U) (notification : Notification)
    (before inner : list Event) : list Event :=
  before ++ [EvCall (CNotify CtxController notification)
               [EvFactory (factoryId factory);
                EvCall (CExecute (factoryId factory) notification) inner]].

(** The controller's observer is the only observer of the name, and the
    name has a command. *)
Definition onlyCommand {U} (n : string) (w : World U) : Prop :=
  observerMap w !! n = Some [commandObserver] ∧ is_Some (commandMap w !! n).

(** The mediator's own observer:
    [new Observer(mediator.handleNotification.bind(mediator), mediator)]. *)
Definition mediatorObserver {U} (m : Mediator U) : Observer U :=
  mkObserver (handleNotification m) (CtxObject (mediatorId m)).

(** Nothing that existed is lost from [st] to [st']: the objects keep
    their references and contents, and a static slot that was taken holds
    the same instance. *)
Definition grows (st st' : Singleton.Statics) : Prop :=
  (∀ i, i < length (Singleton.objects st) →
        Singleton.objects st' !! i = Singleton.objects st !! i)
  ∧ length (Singleton.objects st) ≤ length (Singleton.objects st')
  ∧ (∀ x, Singleton.Model_instance st = Some x → Singleton.Model_instance st' = Some x)
  ∧ (∀ x, Singleton.View_instance st = Some x → Singleton.View_instance st' = Some x)
  ∧ (∀ x, Singleton.Controller_instance st = Some x →
          Singleton.Controller_instance st' = Some x)
  ∧ (∀ x, Singleton.Facade_instance st = Some x → Singleton.Facade_instance st' = Some x).

(** User code that leaves the controller's observers to the controller:
    it never registers or removes an observer in the controller's name,
    and neither does the code of any collaborator it registers (handlers,
    hooks and commands, to any depth).  Commands are registered and
    removed through [registerCommand] and [removeCommand] only. *)
Section Plain.
Context {U : Type}.

Fixpoint plainAction (a : Action U) : Prop :=
  match a with
  | AIf _ thn els =>
      foldr (λ a rest, plainAction a ∧ rest) True thn
      ∧ foldr (λ a rest, plainAction a ∧ rest) True els
  | ARegisterObserver _ o => plainObserver o
  | ARemoveObserver _ ctx => ctx ≠ CtxController
  | ARegisterMediator m => plainMediator m
  | ARegisterCommand n f => ordinary n ∧ plainFactory f
  | ARegisterProxy p => plainProxy p
  | _ => True
  end
with plainObserver (o : Observer U) : Prop :=
  match o with
  | mkObserver notify ctx =>
      ctx ≠ CtxController
      ∧ ∀ note, foldr (λ a rest, plainAction a ∧ rest) True (notify note)
  end
with plainMediator (m : Mediator U) : Prop :=
  match m with
  | mkMediator _ _ _ handle onRegister onRemove =>
      (∀ note, foldr (λ a rest, plainAction a ∧ rest) True (handle note))
      ∧ foldr (λ a rest, plainAction a ∧ rest) True onRegister
      ∧ foldr (λ a rest, plainAction a ∧ rest) True onRemove
  end
with plainProxy (p : Proxy U) : Prop :=
  match p with
  | mkProxy _ _ onRegister onRemove =>
      foldr (λ a rest, plainAction a ∧ rest) True onRegister
      ∧ foldr (λ a rest, plainAction a ∧ rest) True onRemove
  end
with plainFactory (f : Factory U) : Prop :=
  match f with
  | mkFactory _ c => plainCommand c
  end
with plainCommand (c : Command U) : Prop :=
  match c with
  | mkCommand execute => ∀ note, foldr (λ a rest, plainAction a ∧ rest) True (execute note)
  end.
End Plain.

(** A script of plain actions. *)
Definition plainScript {U} (s : Script U) : Prop :=
  foldr (λ a rest, plainAction a ∧ rest) True s.

(** An observer whose handler is plain, whatever the notification. *)
Definition plainHandler {U} (o : Observer U) : Prop :=
  ∀ note, plainScript (notifyMethod o note).

(** The registries as plain code keeps them: the observers of the
    controller are exactly one [commandObserver] under each name that has
    a command, and everything stored is plain. *)
Definition tidy {U} (w : World U) : Prop :=
  (∀ n, boundTo CtxController n w
        = if commandMap w !! n is Some _ then [commandObserver] else [])
  ∧ (∀ n o, o ∈ observersFor n w → plainHandler o)
  ∧ (∀ n m, mediatorMap w !! n = Some m → plainMediator m)
  ∧ (∀ n f, commandMap w !! n = Some f → plainFactory f)
  ∧ (∀ n p, proxyMap w !! n = Some p → plainProxy p).


(** ** Concrete scenarios

    Small applications used to run the operations on explicit inputs. *)
Module Scenario.

(** The world an outcome ends in ([d] when it has none). *)
Definition settle {S A} (d : S) (m : Outcome S A) : S :=
  default d (final m).

(** The world after the script [s] has been run from [w]. *)
Definition after {U} (s : Script U) (w : World U) : World U :=
  settle w (run 4 s w).

(** A broadcast during which the first handler edits the list being
    walked: it removes the second observer and registers a third one. *)
Definition counting (id : nat) : Observer nat :=
  mkObserver (λ _, [AUpdate S]) (CtxObject id).

Definition editing : Observer nat :=
  mkObserver (λ _, [ARemoveObserver "edit" (CtxObject 2);
                    ARegisterObserver "edit" (counting 3)])
    (CtxObject 1).

Definition editNote : Notification := mkNotification "edit" None None.

Definition editView : World nat :=
  after [ARegisterObserver "edit" editing; ARegisterObserver "edit" (counting 2)] (initial 0).

Definition afterEdit : World nat :=
  settle editView (notifyObservers (run 2) editNote editView).

(** A mediator with two interests and empty hooks, and the view after its
    registration. *)
Definition listener : Mediator nat :=
  mkMediator 7 "listener" (λ _, ["go"; "stop"]) (λ _, [AUpdate S]) [] [].

Definition listening : World nat :=
  settle (initial 0) (registerMediator (run 1) listener (initial 0)).

(** Another mediator that claims the same name. *)
Definition impostor : Mediator nat :=
  mkMediator 8 "listener" (λ _, ["halt"]) (λ _, []) [AUpdate S] [].

(** A mediator whose interests depend on a flag of the application that
    its registration hook clears: interested in [go] while the flag is
    set, in nothing afterwards. *)
Definition fickle : Mediator bool :=
  mkMediator 1 "fickle" (λ flag : bool, if flag then ["go"] else [])
    (λ _, []) [AUpdate (λ _, false)] [].

Definition goNote : Notification := mkNotification "go" None None.

Definition fickleRegistered : World bool :=
  settle (initial true) (registerMediator (run 1) fickle (initial true)).

Definition fickleRemoved : World bool :=
  settle fickleRegistered (removeMediator (run 1) "fickle" fickleRegistered).

(** The command of the controller tests: [vo.result += 2 * vo.input],
    on a value object held as the pair [(input, result)]. *)
Definition doubling (id : nat) : Factory (nat * nat) :=
  mkFactory id (mkCommand (λ _, [AUpdate (λ vo, (vo.1, vo.2 + 2 * vo.1))])).

Definition testNote : Notification := mkNotification "ControllerTest2" (Some 0) None.

(** [testReregisterAndExecuteCommand]: register, remove, register again. *)
Definition reregistered : World (nat * nat) :=
  after [ARegisterCommand "ControllerTest2" (doubling 1);
         ARemoveCommand "ControllerTest2";
         ARegisterCommand "ControllerTest2" (doubling 2)] (initial (12, 0)).

(** The facade test: a command registered for [FacadeTestNote] and a
    value object with input 32. *)
Definition facadeTest : World (nat * nat) :=
  after [ARegisterCommand "FacadeTestNote" (doubling 1)] (initial (32, 0)).

(** The view test: an observer that accumulates into the value object,
    for a broadcast sent twice. *)
Definition accumulating : Observer (nat * nat) :=
  mkObserver (λ _, [AUpdate (λ vo, (vo.1, vo.2 + 2 * vo.1))]) (CtxObject 5).

Definition viewTest : World (nat * nat) :=
  after [ARegisterObserver "ViewTestNote" accumulating] (initial (12, 0)).

(** Two proxies of the same name, with hooks that count their calls:
    registrations in the first component, removals in the second. *)
Definition colors : Proxy (nat * nat) :=
  mkProxy 1 "colors" [AUpdate (λ c, (S c.1, c.2))] [AUpdate (λ c, (c.1, S c.2))].

Definition shades : Proxy (nat * nat) :=
  mkProxy 2 "colors" [AUpdate (λ c, (S c.1, c.2))] [AUpdate (λ c, (c.1, S c.2))].

(** A session that registers a command and a mediator, broadcasts, and
    removes the mediator again. *)
Definition session : Script nat :=
  [ARegisterCommand "go" (mkFactory 1 (mkCommand (λ _, [AUpdate S])));
   ARegisterMediator listener;
   ANotifyObservers goNote;
   ARemoveMediator "listener"].

Definition afterSession : World nat :=
  settle (initial 0) (run 3 session (initial 0)).

(** The statics once [new Facade()] has run on a fresh process: all four
    singletons exist. *)
Definition started : Singleton.Statics :=
  settle Singleton.empty (Singleton.Facade.new Singleton.empty).

End Scenario.

(** ** More scenarios *)
Module Cases.

(** Three observers of [boom]: the second one throws. *)
Definition failing : Observer nat :=
  mkObserver (λ _, [AThrow "boom"]) (CtxObject 2).

Definition boomNote : Notification := mkNotification "boom" None None.

Definition boomView : World nat :=
  Scenario.after [ARegisterObserver "boom" (Scenario.counting 1);
                  ARegisterObserver "boom" failing;
                  ARegisterObserver "boom" (Scenario.counting 3)] (initial 0).

Definition afterBoom : World nat :=
  Scenario.settle boomView (notifyObservers (run 1) boomNote boomView).

(** Three observers of [purge]: the handler of the first removes all
    three, the handler of the second removes itself, the third counts. *)
Definition purging : Observer nat :=
  mkObserver (λ _, [ARemoveObserver "purge" (CtxObject 1);
                    ARemoveObserver "purge" (CtxObject 2);
                    ARemoveObserver "purge" (CtxObject 3)])
    (CtxObject 1).

Definition leaving : Observer nat :=
  mkObserver (λ _, [ARemoveObserver "purge" (CtxObject 2)]) (CtxObject 2).

Definition purgeNote : Notification := mkNotification "purge" None None.

Definition purgeView : World nat :=
  Scenario.after [ARegisterObserver "purge" purging;
                  ARegisterObserver "purge" leaving;
                  ARegisterObserver "purge" (Scenario.counting 3)] (initial 0).

Definition afterPurge : World nat :=
  Scenario.settle purgeView (notifyObservers (run 2) purgeNote purgeView).

(** A mediator with two interests whose removal hook leaves a mark, and
    the view after its registration. *)
Definition watcher : Mediator nat :=
  mkMediator 7 "watcher" (λ _, ["go"; "stop"]) (λ _, [AUpdate S]) []
    [AUpdate (λ count, count + 100)].

Definition watching : World nat :=
  Scenario.after [ARegisterMediator watcher] (initial 0).

Definition afterWatching : World nat :=
  Scenario.settle watching (removeMediator (run 1) "watcher" watching).

(** The same view after the application has taken the observer of the
    mediator out of the list of [go] itself, which deletes the list. *)
Definition stranded : World nat :=
  Scenario.after [ARegisterMediator watcher; ARemoveObserver "go" (CtxObject 7)] (initial 0).

(** A command registered, its observer taken out of the view by the
    application itself, and the command registered once more. *)
Definition unhooked : World (nat * nat) :=
  Scenario.after [ARegisterCommand "ControllerTest2" (Scenario.doubling 1);
                  ARemoveObserver "ControllerTest2" CtxController;
                  ARegisterCommand "ControllerTest2" (Scenario.doubling 2)] (initial (12, 0)).

(** A command registered under a name that every object inherits. *)
Definition constructorNote : Notification := mkNotification "constructor" (Some 0) None.

Definition inheriting : World (nat * nat) :=
  Scenario.after [ARegisterCommand "constructor" (Scenario.doubling 1)] (initial (12, 0)).

(** Two commands registered in turn for [ControllerTest2] on fresh
    registries, and the world after a broadcast of the name. *)
Definition twiceRegistered : World (nat * nat) :=
  Scenario.after [ARegisterCommand "ControllerTest2" (Scenario.doubling 1);
                  ARegisterCommand "ControllerTest2" (Scenario.doubling 2)] (initial (12, 0)).

Definition afterTestNote : World (nat * nat) :=
  Scenario.settle twiceRegistered
    (notifyObservers (run 2) Scenario.testNote twiceRegistered).

(** A proxy that removes itself in its registration hook, and one that
    does so under the name of [colors]. *)
Definition quitting : Proxy (nat * nat) :=
  mkProxy 3 "quitting" [ARemoveProxy "quitting"] [AUpdate (λ c, (c.1, S c.2))].

Definition fleeting : Proxy (nat * nat) :=
  mkProxy 4 "colors" [ARemoveProxy "colors"] [AUpdate (λ c, (c.1, S c.2))].

(** [colors] registered on a fresh model, then removed. *)
Definition colored : World (nat * nat) :=
  Scenario.settle (initial (0, 0)) (registerProxy (run 1) Scenario.colors (initial (0, 0))).

Definition uncolored : World (nat * nat) :=
  Scenario.settle colored (removeProxy (run 1) "colors" colored).

(** [shades] registered over [colors]. *)
Definition shaded : World (nat * nat) :=
  Scenario.settle colored (registerProxy (run 1) Scenario.shades colored).

(** The view of [edit] with a second observer of the context 2. *)
Definition crowded : World nat :=
  Scenario.after [ARegisterObserver "edit" (Scenario.counting 2)] Scenario.editView.

(** The command of the facade and notifier tests:
    [vo.result = 2 * vo.input]. *)
Definition facadeTestCommand : Factory (nat * nat) :=
  mkFactory 1 (mkCommand (λ _, [AUpdate (λ vo, (vo.1, 2 * vo.1))])).

(** A process in which only the view exists yet. *)
Definition viewOnly : Singleton.Statics :=
  Scenario.settle Singleton.empty (Singleton.View.new Singleton.empty).

(** A tour of the registries by code that leaves the controller's
    observers alone: a command, an observer next to it, a broadcast, the
    observer removed, and a mediator that registers another command from
    its hook. *)
Definition tour : Script (nat * nat) :=
  [ARegisterCommand "ControllerTest2" (Scenario.doubling 1);
   ARegisterObserver "ControllerTest2" Scenario.accumulating;
   ANotifyObservers Scenario.testNote;
   ARemoveObserver "ControllerTest2" (CtxObject 5);
   ARegisterMediator (mkMediator 7 "m" (λ _, ["ControllerTest2"]) (λ _, [])
                        [ARegisterCommand "other" (Scenario.doubling 2)] [])].

(** A mediator that lists the same interest two times. *)
Definition twice : Mediator nat :=
  mkMediator 9 "twice" (λ _, ["go"; "go"]) (λ _, [AUpdate S]) [] [].

Definition afterTour : World (nat * nat) :=
  Scenario.settle (initial (12, 0)) (run 3 tour (initial (12, 0))).

End Cases.

(** * Properties *)

(** ** Outcomes *)

Section OutcomeFacts.
Context {S A : Type}.

Lemma bind_ret (m : Outcome S unit) : bind m (λ _ s, Ok tt s) = m.
Proof. destruct m as [[] s| | |]; reflexivity. Qed.

Lemma post_final (P : S → Prop) (m : Outcome S A) s :
  post P m → final m = Some s → P s.
Proof. unfold post. intros HP Hs. rewrite Hs in HP. exact HP. Qed.

End OutcomeFacts.

Lemma post_bind {S A B} (P : S → Prop) (m : Outcome S A) (k : A → S → Outcome S B) :
  post P m → (∀ a s, P s → post P (k a s)) → post P (bind m k).
Proof.
  destruct m as [a s|e s| |]; unfold post; cbn; intros Hm Hk.
  - apply Hk, Hm.
  - exact Hm.
  - exact I.
  - exact I.
Qed.

(** ** Lookups in a plain object *)

Section Lookup.
Context {A : Type}.
Implicit Types (m : gmap string A) (k : string).

Lemma get_own m k a : m !! k = Some a → get m k = Own a.
Proof. unfold get. by intros ->. Qed.

Lemma get_ordinary m k :
  ordinary k → get m k = match m !! k with Some a => Own a | None => Absent end.
Proof. unfold get, ordinary. by intros ->. Qed.

Lemma get_Own m k a : get m k = Own a ↔ m !! k = Some a.
Proof.
  unfold get. destruct (m !! k); [|destruct (objectPrototype k)]; intuition congruence.
Qed.

Lemma get_Absent m k : get m k = Absent ↔ m !! k = None ∧ ordinary k.
Proof.
  unfold get, ordinary. destruct (m !! k); [|destruct (objectPrototype k)]; intuition congruence.
Qed.

Lemma get_Inherit m k b : get m k = Inherit b ↔ m !! k = None ∧ objectPrototype k = Some b.
Proof.
  unfold get. destruct (m !! k); [|destruct (objectPrototype k)]; intuition congruence.
Qed.

End Lookup.

(** ** Fuel

    More fuel never changes an answer: an outcome other than [OutOfFuel]
    is the outcome at every larger fuel. *)

Lemma bind_extends {S A B} (m m' : Outcome S A) (k k' : A → S → Outcome S B) :
  (m ≠ OutOfFuel → m' = m) →
  (∀ a s, k a s ≠ OutOfFuel → k' a s = k a s) →
  bind m k ≠ OutOfFuel → bind m' k' = bind m k.
Proof.
  intros Hm Hk. destruct m as [a s|e s| |]; cbn; intros Hb; [| |done|].
  - rewrite Hm by done. cbn. by apply Hk.
  - by rewrite Hm.
  - by rewrite Hm.
Qed.

Section Fuel.
Context {U : Type}.
Variables call call' : Script U → World U → Outcome (World U) unit.
Hypothesis call_extends : extends call call'.
Implicit Types (w : World U).

Lemma invoke_extends c body w :
  invoke call c body w ≠ OutOfFuel → invoke call' c body w = invoke call c body w.
Proof.
  unfold invoke. destruct (call body (set_trace [] w)) as [[] w1|e w1| |] eqn:Hc; [| |done|];
    intros _; rewrite call_extends, Hc; by rewrite ?Hc.
Qed.

Lemma notifyEach_extends observers note w :
  notifyEach call observers note w ≠ OutOfFuel →
  notifyEach call' observers note w = notifyEach call observers note w.
Proof.
  revert w. induction observers as [|o rest IH]; intros w; cbn; [done|].
  apply bind_extends; [apply invoke_extends|]. intros _ w'. apply IH.
Qed.

Lemma perform_extends a w :
  perform call a w ≠ OutOfFuel → perform call' a w = perform call a w.
Proof.
  destruct a; cbn; try done.
  - destruct (c (user w)); apply call_extends.
  - unfold notifyObservers. destruct (get _ _); [|done..]. apply notifyEach_extends.
  - unfold registerMediator. destruct (get _ _); [done..|].
    apply bind_extends; [done|]. intros _ w3. apply invoke_extends.
  - unfold discard, removeMediator. destruct (get _ _); [|done..].
    apply bind_extends; [|done]. apply bind_extends; [done|]. intros _ w2.
    apply bind_extends; [apply invoke_extends|done].
  - unfold executeCommand. destruct (get _ _) as [f|[]|]; [|by destruct (calledBare _)|done..]. apply invoke_extends.
  - unfold registerProxy. destruct (decide _); [done|]. apply invoke_extends.
  - unfold discard, removeProxy. destruct (get _ _); [|done..].
    apply bind_extends; [|done]. apply bind_extends; [apply invoke_extends|done].
Qed.

Lemma sequence_extends s w :
  sequence call s w ≠ OutOfFuel → sequence call' s w = sequence call s w.
Proof.
  revert w. induction s as [|a rest IH]; intros w; cbn; [done|].
  apply bind_extends; [apply perform_extends|]. intros _ w'. apply IH.
Qed.

End Fuel.

Lemma run_extends {U} fuel : extends (U:=U) (run fuel) (run (S fuel)).
Proof.
  induction fuel as [|fuel IH]; intros s w; [done|].
  change (run (S (S fuel)) s w) with (sequence (run (S fuel)) s w).
  change (run (S fuel) s w) with (sequence (run fuel) s w).
  by apply sequence_extends.
Qed.

Lemma run_more {U} fuel fuel' (s : Script U) w :
  fuel ≤ fuel' → run fuel s w ≠ OutOfFuel → run fuel' s w = run fuel s w.
Proof.
  induction 1 as [|fuel' _ IH]; intros Hd; [done|].
  rewrite <- IH by done. apply run_extends. by rewrite IH.
Qed.

(** ** The unguarded lookup of [removeObserver] *)

Section RemoveObserver.
Context {U : Type}.
Implicit Types (w : World U) (n : string) (ctx : NotifyContext).

Lemma removeObserver_absent n ctx w :
  ordinary n → observerMap w !! n = None →
  removeObserver n ctx w
  = Throw (TypeError "Cannot read properties of undefined (reading 'length')") w.
Proof. intros Ho Hn. unfold removeObserver. rewrite get_ordinary, Hn by done. reflexivity. Qed.

Lemma removeObserver_present n ctx w observers :
  observerMap w !! n = Some observers →
  removeObserver n ctx w
  = Ok tt (set_observerMap
             (if decide (length (spliceFirst ctx observers) = 0)
              then delete n else <[n := spliceFirst ctx observers]>) w).
Proof.
  intros Hn. unfold removeObserver. rewrite (get_own _ _ _ Hn).
  destruct (decide _); reflexivity.
Qed.

Lemma set_observerMap_delete_absent n w :
  observerMap w !! n = None → set_observerMap (delete n) w = w.
Proof. intros Hn. destruct w as [om mm cm pm u t]. cbn in *. unfold set_observerMap. cbn. by rewrite delete_id. Qed.

(** On a name that inherits a member of [Object.prototype] and has no
    list, the call leaves the world as it is, whether it returns or
    throws. *)
Lemma removeObserver_inherited n ctx w b :
  observerMap w !! n = None → objectPrototype n = Some b →
  removeObserver n ctx w
  = match b with
    | BuiltinFunction (S _) =>
        Throw (TypeError
                 "Cannot read properties of undefined (reading 'compareNotifyContext')") w
    | _ => Ok tt w
    end.
Proof.
  intros Hn Hb. unfold removeObserver.
  rewrite (proj2 (get_Inherit _ _ b)) by done.
  destruct b as [[|k]|]; [|done..]. by rewrite set_observerMap_delete_absent.
Qed.

(** C9. For a name that [Object.prototype] has no member for,
    [View.removeObserver] does not guard against the missing observer
    list: the call throws a [TypeError] (the state is left as it was)
    instead of returning, and it returns normally exactly when the name
    has a list. *)
Theorem removeObserver_unguarded n ctx w :
  ordinary n →
  (observerMap w !! n = None →
   ∃ msg, removeObserver n ctx w = Throw (TypeError msg) w)
  ∧ ((∃ w', removeObserver n ctx w = Ok tt w') ↔ is_Some (observerMap w !! n)).
Proof.
  intros Ho. split.
  - intros Hn. eexists. by apply removeObserver_absent.
  - split.
    + intros [w' Hw']. destruct (observerMap w !! n) as [l|] eqn:Hn; [eauto|].
      rewrite (removeObserver_absent _ _ _ Ho Hn) in Hw'. discriminate.
    + intros [l Hl]. rewrite (removeObserver_present _ _ _ _ Hl). eauto.
Qed.

End RemoveObserver.

(** On the freshly constructed view, removing an observer throws. *)
Lemma removeObserver_unguarded_witness :
  observerMap (initial tt) !! "note" = None
  ∧ ∃ msg, removeObserver "note" (CtxObject 7) (initial tt)
           = Throw (TypeError msg) (initial tt).
Proof.
  split; [reflexivity|].
  apply (proj1 (removeObserver_unguarded "note" (CtxObject 7) (initial tt) eq_refl)).
  reflexivity.
Defined.

(** C9 as stated fails for the names every object inherits.  The fresh
    view has no observer list for [toString], yet the lookup finds the
    inherited function, whose [length] is 0: the scan is skipped and the
    call returns, having changed nothing.  Under [constructor] the
    inherited function has [length] 1 and the call throws, though not
    for want of a sequence to read the length of. *)
Lemma removeObserver_inherited_name :
  observerMap (initial tt) !! "toString" = None
  ∧ removeObserver "toString" (CtxObject 7) (initial tt) = Ok tt (initial tt)
  ∧ removeObserver "constructor" (CtxObject 7) (initial tt)
    = Throw (TypeError "Cannot read properties of undefined (reading 'compareNotifyContext')")
        (initial tt).
Proof. split_and!; reflexivity. Qed.

(** ** Observers of one context *)

Section ObserverLists.
Context {U : Type}.
Implicit Types (w : World U) (n : string) (o : Observer U) (ctx : NotifyContext).

Lemma exceptObservers_refl w : exceptObservers w w.
Proof. by repeat split. Qed.

Lemma exceptObservers_trans w1 w2 w3 :
  exceptObservers w1 w2 → exceptObservers w2 w3 → exceptObservers w1 w3.
Proof. unfold exceptObservers. intros (?&?&?&?&?) (?&?&?&?&?). split_and!; congruence. Qed.

Lemma spliceFirst_cons ctx o (l : list (Observer U)) :
  spliceFirst ctx (o :: l)
  = if decide (notifyContext o = ctx) then l else o :: spliceFirst ctx l.
Proof.
  cbn [spliceFirst]. unfold compareNotifyContext.
  case_bool_decide; destruct (decide _); congruence.
Qed.

Lemma spliceFirst_bound ctx (l : list (Observer U)) :
  length (filter (λ o, notifyContext o = ctx) (spliceFirst ctx l))
  = length (filter (λ o, notifyContext o = ctx) l) - 1.
Proof.
  induction l as [|o l IH]; [done|].
  rewrite spliceFirst_cons. destruct (decide (notifyContext o = ctx)) as [Hc|Hc].
  - rewrite (filter_cons_True _ o l) by done. cbn [length]. lia.
  - rewrite !filter_cons_False by done. exact IH.
Qed.

Lemma spliceFirst_others ctx (l : list (Observer U)) :
  filter (λ o, notifyContext o ≠ ctx) (spliceFirst ctx l)
  = filter (λ o, notifyContext o ≠ ctx) l.
Proof.
  induction l as [|o l IH]; [done|].
  rewrite spliceFirst_cons. destruct (decide (notifyContext o = ctx)) as [Hc|Hc].
  - by rewrite (filter_cons_False _ o l) by (intros Hn; by apply Hn).
  - rewrite !filter_cons_True by done. by rewrite IH.
Qed.

Lemma removeObserver_final n ctx w w' :
  final (removeObserver n ctx w) = Some w' →
  exceptObservers w w' ∧ ∀ j, j ≠ n → observerMap w' !! j = observerMap w !! j.
Proof.
  unfold removeObserver. destruct (get (observerMap w) n) as [l|[[|k]|]|]; cbn.
  - destruct (decide _); cbn; intros [= <-]; (split; [by repeat split|]); intros j Hj; cbn.
    + by rewrite lookup_delete_ne.
    + by rewrite lookup_insert_ne.
  - intros [= <-]. split; [by repeat split|]. intros j Hj. cbn. by rewrite lookup_delete_ne.
  - intros [= <-]. split; [apply exceptObservers_refl|done].
  - intros [= <-]. split; [apply exceptObservers_refl|done].
  - intros [= <-]. split; [apply exceptObservers_refl|done].
Qed.

Lemma removeObserver_observersFor n ctx w observers :
  observerMap w !! n = Some observers →
  ∃ w', removeObserver n ctx w = Ok tt w'
    ∧ observersFor n w' = spliceFirst ctx observers.
Proof.
  intros Hl. rewrite (removeObserver_present _ _ _ _ Hl). eexists. split; [done|].
  unfold observersFor. destruct (decide _) as [He|He]; cbn.
  - rewrite lookup_delete_eq. cbn. symmetry. by apply nil_length_inv.
  - by rewrite lookup_insert_eq.
Qed.

Lemma removeEach_final interests ctx w w' :
  final (removeEach interests ctx w) = Some w' →
  exceptObservers w w'
  ∧ ∀ j, j ∉ interests → observerMap w' !! j = observerMap w !! j.
Proof.
  revert w. induction interests as [|i rest IH]; intros w; cbn.
  - intros [= <-]. split; [apply exceptObservers_refl|done].
  - destruct (removeObserver i ctx w) as [[] w1|e w1| |] eqn:Hr; cbn; [| |done..].
    + intros Hf. destruct (IH _ Hf) as [He Hj].
      destruct (removeObserver_final i ctx w w1) as [He1 Hj1]; [by rewrite Hr|].
      split; [by eapply exceptObservers_trans|].
      intros j Hn. apply not_elem_of_cons in Hn as [Hne Hn].
      rewrite Hj by done. by apply Hj1.
    + intros [= <-]. destruct (removeObserver_final i ctx w w1) as [He1 Hj1]; [by rewrite Hr|].
      split; [done|]. intros j Hn. apply not_elem_of_cons in Hn as [Hne Hn]. by apply Hj1.
Qed.

Lemma withObserver_exceptObservers n o w :
  exceptObservers w (withObserver n o w).
Proof. by repeat split. Qed.

Lemma withObservers_exceptObservers interests o w :
  exceptObservers w (withObservers interests o w).
Proof.
  revert w. induction interests as [|i rest IH]; intros w; cbn.
  - apply exceptObservers_refl.
  - eapply exceptObservers_trans; [apply withObserver_exceptObservers|apply IH].
Qed.

Lemma observersFor_withObserver n (o : Observer U) w k :
  observersFor k (withObserver n o w)
  = if decide (n = k) then observersFor k w ++ [o] else observersFor k w.
Proof.
  unfold withObserver, observersFor at 1. cbn.
  destruct (decide (n = k)) as [<-|Hne].
  - by rewrite lookup_insert_eq.
  - by rewrite lookup_insert_ne.
Qed.

(** [registerObserver] where the lookup finds a list or nothing. *)
Lemma registerObserver_own n o w observers :
  observerMap w !! n = Some observers →
  registerObserver n o w = Ok tt (withObserver n o w).
Proof.
  intros Hl. unfold registerObserver, withObserver, observersFor.
  by rewrite (get_own _ _ _ Hl), Hl.
Qed.

Lemma registerObserver_ordinary n o w :
  ordinary n → registerObserver n o w = Ok tt (withObserver n o w).
Proof.
  intros Ho. unfold registerObserver, withObserver, observersFor.
  rewrite get_ordinary by done. by destruct (observerMap w !! n).
Qed.

(** On a name that inherits a member and has no list, it throws and
    registers nothing. *)
Lemma registerObserver_inherited n o w b :
  observerMap w !! n = None → objectPrototype n = Some b →
  registerObserver n o w
  = Throw (TypeError "this.observerMap[notificationName].push is not a function") w.
Proof.
  intros Hn Hb. unfold registerObserver. by rewrite (proj2 (get_Inherit _ _ b)).
Qed.

Lemma registerObserver_cases n o w :
  registerObserver n o w = Ok tt (withObserver n o w)
  ∨ ∃ e, registerObserver n o w = Throw e w.
Proof.
  unfold registerObserver, withObserver, observersFor.
  destruct (get (observerMap w) n) as [l|b|] eqn:Hg.
  - apply get_Own in Hg. rewrite Hg. by left.
  - right. eauto.
  - apply get_Absent in Hg as [Hg _]. rewrite Hg. by left.
Qed.

Lemma registerEach_ordinary interests o w :
  Forall ordinary interests →
  registerEach interests o w = Ok tt (withObservers interests o w).
Proof.
  intros Hall. revert w. induction Hall as [|i rest Hi Hrest IH]; intros w; cbn; [done|].
  rewrite registerObserver_ordinary by done. cbn. apply IH.
Qed.

End ObserverLists.

(** ** Broadcast *)

Section Broadcast.
Context {U : Type}.
Variable call : Script U → World U → Outcome (World U) unit.
Implicit Types (w : World U) (n : string) (o : Observer U) (note : Notification).

Lemma invoke_callOf c body w : invoke call c body w = callOf call c body w.
Proof.
  unfold invoke, callOf, relabel, enclose.
  destruct (call body (set_trace [] w)) as [[] w'|e w'| |]; reflexivity.
Qed.

Lemma invoke_final c body w w' :
  final (invoke call c body w) = Some w' →
  ∃ w1, final (call body (set_trace [] w)) = Some w1
    ∧ w' = enclose c (trace w) w1.
Proof.
  unfold invoke. destruct (call body (set_trace [] w)) as [[] w1|e w1| |]; cbn;
    intros Hw'; simplify_eq; eauto.
Qed.

Lemma notifyEach_deliver observers note w :
  notifyEach call observers note w = deliver call note observers w.
Proof.
  revert w. induction observers as [|o rest IH]; intros w; cbn; [done|].
  unfold notifyObserver. rewrite invoke_callOf.
  destruct (callOf call _ _ w) as [[] w'|e w'| |]; cbn; [apply IH|done..].
Qed.

Lemma notifyEach_delivered observers note w :
  delivered note observers (trace w) (notifyEach call observers note w).
Proof.
  revert w. induction observers as [|o rest IH]; intros w; cbn.
  - exists []. split; [reflexivity|]. cbn. by rewrite app_nil_r.
  - unfold notifyObserver, invoke.
    destruct (call (notifyMethod o note) (set_trace [] w)) as [[] w1|e w1| |]; cbn; [| |done..].
    + specialize (IH (enclose (CNotify (notifyContext o) note) (trace w) w1)).
      destruct (notifyEach call rest note _) as [[] w2|e w2| |]; cbn in *; [| |done..].
      * destruct IH as (inners & Hlen & Htr). exists (trace w1 :: inners).
        split; [cbn; lia|]. rewrite Htr. cbn. by rewrite <- app_assoc.
      * destruct IH as (k & inners & Hk & Hlen & Htr). exists (S k), (trace w1 :: inners).
        split_and!; [lia|cbn; lia|]. rewrite Htr. cbn. by rewrite <- app_assoc.
    + exists 0, [trace w1]. split_and!; [lia|reflexivity|]. cbn.
      destruct rest; reflexivity.
Qed.

Lemma notifyObservers_own note w observers :
  observerMap w !! note_name note = Some observers →
  notifyObservers call note w = notifyEach call observers note w.
Proof. intros Hl. unfold notifyObservers. by rewrite (get_own _ _ _ Hl). Qed.

Lemma notifyObservers_absent note w :
  ordinary (note_name note) → observerMap w !! note_name note = None →
  notifyObservers call note w = Ok tt w.
Proof. intros Ho Hl. unfold notifyObservers. by rewrite get_ordinary, Hl. Qed.

Lemma notifyObservers_inherited note w b :
  observerMap w !! note_name note = None → objectPrototype (note_name note) = Some b →
  notifyObservers call note w
  = Throw (TypeError "this.observerMap[notification.name].slice is not a function") w.
Proof. intros Hl Hb. unfold notifyObservers. by rewrite (proj2 (get_Inherit _ _ b)). Qed.

Lemma notifyObservers_delivered note w :
  ordinary (note_name note) →
  delivered note (observersFor (note_name note) w) (trace w) (notifyObservers call note w).
Proof.
  intros Ho. unfold notifyObservers, observersFor. rewrite get_ordinary by done.
  destruct (observerMap w !! note_name note) as [l|]; cbn.
  - apply notifyEach_delivered.
  - exists []. split; [reflexivity|]. cbn. by rewrite app_nil_r.
Qed.

(** The contexts notified by a broadcast are those of a prefix of the
    snapshot, and of the whole snapshot when the broadcast returns. *)
Lemma notifiedContext_deliveries note (observers : list (Observer U)) inners :
  omap notifiedContext (deliveries note observers inners)
  = notifyContext <$> take (length inners) observers.
Proof.
  revert inners. induction observers as [|o rest IH]; intros [|i inners]; cbn; try done.
  f_equal. apply IH.
Qed.

Lemma delivered_contexts note observers before m w' :
  delivered note observers before m → final m = Some w' →
  ∃ evs k, trace w' = before ++ evs
    ∧ omap notifiedContext evs = notifyContext <$> take k observers
    ∧ (∀ a, m = Ok a w' → k = length observers).
Proof.
  destruct m as [[] w1|e w1| |]; cbn; [| |done..].
  - intros (inners & Hlen & Htr) [= <-]. exists (deliveries note observers inners), (length inners).
    split_and!; [done|apply notifiedContext_deliveries|]. intros; lia.
  - intros (k & inners & Hk & Hlen & Htr) [= <-].
    exists (deliveries note (take (S k) observers) inners), (S k).
    split_and!; [done| |done].
    rewrite notifiedContext_deliveries, Hlen, take_take. f_equal. f_equal. lia.
Qed.

(** C2. A broadcast delivers to the snapshot.  When the name of the
    notification has the observer list [observers] at the moment
    [notifyObservers] is called, the broadcast is the walk over that
    list: the handler of each observer of [observers] is run, in the
    order of the list, whatever the handlers do to the observer map
    meanwhile (the statement holds for every behaviour [call] of user
    code).  When it returns, the handler calls made are exactly one per
    observer of the snapshot: an observer added to the list meanwhile
    gets no call, an observer taken out of it still gets its call, none
    is skipped or called twice.  When a handler throws, the walk ends
    there: the calls made are those of the snapshot up to and including
    that handler, and the observers after it are not called.  The order
    of the list is the order of registration: a new observer goes to its
    end. *)
Theorem notifyObservers_snapshot note w observers :
  observerMap w !! note_name note = Some observers →
  notifyObservers call note w = deliver call note observers w
  ∧ match notifyObservers call note w with
    | Ok _ w' =>
        ∃ inners, length inners = length observers
          ∧ trace w' = trace w ++ deliveries note observers inners
          ∧ omap notifiedContext (deliveries note observers inners)
            = notifyContext <$> observers
    | Throw _ w' =>
        ∃ k inners, k < length observers ∧ length inners = S k
          ∧ trace w' = trace w ++ deliveries note (take (S k) observers) inners
          ∧ omap notifiedContext (deliveries note (take (S k) observers) inners)
            = notifyContext <$> take (S k) observers
    | OutOfFuel => True
    | Unmodelled => True
    end
  ∧ ∀ o, ∃ w', registerObserver (note_name note) o w = Ok tt w'
      ∧ observerMap w' !! note_name note = Some (observers ++ [o]).
Proof.
  intros Hl. split_and!.
  - by rewrite (notifyObservers_own _ _ _ Hl), notifyEach_deliver.
  - pose proof (notifyEach_delivered observers note w) as Hd.
    rewrite (notifyObservers_own _ _ _ Hl).
    destruct (notifyEach call observers note w) as [[] w'|e w'| |]; cbn in *; [| |done..].
    + destruct Hd as (inners & Hlen & Htr). exists inners. split_and!; [done..|].
      by rewrite notifiedContext_deliveries, Hlen, firstn_all.
    + destruct Hd as (k & inners & Hk & Hlen & Htr). exists k, inners.
      split_and!; [done..|].
      rewrite notifiedContext_deliveries, Hlen, take_take. f_equal. f_equal. lia.
  - intros o. rewrite (registerObserver_own _ _ _ _ Hl). eexists. split; [done|].
    unfold withObserver, observersFor. cbn. by rewrite lookup_insert_eq, Hl.
Qed.

End Broadcast.

(** The first handler removes the second observer and adds a third while
    the broadcast runs: the second is still called, the third is not,
    and the count kept by the application has gone up once. *)
Lemma notifyObservers_snapshot_witness :
  observerMap Scenario.editView !! "edit" = Some [Scenario.editing; Scenario.counting 2]
  ∧ notifyObservers (run 2) Scenario.editNote Scenario.editView = Ok tt Scenario.afterEdit
  ∧ (∃ inners,
       length inners = 2
       ∧ trace Scenario.afterEdit
         = deliveries Scenario.editNote [Scenario.editing; Scenario.counting 2] inners)
  ∧ omap notifiedContext (trace Scenario.afterEdit) = [CtxObject 1; CtxObject 2]
  ∧ notifyContext <$> observersFor "edit" Scenario.afterEdit = [CtxObject 1; CtxObject 3]
  ∧ user Scenario.afterEdit = 1.
Proof.
  assert (notifyObservers (run 2) Scenario.editNote Scenario.editView
          = Ok tt Scenario.afterEdit) as Hrun by (vm_compute; reflexivity).
  destruct (notifyObservers_snapshot (run 2) Scenario.editNote Scenario.editView
              [Scenario.editing; Scenario.counting 2] eq_refl) as (_ & H & _).
  rewrite Hrun in H. destruct H as (inners & Hlen & Htr & Hctx).
  assert (trace Scenario.afterEdit
          = deliveries Scenario.editNote [Scenario.editing; Scenario.counting 2] inners)
    as Htr' by exact Htr.
  split_and!; [reflexivity|exact Hrun|exists inners; split; [exact Hlen|exact Htr']|..].
  - rewrite Htr'. exact Hctx.
  - vm_compute. reflexivity.
  - vm_compute. reflexivity.
Defined.

(** C2 as stated fails where a handler throws.  The handler of the
    first observer of [purge] removes all three observers; the second
    handler then removes its own observer again, finds no list under the
    name, and the [TypeError] of the unguarded [removeObserver] ends the
    broadcast: the third observer, part of the snapshot, is not called
    (its handler would have counted). *)
Lemma notifyObservers_skips :
  observerMap Cases.purgeView !! "purge"
  = Some [Cases.purging; Cases.leaving; Scenario.counting 3]
  ∧ notifyObservers (run 2) Cases.purgeNote Cases.purgeView
    = Throw (TypeError "Cannot read properties of undefined (reading 'length')")
        Cases.afterPurge
  ∧ omap notifiedContext (trace Cases.afterPurge) = [CtxObject 1; CtxObject 2]
  ∧ user Cases.afterPurge = 0.
Proof. split_and!; vm_compute; reflexivity. Qed.

(** ** No empty observer list

    The invariant is carried through every operation and, by induction on
    the fuel, through every script; the worlds that handlers and hooks are
    started in are covered on the way, since each is the end of the steps
    run before it. *)

Section NoEmptyList.
Context {U : Type}.
Implicit Types (w : World U) (n : string) (o : Observer U).

Lemma noEmptyList_initial (u : U) : noEmptyList (initial u).
Proof. intros n l. cbn. by rewrite lookup_empty. Qed.

Lemma noEmptyList_same w w' :
  observerMap w' = observerMap w → noEmptyList w → noEmptyList w'.
Proof. unfold noEmptyList. by intros ->. Qed.

Lemma withObserver_noEmptyList n o w :
  noEmptyList w → noEmptyList (withObserver n o w).
Proof.
  intros Hw k l. unfold withObserver. cbn.
  destruct (decide (n = k)) as [->|Hne].
  - rewrite lookup_insert_eq. intros [= <-]. by destruct (observersFor k w).
  - rewrite lookup_insert_ne by done. apply Hw.
Qed.

Lemma registerObserver_noEmptyList n o w :
  noEmptyList w → post noEmptyList (registerObserver n o w).
Proof.
  intros Hw. destruct (registerObserver_cases n o w) as [->|[e ->]]; [|done].
  by apply withObserver_noEmptyList.
Qed.

Lemma removeObserver_noEmptyList n ctx w :
  noEmptyList w → post noEmptyList (removeObserver n ctx w).
Proof.
  intros Hw. unfold removeObserver, post.
  destruct (get (observerMap w) n) as [l0|[[|j]|]|] eqn:Hn; cbn; [| |done..].
  - destruct (decide (length (spliceFirst ctx l0) = 0)) as [He|He]; cbn; intros k l; cbn.
    + destruct (decide (n = k)) as [->|Hne].
      * by rewrite lookup_delete_eq.
      * rewrite lookup_delete_ne by done. apply Hw.
    + destruct (decide (n = k)) as [->|Hne].
      * rewrite lookup_insert_eq. intros [= <-] Hnil. by rewrite Hnil in He.
      * rewrite lookup_insert_ne by done. apply Hw.
  - intros k l. cbn. destruct (decide (n = k)) as [->|Hne].
    + by rewrite lookup_delete_eq.
    + rewrite lookup_delete_ne by done. apply Hw.
Qed.

Lemma registerEach_noEmptyList interests o w :
  noEmptyList w → post noEmptyList (registerEach interests o w).
Proof.
  revert w. induction interests as [|i rest IH]; intros w Hw; cbn; [done|].
  apply post_bind; [by apply registerObserver_noEmptyList|]. intros _ w'. apply IH.
Qed.

Lemma removeEach_noEmptyList interests ctx w :
  noEmptyList w → post noEmptyList (removeEach interests ctx w).
Proof.
  revert w. induction interests as [|i rest IH]; intros w Hw; cbn; [done|].
  apply post_bind; [by apply removeObserver_noEmptyList|]. intros _ w'. apply IH.
Qed.

Lemma registerCommand_noEmptyList n f w :
  noEmptyList w → post noEmptyList (registerCommand n f w).
Proof.
  intros Hw. unfold registerCommand. apply post_bind.
  - destruct (get (commandMap w) n); [done..|]. by apply registerObserver_noEmptyList.
  - intros _ w1 Hw1. by destruct (decide _).
Qed.

Section WithCall.
Variable call : Script U → World U → Outcome (World U) unit.
Hypothesis call_noEmptyList : ∀ s w, noEmptyList w → post noEmptyList (call s w).

Lemma invoke_noEmptyList c body w :
  noEmptyList w → post noEmptyList (invoke call c body w).
Proof.
  intros Hw. unfold invoke.
  pose proof (call_noEmptyList body (set_trace [] w) Hw) as Hc.
  destruct (call body (set_trace [] w)) as [[] w1|e w1| |]; done.
Qed.

Lemma notifyEach_noEmptyList observers note w :
  noEmptyList w → post noEmptyList (notifyEach call observers note w).
Proof.
  revert w. induction observers as [|o rest IH]; intros w Hw; cbn; [done|].
  apply post_bind; [by apply invoke_noEmptyList|]. intros _ w'. apply IH.
Qed.

Lemma perform_noEmptyList a w :
  noEmptyList w → post noEmptyList (perform call a w).
Proof.
  intros Hw. destruct a as [f|c thn els|msg|n o|n ctx|note|m|n|n f|note|n|p|n]; cbn.
  - done.
  - destruct (c (user w)); by apply call_noEmptyList.
  - done.
  - by apply registerObserver_noEmptyList.
  - by apply removeObserver_noEmptyList.
  - unfold notifyObservers. destruct (get _ _); [|done..].
    by apply notifyEach_noEmptyList.
  - unfold registerMediator. destruct (get _ _); [done..|].
    apply post_bind.
    + destruct (decide _); [|done]. by apply registerEach_noEmptyList.
    + intros _ w3. apply invoke_noEmptyList.
  - unfold discard, removeMediator. destruct (get _ _); [|done..].
    apply post_bind; [|done]. apply post_bind; [by apply removeEach_noEmptyList|].
    intros _ w2 Hw2. apply post_bind; [|done]. by apply invoke_noEmptyList.
  - by apply registerCommand_noEmptyList.
  - unfold executeCommand. destruct (get _ _) as [f|[]|]; [|by destruct (calledBare _)|done..].
    by apply invoke_noEmptyList.
  - unfold removeCommand. destruct (hasCommand _ w); [|done].
    apply post_bind; [by apply removeObserver_noEmptyList|done].
  - unfold registerProxy. destruct (decide _); [done|]. by apply invoke_noEmptyList.
  - unfold discard, removeProxy. destruct (get _ _); [|done..].
    apply post_bind; [|done]. apply post_bind; [|done]. by apply invoke_noEmptyList.
Qed.

Lemma sequence_noEmptyList s w :
  noEmptyList w → post noEmptyList (sequence call s w).
Proof.
  revert w. induction s as [|a rest IH]; intros w Hw; cbn; [done|].
  apply post_bind; [by apply perform_noEmptyList|]. intros _ w'. apply IH.
Qed.

End WithCall.

Lemma run_noEmptyList fuel s w :
  noEmptyList w → post noEmptyList (run fuel s w).
Proof.
  revert s w. induction fuel as [|fuel IH]; intros s w Hw; cbn; [done|].
  by apply sequence_noEmptyList.
Qed.

(** C5. In every world reachable through the public operations, no name
    of the observer map has an empty list.  [registerObserver] makes a
    key only together with a one-element list: whenever a name has a
    list after the call that it had not before, the name is the one
    registered and the list holds the new observer alone, which is what
    happens when the lookup of the name finds nothing.  [removeObserver]
    deletes the key when the removal empties the list. *)
Theorem observerMap_noEmptyList :
  (∀ w, reachable w → noEmptyList w)
  ∧ (∀ n o w w' k l,
       final (registerObserver n o w) = Some w' →
       observerMap w !! k = None → observerMap w' !! k = Some l →
       k = n ∧ l = [o])
  ∧ (∀ n o w, get (observerMap w) n = Absent →
       registerObserver n o w = Ok tt (set_observerMap <[n := [o]]> w))
  ∧ (∀ n ctx w observers,
       observerMap w !! n = Some observers → spliceFirst ctx observers = [] →
       ∃ w', removeObserver n ctx w = Ok tt w'
         ∧ observerMap w' = delete n (observerMap w)).
Proof.
  split_and!.
  - induction 1 as [u|w fuel s w' _ IH Hrun].
    + apply noEmptyList_initial.
    + eapply post_final; [|exact Hrun]. by apply run_noEmptyList.
  - intros n o w w' k l Hf Hk Hl.
    destruct (registerObserver_cases n o w) as [Hr|[e Hr]]; rewrite Hr in Hf;
      injection Hf as <-; [|congruence].
    unfold withObserver, observersFor in Hl. cbn in Hl.
    destruct (decide (n = k)) as [->|Hne].
    + rewrite lookup_insert_eq, Hk in Hl. by injection Hl as <-.
    + rewrite lookup_insert_ne in Hl by done. congruence.
  - intros n o w Hn. unfold registerObserver. by rewrite Hn.
  - intros n ctx w l Hl Hnil. rewrite (removeObserver_present _ _ _ _ Hl), Hnil.
    eexists. split; reflexivity.
Qed.

End NoEmptyList.

(** The session of the scenario ends in a world without empty lists,
    having run the handlers and hooks on its way; a first registration
    makes a one-element list, and removing its only observer deletes the
    key. *)
Lemma observerMap_noEmptyList_witness :
  reachable Scenario.afterSession
  ∧ noEmptyList Scenario.afterSession
  ∧ user Scenario.afterSession = 2
  ∧ notifyContext <$> observersFor "go" Scenario.afterSession = [CtxController]
  ∧ observerMap Scenario.afterSession !! "stop" = None
  ∧ registerObserver "edit" Scenario.editing (initial 0)
    = Ok tt (set_observerMap <["edit" := [Scenario.editing]]> (initial 0))
  ∧ ∃ w', removeObserver "edit" (CtxObject 1)
            (set_observerMap <["edit" := [Scenario.editing]]> (initial 0)) = Ok tt w'
      ∧ observerMap w'
        = delete "edit"
            (observerMap (set_observerMap <["edit" := [Scenario.editing]]> (initial 0))).
Proof.
  assert (reachable Scenario.afterSession) as Hreach.
  { apply (reachable_run (initial 0) 3 Scenario.session); [apply reachable_initial|].
    vm_compute. reflexivity. }
  destruct (observerMap_noEmptyList (U:=nat)) as (Hinv & _ & Hreg & Hrem).
  split_and!; [exact Hreach|apply Hinv, Hreach|vm_compute; reflexivity..
              |apply Hreg; reflexivity|].
  apply (Hrem "edit" (CtxObject 1) _ [Scenario.editing]); reflexivity.
Defined.

(** ** Mediators *)

Section Mediators.
Context {U : Type}.
Variable call : Script U → World U → Outcome (World U) unit.
Implicit Types (w : World U) (n : string) (m : Mediator U) (ctx : NotifyContext).

Lemma multiplicity_cons j i rest :
  multiplicity j (i :: rest) = (if decide (i = j) then 1 else 0) + multiplicity j rest.
Proof.
  unfold multiplicity. destruct (decide (i = j)) as [Hi|Hi].
  - by rewrite filter_cons_True.
  - by rewrite filter_cons_False.
Qed.

Lemma removeEach_bound interests ctx w :
  (∀ i, i ∈ interests → multiplicity i interests ≤ length (boundTo ctx i w)) →
  ∃ w', removeEach interests ctx w = Ok tt w'
    ∧ (∀ i, length (boundTo ctx i w')
            = length (boundTo ctx i w) - multiplicity i interests)
    ∧ (∀ i, others ctx i w' = others ctx i w).
Proof.
  revert w. induction interests as [|i rest IH]; intros w H; cbn [removeEach].
  - exists w. split_and!; [done| |done]. intros i. unfold multiplicity. cbn. lia.
  - assert (1 ≤ length (boundTo ctx i w)) as Hi.
    { specialize (H i (list_elem_of_here _ _)). rewrite multiplicity_cons in H.
      destruct (decide (i = i)); [lia|done]. }
    destruct (observerMap w !! i) as [l|] eqn:Hl; last first.
    { unfold boundTo, observersFor in Hi. rewrite Hl in Hi. cbn in Hi. lia. }
    destruct (removeObserver_observersFor i ctx w l Hl) as (w1 & Hr & Hfor).
    rewrite Hr. cbn [bind].
    destruct (removeObserver_final i ctx w w1) as [_ Hother]; [by rewrite Hr|].
    assert (∀ j, length (boundTo ctx j w1)
                 = length (boundTo ctx j w) - (if decide (i = j) then 1 else 0)) as Hb1.
    { intros j. destruct (decide (i = j)) as [<-|Hne].
      - unfold boundTo. rewrite Hfor, spliceFirst_bound. unfold observersFor. by rewrite Hl.
      - unfold boundTo, observersFor. rewrite Hother by done. lia. }
    assert (∀ j, others ctx j w1 = others ctx j w) as Ho1.
    { intros j. destruct (decide (i = j)) as [<-|Hne].
      - unfold others. rewrite Hfor, spliceFirst_others. unfold observersFor. by rewrite Hl.
      - unfold others, observersFor. by rewrite Hother. }
    destruct (IH w1) as (w' & Hrun & Hb & Ho).
    { intros j Hj. rewrite Hb1.
      specialize (H j (list_elem_of_further _ _ _ Hj)). rewrite multiplicity_cons in H.
      destruct (decide (i = j)); lia. }
    exists w'. split_and!; [done| |].
    + intros j. rewrite Hb, Hb1, multiplicity_cons. destruct (decide (i = j)); lia.
    + intros j. by rewrite Ho, Ho1.
Qed.

Lemma withObservers_bound interests (o : Observer U) w i :
  length (boundTo (notifyContext o) i (withObservers interests o w))
  = length (boundTo (notifyContext o) i w) + multiplicity i interests.
Proof.
  revert w. induction interests as [|i0 rest IH]; intros w; cbn [withObservers].
  - unfold multiplicity. cbn. lia.
  - rewrite IH, multiplicity_cons. unfold boundTo.
    rewrite observersFor_withObserver. destruct (decide (i0 = i)); [|lia].
    rewrite filter_app, length_app. rewrite (filter_cons_True _ o []) by done. cbn. lia.
Qed.

(** The world in which the registration hook of a mediator is called:
    the mediator stored, its interests asked, its observer at the end of
    the list of each interest. *)
Lemma registerMediator_callOf m w :
  retrieveMediator (mediatorName m) w = Absent →
  Forall ordinary (listNotificationInterests m (user w)) →
  registerMediator call m w
  = callOf call (COnRegisterMediator (mediatorId m)) (mediatorOnRegister m)
      (withObservers (listNotificationInterests m (user w)) (mediatorObserver m)
         (log (EvListInterests (mediatorId m))
            (set_mediatorMap <[mediatorName m := m]> w))).
Proof.
  intros Hm Hall. unfold registerMediator, retrieveMediator in *. rewrite Hm. cbv zeta.
  fold (mediatorObserver m).
  change (user (set_mediatorMap <[mediatorName m:=m]> w)) with (user w).
  rewrite registerEach_ordinary by done.
  destruct (decide _) as [|Hz]; cbn [bind]; [apply invoke_callOf|].
  rewrite invoke_callOf.
  destruct (listNotificationInterests m (user w)) as [|i l]; [done|cbn in Hz; lia].
Qed.

(** Registration puts the observers in place: a mediator that had no
    observer anywhere is [installed] once [registerMediator] has returned,
    when its hook leaves the maps and the application state alone. *)
Lemma registerMediator_installed m w :
  retrieveMediator (mediatorName m) w = Absent →
  Forall ordinary (listNotificationInterests m (user w)) →
  (∀ i, boundTo (CtxObject (mediatorId m)) i w = []) →
  preserves (λ w, (observerMap w, mediatorMap w, user w)) call (mediatorOnRegister m) →
  ∃ w', registerMediator call m w = Ok tt w'
    ∧ mediatorMap w' !! mediatorName m = Some m
    ∧ installed m w'.
Proof.
  intros Hm Hall Hnone Hhook. rewrite registerMediator_callOf by done. unfold callOf.
  match goal with |- context [call _ ?x] => destruct (Hhook x) as (w1 & -> & Hkeep) end.
  cbn [relabel]. injection Hkeep as Hobs Hmed Husr. eexists. split; [reflexivity|].
  destruct (withObservers_exceptObservers (listNotificationInterests m (user w))
              (mediatorObserver m)
              (log (EvListInterests (mediatorId m))
                 (set_mediatorMap <[mediatorName m := m]> w)))
    as (Hmed' & _ & _ & Husr' & _).
  cbn in Hobs, Hmed, Husr, Hmed', Husr'. split.
  - cbn. rewrite Hmed, Hmed'. by rewrite lookup_insert_eq.
  - intros i Hi. cbn [set_trace user] in *. rewrite Husr, Husr' in *.
    unfold boundTo, observersFor. cbn [set_trace observerMap]. rewrite Hobs.
    pose proof (withObservers_bound (listNotificationInterests m (user w))
                  (mediatorObserver m)
                  (log (EvListInterests (mediatorId m))
                     (set_mediatorMap <[mediatorName m := m]> w)) i) as Hb.
    unfold boundTo, observersFor in Hb. cbn [notifyContext mediatorObserver] in Hb. rewrite Hb.
    specialize (Hnone i). unfold boundTo, observersFor in Hnone. cbn. rewrite Hnone. done.
Qed.

Lemma registerMediator_registered m w :
  retrieveMediator (mediatorName m) w ≠ Absent → registerMediator call m w = Ok tt w.
Proof.
  unfold registerMediator, retrieveMediator.
  by destruct (get (mediatorMap w) (mediatorName m)).
Qed.

(** C6. Registering a mediator under a name that is already in the
    mediator map changes nothing: the world is returned as it was, so the
    instance registered first is still the one retrieved, no observer list
    changes, and neither [listNotificationInterests] nor [onRegister] of
    the new mediator is called (the log is unchanged). *)
Theorem registerMediator_again m w m0 :
  mediatorMap w !! mediatorName m = Some m0 →
  registerMediator call m w = Ok tt w
  ∧ retrieveMediator (mediatorName m) w = Own m0.
Proof.
  intros Hm. assert (retrieveMediator (mediatorName m) w = Own m0) as Hr
    by (by apply get_own).
  split; [|exact Hr]. apply registerMediator_registered. by rewrite Hr.
Qed.

Lemma removeMediator_unregistered n w :
  retrieveMediator n w = Absent → removeMediator call n w = Ok None w.
Proof. unfold retrieveMediator, removeMediator. by intros ->. Qed.

(** What a broadcast notifies are observers of the list of the name. *)
Lemma notifyObservers_contexts note w w' :
  final (notifyObservers call note w) = Some w' →
  ∃ evs k, trace w' = trace w ++ evs
    ∧ omap notifiedContext evs = notifyContext <$> take k (observersFor (note_name note) w).
Proof.
  unfold notifyObservers, observersFor.
  destruct (get (observerMap w) (note_name note)) as [l|b|] eqn:Hg.
  - apply get_Own in Hg. rewrite Hg. cbn. intros Hf.
    destruct (delivered_contexts note l (trace w) _ w' (notifyEach_delivered call l note w) Hf)
      as (evs & k & Htr & Hcx & _).
    eauto.
  - cbn. intros [= <-]. exists [], 0. by rewrite app_nil_r.
  - cbn. intros [= <-]. exists [], 0. by rewrite app_nil_r.
Qed.

(** Where an owner has no observer under a name, a broadcast of the name
    does not call it. *)
Lemma notifyObservers_unbound note ctx w w' :
  boundTo ctx (note_name note) w = [] →
  final (notifyObservers call note w) = Some w' →
  ∃ evs, trace w' = trace w ++ evs ∧ ctx ∉ omap notifiedContext evs.
Proof.
  intros Hnil Hf. destruct (notifyObservers_contexts note w w' Hf) as (evs & k & Htr & Hcx).
  exists evs. split; [done|]. rewrite Hcx. intros Hel.
  apply list_elem_of_fmap in Hel as (o & Hoc & Hel). apply subseteq_take in Hel.
  assert (o ∈ boundTo ctx (note_name note) w) as Hbo
    by (unfold boundTo; by apply list_elem_of_filter).
  rewrite Hnil in Hbo. by apply not_elem_of_nil in Hbo.
Qed.

(** The world in which the removal hook of a mediator is called. *)
Lemma removeMediator_callOf n m w :
  mediatorMap w !! n = Some m → installed m w →
  ∃ w3,
    removeMediator call n w
    = bind (callOf call (COnRemoveMediator (mediatorId m)) (mediatorOnRemove m) w3)
        (λ _ w4, Ok (Some m) w4)
    ∧ mediatorMap w3 = delete n (mediatorMap w)
    ∧ (∀ i, i ∈ listNotificationInterests m (user w) →
         boundTo (CtxObject (mediatorId m)) i w3 = [])
    ∧ (∀ i, others (CtxObject (mediatorId m)) i w3 = others (CtxObject (mediatorId m)) i w)
    ∧ commandMap w3 = commandMap w ∧ proxyMap w3 = proxyMap w ∧ user w3 = user w
    ∧ trace w3 = trace w ++ [EvListInterests (mediatorId m)].
Proof.
  intros Hm Hinst. unfold removeMediator. rewrite (get_own _ _ _ Hm).
  assert (∀ i, i ∈ listNotificationInterests m (user w) →
            length (boundTo (CtxObject (mediatorId m)) i
                      (log (EvListInterests (mediatorId m)) w))
            = multiplicity i (listNotificationInterests m (user w))) as Hinst1
    by exact Hinst.
  remember (CtxObject (mediatorId m)) as ctx eqn:Hctx.
  remember (listNotificationInterests m (user w)) as interests eqn:Hints.
  remember (log (EvListInterests (mediatorId m)) w) as w1 eqn:Hw1.
  destruct (removeEach_bound interests ctx w1) as (w2 & Hrun & Hb & Ho).
  { intros i Hi. by rewrite (Hinst1 i Hi). }
  rewrite Hrun. cbn [bind].
  destruct (removeEach_final interests ctx w1 w2) as [(Hmed & Hcmd & Hprx & Husr & Htr) _];
    [by rewrite Hrun|].
  exists (set_mediatorMap (delete n) w2). rewrite invoke_callOf.
  split_and!; [done|..].
  - cbn. by rewrite Hmed, Hw1.
  - intros i Hi. apply nil_length_inv.
    change (boundTo ctx i (set_mediatorMap (delete n) w2)) with (boundTo ctx i w2).
    rewrite Hb, (Hinst1 i Hi). lia.
  - intros i. change (others ctx i (set_mediatorMap (delete n) w2)) with (others ctx i w2).
    by rewrite Ho, Hw1.
  - cbn. by rewrite Hcmd, Hw1.
  - cbn. by rewrite Hprx, Hw1.
  - cbn. by rewrite Husr, Hw1.
  - cbn. by rewrite Htr, Hw1.
Qed.

(** C4. [View.removeMediator] returns [null] and changes nothing when
    the lookup of the name gives nothing.  When the name has a mediator
    whose observers are in place for the interests it declares now, the
    call is the call of [onRemove], once, made in the world in which the
    observers of the mediator have been taken out of the list of each
    declared interest, the other observers left in place, and the name
    deleted from the mediator map; the instance is returned when
    [onRemove] returns.  Where a mediator has no observer under a name,
    a broadcast of the name makes no call of its handler; so it is for
    each declared interest when [removeMediator] has ended, by return or
    by throw, if [onRemove] leaves the observer map as it finds it. *)
Theorem removeMediator_spec n w :
  (retrieveMediator n w = Absent → removeMediator call n w = Ok None w)
  ∧ (∀ m, mediatorMap w !! n = Some m → installed m w →
       ∃ w3,
         removeMediator call n w
         = bind (callOf call (COnRemoveMediator (mediatorId m)) (mediatorOnRemove m) w3)
             (λ _ w4, Ok (Some m) w4)
         ∧ mediatorMap w3 = delete n (mediatorMap w)
         ∧ (∀ i, i ∈ listNotificationInterests m (user w) →
              boundTo (CtxObject (mediatorId m)) i w3 = [])
         ∧ (∀ i, others (CtxObject (mediatorId m)) i w3
                 = others (CtxObject (mediatorId m)) i w)
         ∧ commandMap w3 = commandMap w ∧ proxyMap w3 = proxyMap w ∧ user w3 = user w
         ∧ trace w3 = trace w ++ [EvListInterests (mediatorId m)])
  ∧ (∀ m note v v',
       boundTo (CtxObject (mediatorId m)) (note_name note) v = [] →
       final (notifyObservers call note v) = Some v' →
       ∃ evs, trace v' = trace v ++ evs
         ∧ CtxObject (mediatorId m) ∉ omap notifiedContext evs)
  ∧ (∀ m w', mediatorMap w !! n = Some m → installed m w →
       keeps observerMap call (mediatorOnRemove m) →
       final (removeMediator call n w) = Some w' →
       (∀ i, i ∈ listNotificationInterests m (user w) →
          boundTo (CtxObject (mediatorId m)) i w' = [])
       ∧ (∀ i, others (CtxObject (mediatorId m)) i w'
               = others (CtxObject (mediatorId m)) i w)
       ∧ ∃ inner, trace w' = trace w ++ [EvListInterests (mediatorId m);
                                         EvCall (COnRemoveMediator (mediatorId m)) inner]).
Proof.
  split_and!.
  - apply removeMediator_unregistered.
  - intros m Hm Hinst. by apply removeMediator_callOf.
  - intros m note v v'. apply notifyObservers_unbound.
  - intros m w' Hm Hinst Hhook.
    destruct (removeMediator_callOf n m w Hm Hinst)
      as (w3 & -> & Hmed & Hb & Ho & _ & _ & _ & Htr).
    unfold callOf. intros Hf.
    assert (∃ w4, final (call (mediatorOnRemove m) (set_trace [] w3)) = Some w4
                  ∧ w' = set_trace (trace w3 ++ [EvCall (COnRemoveMediator (mediatorId m))
                                                   (trace w4)]) w4) as (w4 & Hc & ->).
    { destruct (call (mediatorOnRemove m) (set_trace [] w3)) as [[] w4|e w4| |];
        cbn in Hf; simplify_eq; eauto. }
    pose proof (Hhook _ _ Hc) as Hobs. cbn in Hobs.
    assert (∀ i, observersFor i (set_trace (trace w3 ++ [EvCall (COnRemoveMediator
                                    (mediatorId m)) (trace w4)]) w4) = observersFor i w3)
      as Hfor by (intros i; unfold observersFor; cbn; by rewrite Hobs).
    split_and!.
    + intros i Hi. unfold boundTo. rewrite Hfor. by apply Hb.
    + intros i. unfold others at 1. rewrite Hfor. apply Ho.
    + exists (trace w4). cbn. rewrite Htr. by rewrite <- app_assoc.
Qed.

End Mediators.

(** A second mediator named [listener] is turned away. *)
Lemma registerMediator_again_witness :
  mediatorMap Scenario.listening !! mediatorName Scenario.impostor = Some Scenario.listener
  ∧ registerMediator (run 1) Scenario.impostor Scenario.listening = Ok tt Scenario.listening
  ∧ retrieveMediator "listener" Scenario.listening = Own Scenario.listener.
Proof.
  split; [reflexivity|].
  apply (registerMediator_again (run 1) Scenario.impostor Scenario.listening Scenario.listener).
  reflexivity.
Defined.

(** Removing the registered [watcher]: its hook has run, once. *)
Lemma removeMediator_spec_witness :
  mediatorMap Cases.watching !! "watcher" = Some Cases.watcher
  ∧ removeMediator (run 1) "watcher" Cases.watching
    = Ok (Some Cases.watcher) Cases.afterWatching
  ∧ user Cases.afterWatching = 100
  ∧ retrieveMediator "watcher" Cases.afterWatching = Absent
  ∧ boundTo (CtxObject 7) "go" Cases.afterWatching = []
  ∧ boundTo (CtxObject 7) "stop" Cases.afterWatching = []
  ∧ trace Cases.afterWatching
    = trace Cases.watching ++ [EvListInterests 7; EvCall (COnRemoveMediator 7) []].
Proof.
  assert (removeMediator (run 1) "watcher" Cases.watching
          = Ok (Some Cases.watcher) Cases.afterWatching) as Hrun by (vm_compute; reflexivity).
  destruct (removeMediator_spec (run 1) "watcher" Cases.watching) as (_ & _ & _ & Hend).
  destruct (Hend Cases.watcher Cases.afterWatching) as (Hb & _ & _).
  - reflexivity.
  - intros i Hi. cbn in Hi.
    apply elem_of_cons in Hi as [->|Hi]; [reflexivity|].
    apply elem_of_cons in Hi as [->|Hi]; [reflexivity|].
    by apply elem_of_nil in Hi.
  - intros w w' Hf. vm_compute in Hf. by injection Hf as <-.
  - by rewrite Hrun.
  - split_and!; [reflexivity|exact Hrun|vm_compute; reflexivity..| | |vm_compute; reflexivity].
    + apply Hb. cbn. apply elem_of_cons. by left.
    + apply Hb. cbn. apply elem_of_cons. right. apply elem_of_cons. by left.
Defined.

(** C4 as stated fails.  [watcher] is registered, and the application
    has taken its observer out of the list of [go] itself, so that the
    name has no list any more.  [removeMediator] asks for the interests,
    gets [go] and [stop], and the unguarded [removeObserver] throws on
    [go]: the mediator is still registered and still observes [stop],
    and [onRemove] has not been called.  On the fresh view,
    [removeMediator("toString")] throws as well, where no mediator is
    registered: the lookup finds the inherited function. *)
Lemma removeMediator_stranded :
  mediatorMap Cases.stranded !! "watcher" = Some Cases.watcher
  ∧ removeMediator (run 1) "watcher" Cases.stranded
    = Throw (TypeError "Cannot read properties of undefined (reading 'length')")
        (log (EvListInterests 7) Cases.stranded)
  ∧ retrieveMediator "watcher" (log (EvListInterests 7) Cases.stranded) = Own Cases.watcher
  ∧ notifyContext <$> observersFor "stop" (log (EvListInterests 7) Cases.stranded)
    = [CtxObject 7]
  ∧ user (log (EvListInterests 7) Cases.stranded) = 0
  ∧ mediatorMap (initial 0) !! "toString" = None
  ∧ removeMediator (run 1) "toString" (initial 0)
    = Throw (TypeError "mediator.listNotificationInterests is not a function") (initial 0).
Proof. split_and!; vm_compute; reflexivity. Qed.

(** ** Queries of the interests of a mediator *)

Section Interests.
Context {U : Type}.
Variable call : Script U → World U → Outcome (World U) unit.
Implicit Types (w : World U) (n : string) (m : Mediator U).

Lemma queries_app id (t1 t2 : list Event) :
  queries id (t1 ++ t2) = queries id t1 + queries id t2.
Proof. unfold queries. by rewrite filter_app, length_app. Qed.

Lemma queries_cons id e (t : list Event) :
  queries id (e :: t) = (if isQuery id e then 1 else 0) + queries id t.
Proof.
  unfold queries. destruct (isQuery id e) eqn:He.
  - by rewrite filter_cons_True.
  - rewrite filter_cons_False; [done|]. by rewrite He.
Qed.

Lemma queries_deliveries id note (observers : list (Observer U)) inners :
  queries id (deliveries note observers inners) = 0.
Proof.
  revert inners. induction observers as [|o rest IH]; intros [|i inners]; try done.
  change (deliveries note (o :: rest) (i :: inners))
    with (EvCall (CNotify (notifyContext o) note) i :: deliveries note rest inners).
  rewrite queries_cons. cbn. apply IH.
Qed.

Lemma registerObserver_final n o w w' :
  final (registerObserver n o w) = Some w' →
  exceptObservers w w' ∧ ∀ j, j ≠ n → observerMap w' !! j = observerMap w !! j.
Proof.
  destruct (registerObserver_cases n o w) as [->|[e ->]]; cbn; intros [= <-].
  - split; [apply withObserver_exceptObservers|]. intros j Hj. cbn.
    by rewrite lookup_insert_ne.
  - split; [apply exceptObservers_refl|done].
Qed.

Lemma registerEach_final interests o w w' :
  final (registerEach interests o w) = Some w' → exceptObservers w w'.
Proof.
  revert w. induction interests as [|i rest IH]; intros w; cbn.
  - intros [= <-]. apply exceptObservers_refl.
  - destruct (registerObserver i o w) as [[] w1|e w1| |] eqn:Hr; cbn; [| |done..].
    + intros Hf. eapply exceptObservers_trans; [|by apply IH].
      by apply (registerObserver_final i o w w1); rewrite Hr.
    + intros [= <-]. by apply (registerObserver_final i o w w1); rewrite Hr.
Qed.

Lemma registerMediator_trace m w w' :
  retrieveMediator (mediatorName m) w = Absent →
  final (registerMediator call m w) = Some w' →
  ∃ rest, trace w' = trace w ++ EvListInterests (mediatorId m) :: rest
    ∧ (rest = [] ∨ ∃ inner, rest = [EvCall (COnRegisterMediator (mediatorId m)) inner]).
Proof.
  intros Hm. unfold registerMediator, retrieveMediator in *. rewrite Hm. cbv zeta.
  set (w2 := log (EvListInterests (mediatorId m)) (set_mediatorMap <[mediatorName m := m]> w)).
  set (o := mkObserver (handleNotification m) (CtxObject (mediatorId m))).
  set (ns := listNotificationInterests m (user (set_mediatorMap <[mediatorName m := m]> w))).
  assert (∀ w3, final (if decide (0 < length ns) then registerEach ns o w2 else Ok tt w2)
                = Some w3 → trace w3 = trace w ++ [EvListInterests (mediatorId m)]) as Hloop.
  { intros w3. destruct (decide _); cbn.
    - intros Hf. by destruct (registerEach_final _ _ _ _ Hf) as (_ & _ & _ & _ & ->).
    - by intros [= <-]. }
  destruct (if decide (0 < length ns) then registerEach ns o w2 else Ok tt w2)
    as [[] w3|e w3| |]; cbn [bind]; [| |done..].
  - specialize (Hloop w3 eq_refl). intros Hf.
    apply invoke_final in Hf as (w4 & _ & ->). eexists. split; [|right; eauto].
    cbn. rewrite Hloop. by rewrite <- app_assoc.
  - specialize (Hloop w3 eq_refl). cbn. intros [= <-]. exists []. split; [|by left].
    by rewrite Hloop.
Qed.

Lemma removeMediator_trace n m w w' :
  mediatorMap w !! n = Some m →
  final (removeMediator call n w) = Some w' →
  ∃ rest, trace w' = trace w ++ EvListInterests (mediatorId m) :: rest
    ∧ (rest = [] ∨ ∃ inner, rest = [EvCall (COnRemoveMediator (mediatorId m)) inner]).
Proof.
  intros Hm. unfold removeMediator. rewrite (get_own _ _ _ Hm).
  destruct (removeEach _ _ _) as [[] w2|e w2| |] eqn:Hr; cbn [bind]; [| |done..].
  - destruct (removeEach_final _ _ _ w2 ltac:(by rewrite Hr)) as [(_ & _ & _ & _ & Htr) _].
    intros Hf.
    assert (final (invoke call (COnRemoveMediator (mediatorId m)) (mediatorOnRemove m)
                     (set_mediatorMap (delete n) w2)) = Some w') as Hi.
    { destruct (invoke _ _ _ _) as [[] w3|e w3| |]; done. }
    apply invoke_final in Hi as (w3 & _ & ->). eexists. split; [|right; eauto].
    cbn. rewrite Htr. cbn. by rewrite <- app_assoc.
  - destruct (removeEach_final _ _ _ w2 ltac:(by rewrite Hr)) as [(_ & _ & _ & _ & Htr) _].
    cbn. intros [= <-]. exists []. split; [|by left]. by rewrite Htr.
Qed.

Lemma removeMediator_untouched n m w w' :
  mediatorMap w !! n = Some m →
  keeps observerMap call (mediatorOnRemove m) →
  final (removeMediator call n w) = Some w' →
  ∀ i, i ∉ listNotificationInterests m (user w) →
    observerMap w' !! i = observerMap w !! i.
Proof.
  intros Hm Hhook. unfold removeMediator. rewrite (get_own _ _ _ Hm).
  destruct (removeEach _ _ _) as [[] w2|e w2| |] eqn:Hr; cbn [bind]; [| |done..].
  - destruct (removeEach_final _ _ _ w2 ltac:(by rewrite Hr)) as [_ Hj].
    intros Hf i Hi.
    assert (final (invoke call (COnRemoveMediator (mediatorId m)) (mediatorOnRemove m)
                     (set_mediatorMap (delete n) w2)) = Some w') as Hinv.
    { destruct (invoke _ _ _ _) as [[] w3|e w3| |]; done. }
    apply invoke_final in Hinv as (w3 & Hc & ->). cbn.
    rewrite (Hhook _ _ Hc). cbn. by apply Hj.
  - destruct (removeEach_final _ _ _ w2 ltac:(by rewrite Hr)) as [_ Hj].
    cbn. intros [= <-] i Hi. by apply Hj.
Qed.


End Interests.



(** ** Commands *)

Section Commands.
Context {U : Type}.
Implicit Types (w : World U) (n : string) (f : Factory U) (note : Notification).

Lemma invoke_relabel (call : Script U → World U → Outcome (World U) unit) c body w :
  invoke call c body w
  = relabel (λ t, trace w ++ [EvCall c t]) (call body (set_trace [] w)).
Proof. apply invoke_callOf. Qed.

Lemma ordinary_proto n : ordinary n → n ≠ "__proto__".
Proof. intros Ho ->. discriminate Ho. Qed.

Lemma registerCommand_ordinary n f w :
  ordinary n → registerCommand n f w = Ok tt (withCommand n f w).
Proof.
  intros Ho. unfold registerCommand, withCommand. rewrite get_ordinary by done.
  destruct (commandMap w !! n) as [f0|]; cbn [bind].
  - by rewrite decide_False by by apply ordinary_proto.
  - rewrite registerObserver_ordinary by done. cbn [bind].
    by rewrite decide_False by by apply ordinary_proto.
Qed.

Lemma registerAll_ordinary n fs w :
  ordinary n → registerAll n fs w = Ok tt (foldl (λ w f, withCommand n f w) w fs).
Proof.
  intros Ho. revert w. induction fs as [|f fs IH]; intros w; cbn; [done|].
  rewrite registerCommand_ordinary by done. cbn. apply IH.
Qed.

Lemma withCommand_trace n f w : trace (withCommand n f w) = trace w.
Proof. unfold withCommand. by destruct (commandMap w !! n). Qed.

Lemma withCommand_commandMap n f w : commandMap (withCommand n f w) !! n = Some f.
Proof. unfold withCommand. cbn. by rewrite lookup_insert_eq. Qed.

Lemma withCommand_commandBound n f w :
  commandBound n w → commandBound n (withCommand n f w).
Proof.
  unfold commandBound. rewrite withCommand_commandMap. unfold withCommand.
  destruct (commandMap w !! n) as [f0|] eqn:Hc; cbn; [done|]. intros Hb.
  unfold boundTo in *.
  change (observersFor n (set_commandMap _ ?x)) with (observersFor n x).
  rewrite observersFor_withObserver. destruct (decide (n = n)); [|done].
  rewrite filter_app, length_app, Hb. done.
Qed.

Lemma withCommands_commandBound n fs w :
  commandBound n w → commandBound n (foldl (λ w f, withCommand n f w) w fs).
Proof.
  revert w. induction fs as [|f fs IH]; intros w Hw; cbn; [done|].
  apply IH, withCommand_commandBound, Hw.
Qed.

Lemma withCommand_onlyCommand n f w :
  (observerMap w !! n = None ∧ commandMap w !! n = None) ∨ onlyCommand n w →
  onlyCommand n (withCommand n f w).
Proof.
  unfold onlyCommand. intros [[Ho Hc]|[Ho [f0 Hc]]];
    (split; [|by rewrite withCommand_commandMap]);
    unfold withCommand; rewrite Hc; cbn; [|done].
  unfold observersFor. rewrite Ho. cbn. by rewrite lookup_insert_eq.
Qed.

Lemma withCommands_onlyCommand n fs f w :
  observerMap w !! n = None → commandMap w !! n = None →
  onlyCommand n (foldl (λ w f, withCommand n f w) w (fs ++ [f])).
Proof.
  intros Ho Hc. rewrite foldl_app. cbn.
  apply withCommand_onlyCommand.
  assert ((observerMap w !! n = None ∧ commandMap w !! n = None) ∨ onlyCommand n w) as H
    by (left; done).
  clear Ho Hc. revert w H. induction fs as [|f0 fs IH]; intros w H; cbn; [done|].
  apply IH. right. by apply withCommand_onlyCommand.
Qed.

(** A call of the controller's handler runs at most one command: none
    when the name has no command at that moment, otherwise one command
    built by the factory registered at that moment. *)
Lemma notifyObserver_commandObserver fuel note w f :
  commandMap w !! note_name note = Some f →
  notifyObserver (run (S fuel)) commandObserver note w
  = relabel (oneExecution f note (trace w))
      (run fuel (execute (create f) note) (set_trace [] w)).
Proof.
  intros Hf. unfold notifyObserver. rewrite invoke_relabel.
  change (notifyMethod commandObserver note) with [AExecuteCommand (U:=U) note].
  change (notifyContext commandObserver) with CtxController.
  cbn [run sequence perform]. rewrite bind_ret.
  unfold executeCommand. cbn [commandMap set_trace].
  rewrite (get_own _ _ _ Hf).
  rewrite invoke_relabel. cbn.
  destruct (run fuel _ _) as [[] w1|e w1| |]; reflexivity.
Qed.

Lemma filter_notifiedContext ctx (l : list (Observer U)) :
  length (filter (λ c, c = ctx) (notifyContext <$> l))
  = length (filter (λ o, notifyContext o = ctx) l).
Proof.
  induction l as [|o l IH]; [done|]. rewrite fmap_cons.
  destruct (decide (notifyContext o = ctx)) as [Hc|Hc].
  - rewrite !filter_cons_True by done. cbn. by rewrite IH.
  - by rewrite !filter_cons_False by done.
Qed.

Lemma filter_take_length {A} (P : A → Prop) `{!∀ x, Decision (P x)} k (l : list A) :
  length (filter P (take k l)) ≤ length (filter P l).
Proof.
  revert k. induction l as [|a l IH]; intros [|k]; cbn [take]; try (cbn; lia).
  destruct (decide (P a)).
  - rewrite !filter_cons_True by done. cbn. specialize (IH k). lia.
  - rewrite !filter_cons_False by done. apply IH.
Qed.


End Commands.



(** The accumulation of the controller test: one execution per
    broadcast after a removal and a second registration. *)
Example testReregisterAndExecuteCommand :
  user (Scenario.settle Scenario.reregistered
          (notifyObservers (run 2) Scenario.testNote Scenario.reregistered)) = (12, 24)
  ∧ user (Scenario.settle Scenario.reregistered
            (bind (notifyObservers (run 2) Scenario.testNote Scenario.reregistered)
               (λ _ w, notifyObservers (run 2) Scenario.testNote w))) = (12, 48).
Proof. split; vm_compute; reflexivity. Qed.

(** The scenarios of the test suite: a command runs once per
    notification and no more after its removal; a broadcast sent twice is
    delivered twice. *)
Example testRegisterCommandAndSendNotification :
  user (Scenario.settle Scenario.facadeTest
          (sendNotification (run 2) "FacadeTestNote" (Some 0) None Scenario.facadeTest))
  = (32, 64)
  ∧ user (Scenario.settle Scenario.facadeTest
            (bind (removeCommand "FacadeTestNote" Scenario.facadeTest)
               (λ _ w, sendNotification (run 2) "FacadeTestNote" (Some 0) None w)))
    = (32, 0).
Proof. split; vm_compute; reflexivity. Qed.

Example testNotifyObserversTwice :
  user (Scenario.settle Scenario.viewTest
          (notifyObservers (run 1) (mkNotification "ViewTestNote" (Some 0) None)
             Scenario.viewTest))
  = (12, 24)
  ∧ user (Scenario.settle Scenario.viewTest
            (bind (notifyObservers (run 1) (mkNotification "ViewTestNote" (Some 0) None)
                     Scenario.viewTest)
               (λ _ w, notifyObservers (run 1)
                         (mkNotification "ViewTestNote" (Some 0) None) w)))
    = (12, 48).
Proof. split; vm_compute; reflexivity. Qed.

(** ** Proxies *)

Section Proxies.
Context {U : Type}.
Variable call : Script U → World U → Outcome (World U) unit.
Implicit Types (w : World U) (n : string) (p q : Proxy U).

Lemma registerProxy_callOf p w :
  proxyName p ≠ "__proto__" →
  registerProxy call p w
  = callOf call (COnRegisterProxy (proxyId p)) (proxyOnRegister p)
      (set_proxyMap <[proxyName p := p]> w).
Proof.
  intros Hn. unfold registerProxy. rewrite decide_False by done. apply invoke_callOf.
Qed.

Lemma removeProxy_callOf n p w :
  proxyMap w !! n = Some p →
  removeProxy call n w
  = bind (callOf call (COnRemoveProxy (proxyId p)) (proxyOnRemove p)
            (set_proxyMap (delete n) w))
      (λ _ w2, Ok (Some p) w2).
Proof.
  intros Hp. unfold removeProxy. rewrite (get_own _ _ _ Hp). cbv zeta.
  by rewrite invoke_callOf.
Qed.

Lemma callOf_final c body w w' :
  final (callOf call c body w) = Some w' →
  ∃ w1, final (call body (set_trace [] w)) = Some w1
    ∧ w' = set_trace (trace w ++ [EvCall c (trace w1)]) w1.
Proof.
  unfold callOf. destruct (call body (set_trace [] w)) as [[] w1|e w1| |]; cbn;
    intros Hw'; simplify_eq; eauto.
Qed.

Lemma registerProxy_returns p w :
  proxyName p ≠ "__proto__" →
  preserves proxyMap call (proxyOnRegister p) →
  ∃ w' inner,
    registerProxy call p w = Ok tt w'
    ∧ proxyMap w' = <[proxyName p := p]> (proxyMap w)
    ∧ trace w' = trace w ++ [EvCall (COnRegisterProxy (proxyId p)) inner].
Proof.
  intros Hn Hhook. rewrite registerProxy_callOf by done. unfold callOf.
  destruct (Hhook (set_trace [] (set_proxyMap <[proxyName p := p]> w))) as (w1 & -> & Hkeep).
  eexists _, (trace w1). split_and!; [done| |done]. cbn. by rewrite Hkeep.
Qed.

Lemma removeProxy_returns n p w :
  proxyMap w !! n = Some p →
  preserves proxyMap call (proxyOnRemove p) →
  ∃ w' inner,
    removeProxy call n w = Ok (Some p) w'
    ∧ proxyMap w' = delete n (proxyMap w)
    ∧ trace w' = trace w ++ [EvCall (COnRemoveProxy (proxyId p)) inner].
Proof.
  intros Hp Hhook. rewrite (removeProxy_callOf _ _ _ Hp). unfold callOf.
  destruct (Hhook (set_trace [] (set_proxyMap (delete n) w))) as (w1 & -> & Hkeep).
  eexists _, (trace w1). split_and!; [done| |done]. cbn. by rewrite Hkeep.
Qed.

Lemma removeProxy_unregistered n w :
  retrieveProxy n w = Absent → removeProxy call n w = Ok None w.
Proof. unfold retrieveProxy, removeProxy. by intros ->. Qed.

Lemma removeProxy_final n p w w' :
  proxyMap w !! n = Some p →
  final (removeProxy call n w) = Some w' →
  ∃ w1, final (call (proxyOnRemove p) (set_trace [] (set_proxyMap (delete n) w))) = Some w1
    ∧ w' = set_trace (trace w ++ [EvCall (COnRemoveProxy (proxyId p)) (trace w1)]) w1.
Proof.
  intros Hp. rewrite (removeProxy_callOf _ _ _ Hp). intros Hf.
  destruct (callOf_final (COnRemoveProxy (proxyId p)) (proxyOnRemove p)
              (set_proxyMap (delete n) w) w') as (w1 & Hc & ->).
  - by destruct (callOf _ _ _ _) as [[] w1|e w1| |].
  - exists w1. split; [done|reflexivity].
Qed.


(** C10. Registering a proxy under a name replaces without notice what
    the name held: for [q] with the name of [p], [registerProxy(q)] is
    the call of [q.onRegister()], once, made in the world in which [q] is
    stored under the name, whatever was stored there; no hook of [p] is
    called by it.  When the registration hooks leave the entry of the
    name as they find it, after [registerProxy(p)] and [registerProxy(q)]
    the proxy retrieved is [q], the calls made are [p.onRegister()] and
    [q.onRegister()], and a later removal of the name calls the hook of
    [q] and returns [q].  For a mediator the second registration is
    dropped instead. *)
Theorem registerProxy_overwrites p q :
  proxyName q = proxyName p →
  proxyName p ≠ "__proto__" →
  (∀ w1,
     registerProxy call q w1
     = callOf call (COnRegisterProxy (proxyId q)) (proxyOnRegister q)
         (set_proxyMap <[proxyName p := q]> w1)
     ∧ retrieveProxy (proxyName p) (set_proxyMap <[proxyName p := q]> w1) = Own q)
  ∧ (keeps (λ w, proxyMap w !! proxyName p) call (proxyOnRegister p) →
     keeps (λ w, proxyMap w !! proxyName p) call (proxyOnRegister q) →
     ∀ w w1 w2,
       final (registerProxy call p w) = Some w1 →
       final (registerProxy call q w1) = Some w2 →
       retrieveProxy (proxyName p) w1 = Own p
       ∧ retrieveProxy (proxyName p) w2 = Own q
       ∧ (∃ in1 in2, trace w2 = trace w ++ [EvCall (COnRegisterProxy (proxyId p)) in1;
                                            EvCall (COnRegisterProxy (proxyId q)) in2])
       ∧ (∀ w3, final (removeProxy call (proxyName p) w2) = Some w3 →
            ∃ in3, trace w3 = trace w2 ++ [EvCall (COnRemoveProxy (proxyId q)) in3])
       ∧ (∀ r w3, removeProxy call (proxyName p) w2 = Ok r w3 → r = Some q))
  ∧ (∀ (m1 m2 : Mediator U) v,
       mediatorName m2 = mediatorName m1 →
       mediatorMap v !! mediatorName m1 = Some m1 →
       registerMediator call m2 v = Ok tt v
       ∧ retrieveMediator (mediatorName m1) v = Own m1).
Proof.
  intros Hname Hproto. split_and!.
  - intros w1. split.
    + rewrite registerProxy_callOf by (by rewrite Hname). by rewrite Hname.
    + apply get_own. cbn. by rewrite lookup_insert_eq.
  - intros Hp Hq w w1 w2 Hf1 Hf2.
    rewrite registerProxy_callOf in Hf1 by done.
    apply callOf_final in Hf1 as (v1 & Hc1 & ->).
    rewrite registerProxy_callOf in Hf2 by (by rewrite Hname).
    apply callOf_final in Hf2 as (v2 & Hc2 & ->). rewrite Hname in *.
    assert (proxyMap v1 !! proxyName p = Some p) as Hp1.
    { rewrite (Hp _ _ Hc1). cbn. by rewrite lookup_insert_eq. }
    assert (proxyMap v2 !! proxyName p = Some q) as Hq2.
    { rewrite (Hq _ _ Hc2). cbn. by rewrite lookup_insert_eq. }
    split_and!.
    + by apply get_own.
    + by apply get_own.
    + exists (trace v1), (trace v2). cbn. by rewrite <- app_assoc.
    + intros w3 Hf3. apply (removeProxy_final _ q) in Hf3 as (v3 & _ & ->); [|done].
      by exists (trace v3).
    + intros r w3. rewrite (removeProxy_callOf _ q) by done.
      destruct (callOf _ _ _ _) as [[] v3|e v3| |]; cbn; congruence.
  - intros m1 m2 v Hn Hm. rewrite <- Hn in Hm.
    assert (retrieveMediator (mediatorName m2) v = Own m1) as Hg by (by apply get_own).
    split; [|by rewrite <- Hn]. apply registerMediator_registered. by rewrite Hg.
Qed.

End Proxies.



(** [shades] takes the name of [colors]: both registration hooks have
    run, no removal hook has. *)
Lemma registerProxy_overwrites_witness :
  proxyName Scenario.shades = proxyName Scenario.colors
  ∧ registerProxy (run 1) Scenario.colors (initial (0, 0)) = Ok tt Cases.colored
  ∧ registerProxy (run 1) Scenario.shades Cases.colored = Ok tt Cases.shaded
  ∧ retrieveProxy "colors" Cases.shaded = Own Scenario.shades
  ∧ user Cases.shaded = (2, 0)
  ∧ trace Cases.shaded = [EvCall (COnRegisterProxy 1) []; EvCall (COnRegisterProxy 2) []].
Proof.
  assert (registerProxy (run 1) Scenario.colors (initial (0, 0)) = Ok tt Cases.colored)
    as Hreg by (vm_compute; reflexivity).
  assert (registerProxy (run 1) Scenario.shades Cases.colored = Ok tt Cases.shaded)
    as Hreg2 by (vm_compute; reflexivity).
  destruct (registerProxy_overwrites (run 1) Scenario.colors Scenario.shades eq_refl)
    as (_ & Hend & _); [discriminate|].
  destruct (Hend) with (w := initial (0, 0)) (w1 := Cases.colored) (w2 := Cases.shaded)
    as (_ & Hget & _).
  - intros w w' Hf. vm_compute in Hf. by injection Hf as <-.
  - intros w w' Hf. vm_compute in Hf. by injection Hf as <-.
  - exact (f_equal final Hreg).
  - exact (f_equal final Hreg2).
  - split_and!; [reflexivity|exact Hreg|exact Hreg2|exact Hget|vm_compute; reflexivity..].
Defined.

(** C10 as stated fails where a hook undoes the registration.
    [fleeting] has the name of [colors] and removes that name in its
    registration hook: after [registerProxy(colors)] and
    [registerProxy(fleeting)], [retrieveProxy] gives [null], not
    [fleeting], and the removal hook of [fleeting] has run. *)
Lemma registerProxy_hook_removes :
  proxyName Cases.fleeting = proxyName Scenario.colors
  ∧ ∃ w2, registerProxy (run 2) Cases.fleeting Cases.colored = Ok tt w2
      ∧ retrieveProxy "colors" w2 = Absent
      ∧ user w2 = (1, 1)
      ∧ trace w2 = [EvCall (COnRegisterProxy 1) [];
                    EvCall (COnRegisterProxy 4) [EvCall (COnRemoveProxy 4) []]].
Proof.
  split; [reflexivity|]. eexists. split_and!; vm_compute; reflexivity.
Qed.

(** ** Singletons *)

(** C8. For each of [Model], [View], [Controller] and [Facade]: when an
    instance exists, the constructor throws the error of the class and
    leaves every static slot and object as they were (the existing
    instance is neither replaced nor returned), and [getInstance] returns
    the existing instance and leaves the state as it was whatever the
    factory it is given would do: the factory is not run. *)
Theorem singleton_discipline (st : Singleton.Statics) (i : nat) :
  (Singleton.Model_instance st = Some i →
     Singleton.Model.new st = Throw (Error "Model Singleton already constructed!") st
     ∧ ∀ factory, Singleton.Model.getInstance factory st = Ok i st)
  ∧ (Singleton.View_instance st = Some i →
     Singleton.View.new st = Throw (Error "View Singleton already constructed!") st
     ∧ ∀ factory, Singleton.View.getInstance factory st = Ok i st)
  ∧ (Singleton.Controller_instance st = Some i →
     Singleton.Controller.new st
     = Throw (Error "Controller Singleton already constructed!") st
     ∧ ∀ factory, Singleton.Controller.getInstance factory st = Ok i st)
  ∧ (Singleton.Facade_instance st = Some i →
     Singleton.Facade.new st = Throw (Error "Facade Singleton already constructed!") st
     ∧ ∀ factory, Singleton.Facade.getInstance factory st = Ok i st).
Proof.
  split_and!; intros Hi.
  - unfold Singleton.Model.new, Singleton.Model.getInstance. by rewrite Hi.
  - unfold Singleton.View.new, Singleton.View.getInstance. by rewrite Hi.
  - unfold Singleton.Controller.new, Singleton.Controller.getInstance. by rewrite Hi.
  - unfold Singleton.Facade.new, Singleton.Facade.getInstance. by rewrite Hi.
Qed.

(** After [new Facade()] all four singletons exist: each constructor
    throws, each [getInstance] hands back the instance it finds. *)
Lemma singleton_discipline_witness :
  Singleton.Model.new Scenario.started
  = Throw (Error "Model Singleton already constructed!") Scenario.started
  ∧ Singleton.View.new Scenario.started
    = Throw (Error "View Singleton already constructed!") Scenario.started
  ∧ Singleton.Controller.new Scenario.started
    = Throw (Error "Controller Singleton already constructed!") Scenario.started
  ∧ Singleton.Facade.new Scenario.started
    = Throw (Error "Facade Singleton already constructed!") Scenario.started
  ∧ Singleton.Model.getInstance Singleton.Model.new Scenario.started
    = Ok 1 Scenario.started
  ∧ Singleton.View.getInstance Singleton.View.new Scenario.started
    = Ok 3 Scenario.started
  ∧ Singleton.Controller.getInstance Singleton.Controller.new Scenario.started
    = Ok 2 Scenario.started
  ∧ Singleton.Facade.getInstance Singleton.Facade.new Scenario.started
    = Ok 0 Scenario.started.
Proof.
  destruct (singleton_discipline Scenario.started 1) as (Hm & _).
  destruct (singleton_discipline Scenario.started 3) as (_ & Hv & _).
  destruct (singleton_discipline Scenario.started 2) as (_ & _ & Hc & _).
  destruct (singleton_discipline Scenario.started 0) as (_ & _ & _ & Hf).
  destruct (Hm eq_refl) as [Hm1 Hm2]. destruct (Hv eq_refl) as [Hv1 Hv2].
  destruct (Hc eq_refl) as [Hc1 Hc2]. destruct (Hf eq_refl) as [Hf1 Hf2].
  split_and!; [exact Hm1|exact Hv1|exact Hc1|exact Hf1|apply Hm2|apply Hv2|apply Hc2|apply Hf2].
Defined.

(** * Further properties of the registries *)

(** ** Removing and restoring observers *)

Section ObserverRoundTrip.
Context {U : Type}.
Implicit Types (w : World U) (n : string) (o : Observer U) (ctx : NotifyContext).

Lemma spliceFirst_none ctx (l : list (Observer U)) :
  filter (λ o, notifyContext o = ctx) l = [] → spliceFirst ctx l = l.
Proof.
  induction l as [|o l IH]; [done|]. rewrite spliceFirst_cons.
  destruct (decide (notifyContext o = ctx)) as [Hc|Hc].
  - by rewrite filter_cons_True.
  - rewrite filter_cons_False by done. intros Hl. by rewrite IH.
Qed.

Lemma spliceFirst_snoc o (l : list (Observer U)) :
  filter (λ o', notifyContext o' = notifyContext o) l = [] →
  spliceFirst (notifyContext o) (l ++ [o]) = l.
Proof.
  induction l as [|o' l IH]; cbn [app].
  - intros _. rewrite spliceFirst_cons. by destruct (decide _).
  - rewrite spliceFirst_cons. destruct (decide (notifyContext o' = notifyContext o)) as [Hc|Hc].
    + by rewrite filter_cons_True.
    + rewrite filter_cons_False by done. intros Hl. by rewrite IH.
Qed.

Lemma world_eq w w' :
  observerMap w' = observerMap w → mediatorMap w' = mediatorMap w →
  commandMap w' = commandMap w → proxyMap w' = proxyMap w →
  user w' = user w → trace w' = trace w → w' = w.
Proof. destruct w, w'. cbn. by intros -> -> -> -> -> ->. Qed.

(** Taking out the observer that was registered last gives the observer
    map back, when no other observer of the name has its context. *)
Lemma unregister_registered n o w :
  boundTo (notifyContext o) n w = [] →
  observerMap w !! n ≠ Some [] →
  removeObserver n (notifyContext o) (withObserver n o w) = Ok tt w.
Proof.
  intros Hb Hne. unfold boundTo in Hb.
  erewrite removeObserver_present by (cbn; apply lookup_insert_eq).
  rewrite spliceFirst_snoc by done.
  destruct (decide (length (observersFor n w) = 0)) as [Hz|Hz].
  - apply nil_length_inv in Hz.
    assert (observerMap w !! n = None) as Hn.
    { unfold observersFor in Hz. destruct (observerMap w !! n) as [l|]; [|done].
      cbn in Hz. by subst l. }
    f_equal. apply world_eq; try done. cbn. rewrite delete_insert_eq. by apply delete_id.
  - assert (observerMap w !! n = Some (observersFor n w)) as Hn.
    { unfold observersFor in *. by destruct (observerMap w !! n). }
    f_equal. apply world_eq; try done. cbn. rewrite insert_insert_eq. by apply insert_id.
Qed.


(** X2. For a name that [Object.prototype] has no member for,
    registering an observer and then removing the observer of its
    context gives back the world as it was, key included: the
    registration returns and puts the observer at the end of the list,
    and the removal gives the list its old contents, or deletes the list
    again when the name had none.  This needs that no other observer of
    the name has the same context (the removal takes the first one) and
    that the name did not hold an empty list. *)
Theorem registerObserver_removeObserver n o w :
  ordinary n →
  boundTo (notifyContext o) n w = [] →
  observerMap w !! n ≠ Some [] →
  ∃ w1, registerObserver n o w = Ok tt w1
    ∧ observersFor n w1 = observersFor n w ++ [o]
    ∧ removeObserver n (notifyContext o) w1 = Ok tt w.
Proof.
  intros Ho Hb Hne. rewrite registerObserver_ordinary by done.
  eexists. split_and!; [done| |by apply unregister_registered].
  rewrite observersFor_withObserver. by destruct (decide (n = n)).
Qed.

End ObserverRoundTrip.


(** An observer added to the list of [edit] and taken out again, and
    one added to a name without a list. *)
Lemma registerObserver_removeObserver_witness :
  (∃ w1, registerObserver "edit" (Scenario.counting 3) Scenario.editView = Ok tt w1
     ∧ notifyContext <$> observersFor "edit" w1 = [CtxObject 1; CtxObject 2; CtxObject 3]
     ∧ removeObserver "edit" (CtxObject 3) w1 = Ok tt Scenario.editView)
  ∧ ∃ w1, registerObserver "fresh" (Scenario.counting 3) Scenario.editView = Ok tt w1
      ∧ removeObserver "fresh" (CtxObject 3) w1 = Ok tt Scenario.editView.
Proof.
  split.
  - destruct (registerObserver_removeObserver "edit" (Scenario.counting 3) Scenario.editView)
      as (w1 & Hr & Hfor & Hback); [reflexivity|reflexivity|discriminate|].
    exists w1. split_and!; [exact Hr| |exact Hback]. rewrite Hfor. reflexivity.
  - destruct (registerObserver_removeObserver "fresh" (Scenario.counting 3) Scenario.editView)
      as (w1 & Hr & _ & Hback); [reflexivity|reflexivity|discriminate|].
    exists w1. split; [exact Hr|exact Hback].
Defined.

(** ** Commands: removal and frame *)

Section CommandRemoval.
Context {U : Type}.
Implicit Types (w : World U) (n : string) (f : Factory U) (note : Notification).

Lemma removeObserver_set_commandMap n ctx g w :
  removeObserver n ctx (set_commandMap g w)
  = match removeObserver n ctx w with
    | Ok a w' => Ok a (set_commandMap g w')
    | Throw e w' => Throw e (set_commandMap g w')
    | OutOfFuel => OutOfFuel
    | Unmodelled => Unmodelled
    end.
Proof.
  unfold removeObserver. cbn. destruct (get (observerMap w) n) as [l|[[|k]|]|]; [|done..].
  by destruct (decide _).
Qed.

Lemma hasCommand_own n w f : commandMap w !! n = Some f → hasCommand n w = true.
Proof. intros Hf. unfold hasCommand. by rewrite (get_own _ _ _ Hf). Qed.

Lemma hasCommand_true n w :
  ordinary n → hasCommand n w = true ↔ is_Some (commandMap w !! n).
Proof.
  intros Ho. unfold hasCommand. rewrite get_ordinary by done.
  destruct (commandMap w !! n); split; first [done|eauto|by intros [? ?]].
Qed.

Lemma hasCommand_false n w :
  hasCommand n w = false ↔ commandMap w !! n = None ∧ ordinary n.
Proof.
  unfold hasCommand. rewrite <- get_Absent.
  destruct (get (commandMap w) n); split; done.
Qed.



(** X5. [Controller.removeCommand] is not safe when the observer list
    of the name is gone while the command is still registered (the
    observer was taken out directly through the view): for a name that
    [Object.prototype] has no member for, the unguarded [removeObserver]
    it calls throws a [TypeError], before the command is deleted, so the
    command stays registered. *)
Theorem removeCommand_throws n f w :
  ordinary n →
  commandMap w !! n = Some f →
  observerMap w !! n = None →
  ∃ msg, removeCommand n w = Throw (TypeError msg) w
    ∧ hasCommand n w = true.
Proof.
  intros Ho Hf Hl. eexists. split.
  - unfold removeCommand. rewrite (hasCommand_own _ _ _ Hf).
    rewrite (removeObserver_absent _ _ _ Ho Hl). reflexivity.
  - by eapply hasCommand_own.
Qed.


End CommandRemoval.



(** The command is registered, then its observer is removed through the
    view: removing the command throws. *)
Lemma removeCommand_throws_witness :
  removeObserver "FacadeTestNote" CtxController Scenario.facadeTest
  = Ok tt (set_observerMap (delete "FacadeTestNote") Scenario.facadeTest)
  ∧ ∃ msg,
      removeCommand "FacadeTestNote"
        (set_observerMap (delete "FacadeTestNote") Scenario.facadeTest)
      = Throw (TypeError msg) (set_observerMap (delete "FacadeTestNote") Scenario.facadeTest).
Proof.
  split; [vm_compute; reflexivity|].
  destruct (removeCommand_throws "FacadeTestNote" (Scenario.doubling 1)
              (set_observerMap (delete "FacadeTestNote") Scenario.facadeTest))
    as (msg & Hr & _); [reflexivity|reflexivity|reflexivity|].
  exists msg. exact Hr.
Defined.


(** ** Mediators: registration and its undoing *)

Section MediatorRoundTrip.
Context {U : Type}.
Variable call : Script U → World U → Outcome (World U) unit.
Implicit Types (w : World U) (n : string) (m : Mediator U) (o : Observer U).

Lemma get_insert_ne {A} (object : gmap string A) k k' a :
  k ≠ k' → get (<[k := a]> object) k' = get object k'.
Proof. intros Hk. unfold get. by rewrite lookup_insert_ne. Qed.

Lemma observersFor_withObservers interests o w i :
  observersFor i (withObservers interests o w)
  = observersFor i w ++ replicate (multiplicity i interests) o.
Proof.
  revert w. induction interests as [|i0 rest IH]; intros w; cbn [withObservers].
  - unfold multiplicity. cbn. by rewrite app_nil_r.
  - rewrite IH, observersFor_withObserver, multiplicity_cons.
    destruct (decide (i0 = i)); [|done]. by rewrite <- app_assoc.
Qed.

Lemma withObservers_noEmptyList interests o w :
  noEmptyList w → noEmptyList (withObservers interests o w).
Proof.
  revert w. induction interests as [|i rest IH]; intros w Hw; cbn; [done|].
  by apply IH, withObserver_noEmptyList.
Qed.

Lemma filter_replicate_True (P : Observer U → Prop) `{!∀ x, Decision (P x)} k o :
  P o → filter P (replicate k o) = replicate k o.
Proof.
  intros Ho. induction k as [|k IH]; [done|].
  change (replicate (S k) o) with (o :: replicate k o).
  rewrite filter_cons_True by done. by rewrite IH.
Qed.

Lemma filter_replicate_False (P : Observer U → Prop) `{!∀ x, Decision (P x)} k o :
  ¬ P o → filter P (replicate k o) = [].
Proof.
  intros Ho. induction k as [|k IH]; [done|].
  change (replicate (S k) o) with (o :: replicate k o).
  by rewrite filter_cons_False.
Qed.

Lemma filter_complement ctx (l : list (Observer U)) :
  filter (λ o, notifyContext o = ctx) l = [] →
  filter (λ o, notifyContext o ≠ ctx) l = l.
Proof.
  induction l as [|o l IH]; [done|].
  destruct (decide (notifyContext o = ctx)) as [Hc|Hc].
  - by rewrite filter_cons_True.
  - rewrite filter_cons_False by done. intros Hl.
    rewrite filter_cons_True by done. by rewrite IH.
Qed.

Lemma noEmptyList_lookup w w' i :
  noEmptyList w → noEmptyList w' → observersFor i w' = observersFor i w →
  observerMap w' !! i = observerMap w !! i.
Proof.
  unfold observersFor. intros Hw Hw' Heq.
  destruct (observerMap w !! i) as [l|] eqn:Hl, (observerMap w' !! i) as [l'|] eqn:Hl';
    cbn in Heq; subst; try done.
  - by destruct (Hw i [] Hl).
  - by destruct (Hw' i [] Hl').
Qed.

Lemma registerMediator_lists m w :
  retrieveMediator (mediatorName m) w = Absent →
  Forall ordinary (listNotificationInterests m (user w)) →
  preserves (λ w, (observerMap w, mediatorMap w, user w)) call (mediatorOnRegister m) →
  ∃ w' inner,
    registerMediator call m w = Ok tt w'
    ∧ mediatorMap w' = <[mediatorName m := m]> (mediatorMap w)
    ∧ observerMap w'
      = observerMap (withObservers (listNotificationInterests m (user w))
                       (mediatorObserver m) w)
    ∧ user w' = user w
    ∧ trace w' = trace w ++ [EvListInterests (mediatorId m);
                             EvCall (COnRegisterMediator (mediatorId m)) inner].
Proof.
  intros Hm Hall Hhook. rewrite registerMediator_callOf by done. unfold callOf.
  set (w0 := log (EvListInterests (mediatorId m)) (set_mediatorMap <[mediatorName m := m]> w)).
  set (w1 := withObservers (listNotificationInterests m (user w)) (mediatorObserver m) w0).
  destruct (Hhook (set_trace [] w1)) as (w2 & -> & Hkeep).
  injection Hkeep as Hobs Hmed Husr. cbn in Hobs, Hmed, Husr.
  eexists _, (trace w2). split; [reflexivity|].
  destruct (withObservers_exceptObservers (listNotificationInterests m (user w))
              (mediatorObserver m) w0) as (Hmed' & _ & _ & Husr' & Htr').
  fold w1 in Hmed', Husr', Htr'.
  assert (∀ (x y : World U) ns o, observerMap x = observerMap y →
            observerMap (withObservers ns o x) = observerMap (withObservers ns o y)) as Hsame.
  { intros x y ns o. revert x y. induction ns as [|i ns IH]; intros x y Hxy; [done|].
    cbn. apply IH. unfold withObserver, observersFor. cbn. by rewrite Hxy. }
  cbn [set_trace observerMap mediatorMap user trace].
  split_and!.
  - rewrite Hmed, Hmed'. done.
  - rewrite Hobs. by apply Hsame.
  - rewrite Husr, Husr'. done.
  - rewrite Htr'. cbn. by rewrite <- app_assoc.
Qed.

(** X7. [View.registerMediator] of a mediator whose name is free, for
    names that [Object.prototype] has no member for (the name of the
    mediator, whose lookup finds nothing, and its interests) and an
    [onRegister] that returns, leaving the maps and the application
    state alone: the mediator is retrievable under its name, the other
    names of the mediator map are unchanged, and one and the same
    observer, bound to [handleNotification] and to the mediator, is put
    at the end of the list of each interest, once per occurrence of the
    name among the interests; the lists of all other names are
    unchanged, and with no interests the observer map is unchanged.  The
    interests are asked for once, before [onRegister] is called. *)
Theorem registerMediator_fresh m w :
  retrieveMediator (mediatorName m) w = Absent →
  Forall ordinary (listNotificationInterests m (user w)) →
  preserves (λ w, (observerMap w, mediatorMap w, user w)) call (mediatorOnRegister m) →
  ∃ w' inner,
    registerMediator call m w = Ok tt w'
    ∧ retrieveMediator (mediatorName m) w' = Own m
    ∧ hasMediator (mediatorName m) w' = true
    ∧ (∀ k, k ≠ mediatorName m → retrieveMediator k w' = retrieveMediator k w)
    ∧ (∀ i, observersFor i w'
            = observersFor i w
              ++ replicate (multiplicity i (listNotificationInterests m (user w)))
                   (mediatorObserver m))
    ∧ (listNotificationInterests m (user w) = [] → observerMap w' = observerMap w)
    ∧ trace w' = trace w ++ [EvListInterests (mediatorId m);
                             EvCall (COnRegisterMediator (mediatorId m)) inner].
Proof.
  intros Hm Hall Hhook.
  destruct (registerMediator_lists m w Hm Hall Hhook)
    as (w' & inner & Hr & Hmed & Hobs & Husr & Htr).
  assert (retrieveMediator (mediatorName m) w' = Own m) as Hown.
  { apply get_own. rewrite Hmed. by rewrite lookup_insert_eq. }
  exists w', inner. split_and!; [done|done| | | | |done].
  - unfold hasMediator. unfold retrieveMediator in Hown. by rewrite Hown.
  - intros k Hk. unfold retrieveMediator. rewrite Hmed. by apply get_insert_ne.
  - intros i. rewrite <- observersFor_withObservers. unfold observersFor. by rewrite Hobs.
  - intros Hnil. rewrite Hobs, Hnil. done.
Qed.

(** X8. [View.removeMediator] undoes [View.registerMediator]: for a
    mediator whose name is free and that has no observer yet, in a view
    without empty lists, and for names that [Object.prototype] has no
    member for, registering and then removing it returns the instance
    and gives back the observer map and the mediator map as they were
    (lists restored, keys made by the registration deleted again), so
    that the mediator can be registered anew.  The hooks are taken to
    return and to leave the maps alone, and [onRegister] the application
    state too, so that the interests are the same at both moments. *)
Theorem registerMediator_removeMediator m w :
  retrieveMediator (mediatorName m) w = Absent →
  Forall ordinary (listNotificationInterests m (user w)) →
  (∀ i, boundTo (CtxObject (mediatorId m)) i w = []) →
  noEmptyList w →
  preserves (λ w, (observerMap w, mediatorMap w, user w)) call (mediatorOnRegister m) →
  preserves (λ w, (observerMap w, mediatorMap w)) call (mediatorOnRemove m) →
  ∃ w1 w2,
    registerMediator call m w = Ok tt w1
    ∧ removeMediator call (mediatorName m) w1 = Ok (Some m) w2
    ∧ observerMap w2 = observerMap w
    ∧ mediatorMap w2 = mediatorMap w
    ∧ hasMediator (mediatorName m) w1 = true
    ∧ hasMediator (mediatorName m) w2 = false.
Proof.
  intros Hm Hall Hnone Hinv Hreg Hrem.
  pose proof (proj1 (get_Absent _ _) Hm) as [Hmnone Hmord].
  destruct (registerMediator_lists m w Hm Hall Hreg)
    as (w1 & inner & Hr & Hmed & Hobs & Husr & Htr).
  assert (mediatorMap w1 !! mediatorName m = Some m) as Hown
    by (rewrite Hmed; by rewrite lookup_insert_eq).
  exists w1. unfold removeMediator. rewrite (get_own _ _ _ Hown), Husr.
  set (ctx := CtxObject (mediatorId m)).
  set (ns := listNotificationInterests m (user w)) in *.
  set (wl := log (EvListInterests (mediatorId m)) w1).
  assert (∀ i, observersFor i wl = observersFor i w ++ replicate (multiplicity i ns)
                                                        (mediatorObserver m)) as Hfor.
  { intros i. rewrite <- observersFor_withObservers. unfold observersFor. cbn. by rewrite Hobs. }
  assert (∀ i, length (boundTo ctx i wl) = multiplicity i ns) as Hcount.
  { intros i. unfold boundTo. rewrite Hfor, filter_app.
    specialize (Hnone i). unfold boundTo in Hnone. fold ctx in Hnone. rewrite Hnone.
    rewrite filter_replicate_True by done. cbn. apply length_replicate. }
  destruct (removeEach_bound ns ctx wl) as (w2 & Hrun & Hb & Ho).
  { intros i _. by rewrite Hcount. }
  rewrite Hrun. cbn [bind].
  destruct (removeEach_final ns ctx wl w2) as [(Hmed2 & _) _]; [by rewrite Hrun|].
  assert (observerMap w2 = observerMap w) as Hback.
  { apply map_eq. intros i. apply noEmptyList_lookup; [done| |].
    - pose proof (removeEach_noEmptyList ns ctx wl) as Hp. unfold post in Hp.
      rewrite Hrun in Hp. apply Hp.
      apply (noEmptyList_same (withObservers ns (mediatorObserver m) w)); [by cbn|].
      by apply withObservers_noEmptyList.
    - assert (boundTo ctx i w2 = []) as Hnil.
      { apply nil_length_inv. rewrite Hb, Hcount. lia. }
      unfold boundTo in Hnil. rewrite <- (filter_complement ctx _ Hnil).
      fold (others ctx i w2). rewrite Ho. unfold others. rewrite Hfor, filter_app.
      rewrite filter_replicate_False by (intros Hx; by apply Hx). rewrite app_nil_r.
      apply filter_complement. apply (Hnone i). }
  unfold invoke.
  destruct (Hrem (set_trace [] (set_mediatorMap (delete (mediatorName m)) w2)))
    as (w3 & -> & Hkeep).
  cbn in Hkeep. injection Hkeep as Hobs3 Hmed3. cbn [bind].
  assert (mediatorMap (enclose (COnRemoveMediator (mediatorId m))
                        (trace (set_mediatorMap (delete (mediatorName m)) w2)) w3)
          = mediatorMap w) as Hmback.
  { cbn. rewrite Hmed3, Hmed2. cbn. rewrite Hmed, delete_insert_eq. by apply delete_id. }
  eexists. split_and!; [done|reflexivity|..].
  - cbn. by rewrite Hobs3.
  - exact Hmback.
  - unfold hasMediator. by rewrite (get_own _ _ _ Hown).
  - unfold hasMediator. rewrite Hmback. unfold retrieveMediator in Hm. by rewrite Hm.
Qed.

Lemma multiplicity_absent i (interests : list string) :
  i ∉ interests → multiplicity i interests = 0.
Proof.
  unfold multiplicity. induction interests as [|i0 l IH]; [done|].
  intros [Hne Hnot]%not_elem_of_cons.
  rewrite filter_cons_False by congruence. by apply IH.
Qed.

(** X18. A mediator registered under a free name is notified of its
    interests from then on, after the observers that were there before
    it, for names that [Object.prototype] has no member for: a broadcast
    of a name walks the old observers of the name and then the
    mediator's observer, once for each time the name occurs among the
    interests the mediator declared, so a mediator that lists a name
    twice has [handleNotification] called twice per notification.  A
    name that is not among the interests is broadcast to the old
    observers only. *)
Theorem registerMediator_notified m w :
  retrieveMediator (mediatorName m) w = Absent →
  Forall ordinary (listNotificationInterests m (user w)) →
  preserves (λ w, (observerMap w, mediatorMap w, user w)) call (mediatorOnRegister m) →
  ∃ w1, registerMediator call m w = Ok tt w1
    ∧ (∀ note, ordinary (note_name note) →
         notifyObservers call note w1
         = deliver call note
             (observersFor (note_name note) w
              ++ replicate
                   (multiplicity (note_name note) (listNotificationInterests m (user w)))
                   (mediatorObserver m)) w1
         ∧ delivered note
             (observersFor (note_name note) w
              ++ replicate
                   (multiplicity (note_name note) (listNotificationInterests m (user w)))
                   (mediatorObserver m))
             (trace w1) (notifyObservers call note w1))
    ∧ (∀ note, note_name note ∉ listNotificationInterests m (user w) →
         observersFor (note_name note) w1 = observersFor (note_name note) w).
Proof.
  intros Hm Hall Hhook.
  destruct (registerMediator_lists m w Hm Hall Hhook) as (w1 & inner & Hr & _ & Hobs & _).
  assert (∀ i, observersFor i w1
               = observersFor i w
                 ++ replicate (multiplicity i (listNotificationInterests m (user w)))
                      (mediatorObserver m)) as Hfor.
  { intros i. rewrite <- observersFor_withObservers. unfold observersFor. by rewrite Hobs. }
  exists w1. split_and!; [done| |].
  - intros note Ho. rewrite <- Hfor. split; [|by apply notifyObservers_delivered].
    unfold notifyObservers, observersFor. rewrite get_ordinary by done.
    destruct (observerMap w1 !! note_name note); cbn; [apply notifyEach_deliver|done].
  - intros note Hnot. by rewrite Hfor, multiplicity_absent, app_nil_r.
Qed.

End MediatorRoundTrip.

(** [twice] lists [go] two times: a broadcast of [go] calls its handler
    two times. *)
Lemma registerMediator_notified_witness :
  ∃ w1 w2, registerMediator (run 1) Cases.twice (initial 0) = Ok tt w1
    ∧ notifyObservers (run 1) Scenario.goNote w1 = Ok tt w2
    ∧ omap notifiedContext (trace w2) = [CtxObject 9; CtxObject 9]
    ∧ user w2 = 2.
Proof.
  destruct (registerMediator_notified (run 1) Cases.twice (initial 0))
    as (w1 & Hr & Hnote & _).
  - reflexivity.
  - repeat constructor.
  - intros w. exists w. split; reflexivity.
  - assert (w1 = Scenario.settle (initial 0)
                   (registerMediator (run 1) Cases.twice (initial 0))) as Hw1
      by (by rewrite Hr).
    subst w1. eexists _, _.
    split_and!; [exact Hr|vm_compute; reflexivity|vm_compute; reflexivity..].
Defined.

(** [listener] on a fresh view: stored, and observing [go] and [stop]. *)
Lemma registerMediator_fresh_witness :
  ∃ w', registerMediator (run 1) Scenario.listener (initial 0) = Ok tt w'
    ∧ retrieveMediator "listener" w' = Own Scenario.listener
    ∧ observersFor "go" w' = [mediatorObserver Scenario.listener]
    ∧ observersFor "stop" w' = [mediatorObserver Scenario.listener].
Proof.
  destruct (registerMediator_fresh (run 1) Scenario.listener (initial 0))
    as (w' & inner & Hr & Hget & _ & _ & Hfor & _).
  - reflexivity.
  - repeat constructor.
  - intros w. exists w. split; reflexivity.
  - exists w'. split_and!; [exact Hr|exact Hget|rewrite Hfor; reflexivity..].
Defined.

(** Registered and removed again: the maps are empty as before. *)
Lemma registerMediator_removeMediator_witness :
  ∃ w1 w2,
    registerMediator (run 1) Scenario.listener (initial 0) = Ok tt w1
    ∧ removeMediator (run 1) "listener" w1 = Ok (Some Scenario.listener) w2
    ∧ observerMap w2 = ∅
    ∧ mediatorMap w2 = ∅.
Proof.
  destruct (registerMediator_removeMediator (run 1) Scenario.listener (initial 0))
    as (w1 & w2 & Hreg & Hrem & Hobs & Hmed & _).
  - reflexivity.
  - repeat constructor.
  - intros i. unfold boundTo, observersFor. cbn. by rewrite lookup_empty.
  - apply noEmptyList_initial.
  - intros w. exists w. split; reflexivity.
  - intros w. exists w. split; reflexivity.
  - exists w1, w2. split_and!; [exact Hreg|exact Hrem|exact Hobs|exact Hmed].
Defined.

(** ** Failures in a broadcast *)

Section BroadcastFailure.
Context {U : Type}.
Variable call : Script U → World U → Outcome (World U) unit.
Implicit Types (w : World U) (o : Observer U) (note : Notification).

Lemma notifyEach_throws observers note w e w' :
  notifyEach call observers note w = Throw e w' →
  ∃ o w0 w1, o ∈ observers ∧ call (notifyMethod o note) w0 = Throw e w1.
Proof.
  revert w. induction observers as [|o rest IH]; intros w; cbn; [done|].
  unfold notifyObserver, invoke.
  destruct (call (notifyMethod o note) (set_trace [] w)) as [[] w1|e1 w1| |] eqn:Hc; cbn;
    [| |done..].
  - intros Hr. destruct (IH _ Hr) as (o' & w0 & w2 & Hin & Ho').
    exists o', w0, w2. split; [by apply list_elem_of_further|done].
  - intros [= <- <-]. exists o, (set_trace [] w), w1. split; [apply list_elem_of_here|done].
Qed.

Lemma notifyEach_returns observers note w :
  (∀ o w0, o ∈ observers → ∃ w1, call (notifyMethod o note) w0 = Ok tt w1) →
  ∃ w', notifyEach call observers note w = Ok tt w'.
Proof.
  revert w. induction observers as [|o rest IH]; intros w Hall; cbn; [eauto|].
  unfold notifyObserver, invoke.
  destruct (Hall o (set_trace [] w) (list_elem_of_here _ _)) as [w1 ->]. cbn.
  apply IH. intros o' w0 Hin. apply Hall. by apply list_elem_of_further.
Qed.

(** X9. The failures of [View.notifyObservers].  When the lookup of the
    name finds nothing it returns at once and changes nothing.  When it
    throws, either the error is the one thrown by the handler of an
    observer of the snapshot, passed on as it is (nothing is caught or
    wrapped), or the name has no list and is one that every object
    inherits: then the call throws a [TypeError] of its own, having
    called nothing and changed nothing.  When the lookup finds no
    inherited member and the handlers of the snapshot all return, the
    broadcast returns. *)
Theorem notifyObservers_failure note w :
  (get (observerMap w) (note_name note) = Absent → notifyObservers call note w = Ok tt w)
  ∧ (∀ e w', notifyObservers call note w = Throw e w' →
       (∃ o w0 w1, o ∈ observersFor (note_name note) w
          ∧ call (notifyMethod o note) w0 = Throw e w1)
       ∨ (∃ b, get (observerMap w) (note_name note) = Inherit b
            ∧ observersFor (note_name note) w = []
            ∧ w' = w
            ∧ e = TypeError "this.observerMap[notification.name].slice is not a function"))
  ∧ ((∀ b, get (observerMap w) (note_name note) ≠ Inherit b) →
     (∀ o w0, o ∈ observersFor (note_name note) w →
        ∃ w1, call (notifyMethod o note) w0 = Ok tt w1) →
     ∃ w', notifyObservers call note w = Ok tt w').
Proof.
  unfold notifyObservers, observersFor.
  destruct (get (observerMap w) (note_name note)) as [l|b|] eqn:Hg.
  - apply get_Own in Hg. rewrite Hg. cbn. split_and!; [done| |].
    + intros e w' Hr. left. by eapply notifyEach_throws.
    + intros _. apply notifyEach_returns.
  - apply get_Inherit in Hg as [Hg Hb]. rewrite Hg. cbn. split_and!; [done| |].
    + intros e w' [= <- <-]. right. by exists b.
    + intros Hno. by destruct (Hno b).
  - split_and!; [done|done|]. eauto.
Qed.

End BroadcastFailure.

(** ** Construction of the singletons *)

Section Construction.
Import Singleton.
Implicit Types (st : Statics).

Lemma grows_refl st : grows st st.
Proof. by repeat split. Qed.

Lemma grows_trans st1 st2 st3 : grows st1 st2 → grows st2 st3 → grows st1 st3.
Proof.
  intros (Ho & Hl & Hm & Hv & Hc & Hf) (Ho' & Hl' & Hm' & Hv' & Hc' & Hf').
  split_and!; [|lia|eauto..]. intros i Hi. rewrite Ho' by lia. by apply Ho.
Qed.

Lemma Model_getInstance_new st :
  ∃ i st', Model.getInstance Model.new st = Ok i st'
    ∧ Model_instance st' = Some i
    ∧ grows st st'
    ∧ View_instance st' = View_instance st
    ∧ Controller_instance st' = Controller_instance st
    ∧ Facade_instance st' = Facade_instance st
    ∧ (Model_instance st = None → i = length (objects st)).
Proof.
  unfold Model.getInstance, Model.new. destruct (Model_instance st) as [i|] eqn:Hi.
  - exists i, st. split_and!; first [done|apply grows_refl].
  - cbn. eexists _, _. split_and!; try done.
    split_and!; cbn; try done.
    + intros i Hlt. by rewrite lookup_app_l.
    + rewrite length_app. lia.
    + by rewrite Hi.
Qed.

Lemma View_getInstance_new st :
  ∃ i st', View.getInstance View.new st = Ok i st'
    ∧ View_instance st' = Some i
    ∧ grows st st'
    ∧ Model_instance st' = Model_instance st
    ∧ Controller_instance st' = Controller_instance st
    ∧ Facade_instance st' = Facade_instance st
    ∧ (View_instance st = None → i = length (objects st)).
Proof.
  unfold View.getInstance, View.new. destruct (View_instance st) as [i|] eqn:Hi.
  - exists i, st. split_and!; first [done|apply grows_refl].
  - cbn. eexists _, _. split_and!; try done.
    split_and!; cbn; try done.
    + intros i Hlt. by rewrite lookup_app_l.
    + rewrite length_app. lia.
    + by rewrite Hi.
Qed.

Lemma Controller_new_free st :
  Controller_instance st = None →
  ∃ st' v, Controller.new st = Ok (length (objects st)) st'
    ∧ Controller_instance st' = Some (length (objects st))
    ∧ View_instance st' = Some v
    ∧ objects st' !! length (objects st) = Some (OController (Some v))
    ∧ grows st st'
    ∧ Model_instance st' = Model_instance st
    ∧ Facade_instance st' = Facade_instance st.
Proof.
  intros Hc. unfold Controller.new. rewrite Hc. cbv zeta.
  unfold Controller.initializeController.
  set (st1 := set_Controller_instance _ _).
  destruct (View_getInstance_new st1) as (v & st2 & -> & Hv & Hg & Hm & Hc2 & Hf & _).
  cbn [bind]. eexists _, v. split; [reflexivity|].
  destruct Hg as (Ho & Hl & Hgm & Hgv & Hgc & Hgf).
  assert (length (objects st1) = S (length (objects st))) as Hlen
    by (cbn; rewrite length_app; cbn; lia).
  cbn [set_objects Controller_instance View_instance Model_instance Facade_instance objects].
  split_and!; try done.
  - apply list_lookup_insert_eq. lia.
  - split_and!; cbn.
    + intros i Hi. rewrite list_lookup_insert_ne by lia. rewrite Ho by lia.
      cbn. by rewrite lookup_app_l.
    + rewrite length_insert. lia.
    + intros x Hx. rewrite Hm. done.
    + intros x Hx. apply Hgv. done.
    + intros x Hx. by rewrite Hc in Hx.
    + intros x Hx. rewrite Hf. done.
Qed.

Lemma Controller_getInstance_new st :
  ∃ i st', Controller.getInstance Controller.new st = Ok i st'
    ∧ Controller_instance st' = Some i
    ∧ grows st st'
    ∧ Model_instance st' = Model_instance st
    ∧ Facade_instance st' = Facade_instance st
    ∧ (Controller_instance st = None →
       i = length (objects st) ∧ ∃ v, View_instance st' = Some v
         ∧ objects st' !! i = Some (OController (Some v))).
Proof.
  unfold Controller.getInstance. destruct (Controller_instance st) as [i|] eqn:Hi.
  - exists i, st. split_and!; first [done|apply grows_refl].
  - destruct (Controller_new_free st Hi) as (st' & v & -> & Hc & Hv & Ho & Hg & Hm & Hf).
    cbn [bind]. eexists _, _. split; [reflexivity|]. cbn. split_and!; try done.
    + destruct Hg as (? & ? & ? & ? & ? & ?). split_and!; try done.
      intros x Hx. by rewrite Hi in Hx.
    + intros _. split; [done|]. eauto.
Qed.

(** X10. [Controller.getInstance(() => new Controller())] always
    returns: it hands back the existing controller and changes nothing,
    or builds one.  A controller built this way holds the [View]
    singleton in its [view] field, the existing view when there is one
    and a view built for the occasion otherwise.  No static slot that was
    taken changes and no older object is touched. *)
Theorem Controller_getInstance_view st :
  ∃ i st', Controller.getInstance Controller.new st = Ok i st'
    ∧ Controller_instance st' = Some i
    ∧ grows st st'
    ∧ (∀ i0, Controller_instance st = Some i0 → i = i0 ∧ st' = st)
    ∧ (Controller_instance st = None →
       ∃ v, View_instance st' = Some v
         ∧ objects st' !! i = Some (OController (Some v))
         ∧ (∀ v0, View_instance st = Some v0 → v = v0)).
Proof.
  destruct (Controller_getInstance_new st) as (i & st' & Hr & Hc & Hg & _ & _ & Hnew).
  exists i, st'. split_and!; try done.
  - intros i0 Hi0. unfold Controller.getInstance in Hr. rewrite Hi0 in Hr.
    by injection Hr as <- <-.
  - intros Hnone. destruct (Hnew Hnone) as (_ & v & Hv & Ho). exists v. split_and!; try done.
    intros v0 Hv0. destruct Hg as (_ & _ & _ & Hgv & _). specialize (Hgv v0 Hv0). congruence.
Qed.

Lemma set_field_spec this f st a b c :
  objects st !! this = Some (OFacade a b c) →
  objects (Facade.set_field this f st) !! this = Some (f (a, b, c))
  ∧ length (objects (Facade.set_field this f st)) = length (objects st)
  ∧ (∀ i, i ≠ this → objects (Facade.set_field this f st) !! i = objects st !! i)
  ∧ Model_instance (Facade.set_field this f st) = Model_instance st
  ∧ View_instance (Facade.set_field this f st) = View_instance st
  ∧ Controller_instance (Facade.set_field this f st) = Controller_instance st
  ∧ Facade_instance (Facade.set_field this f st) = Facade_instance st.
Proof.
  intros Ho. unfold Facade.set_field. cbn. rewrite Ho. cbn. split_and!; try done.
  - apply list_lookup_insert_eq. by eapply lookup_lt_Some.
  - apply length_insert.
  - intros i Hi. by apply list_lookup_insert_ne.
Qed.

Lemma set_field_grows st0 this f st a b c :
  objects st !! this = Some (OFacade a b c) →
  length (objects st0) ≤ this →
  grows st0 st → grows st0 (Facade.set_field this f st).
Proof.
  intros Ho Hle (Hg & Hl & Hm & Hv & Hc & Hf).
  destruct (set_field_spec this f st a b c Ho) as (_ & Hlen & Hoth & Hm' & Hv' & Hc' & Hf').
  split_and!.
  - intros i Hi. rewrite Hoth by lia. by apply Hg.
  - lia.
  - intros x Hx. rewrite Hm'. by apply Hm.
  - intros x Hx. rewrite Hv'. by apply Hv.
  - intros x Hx. rewrite Hc'. by apply Hc.
  - intros x Hx. rewrite Hf'. by apply Hf.
Qed.

Lemma Facade_new_free st :
  Facade_instance st = None →
  ∃ st' m c v,
    Facade.new st = Ok (length (objects st)) st'
    ∧ Facade_instance st' = Some (length (objects st))
    ∧ Model_instance st' = Some m
    ∧ Controller_instance st' = Some c
    ∧ View_instance st' = Some v
    ∧ objects st' !! length (objects st) = Some (OFacade (Some m) (Some c) (Some v))
    ∧ grows st st'.
Proof.
  intros Hnone. unfold Facade.new. rewrite Hnone. cbv zeta.
  set (this := length (objects st)).
  set (st1 := set_Facade_instance _ _).
  assert (objects st1 !! this = Some (OFacade None None None)) as Ho1.
  { cbn. rewrite lookup_app_r by done. by rewrite Nat.sub_diag. }
  assert (grows st st1) as Hg1.
  { split_and!; cbn; try done.
    - intros i Hi. by rewrite lookup_app_l.
    - rewrite length_app. lia.
    - intros x Hx. fold this. by rewrite Hnone in Hx. }
  assert (this < length (objects st1)) as Hlt1 by (by eapply lookup_lt_Some).
  unfold Facade.initializeFacade, Facade.initializeModel.
  (* the model *)
  destruct (Model_getInstance_new st1) as (m & st2 & -> & Hm2 & Hg12 & Hv2 & Hc2 & Hf2 & _).
  cbn [bind].
  assert (objects st2 !! this = Some (OFacade None None None)) as Ho2.
  { destruct Hg12 as (Hg & _). by rewrite Hg. }
  destruct (set_field_spec this (λ '(_, c, v), OFacade (Some m) c v) st2 _ _ _ Ho2)
    as (Ho3 & Hlen3 & _ & Hm3 & Hv3 & Hc3 & Hf3).
  pose proof (set_field_grows st this (λ '(_, c, v), OFacade (Some m) c v) st2 _ _ _ Ho2
                (le_n _) (grows_trans _ _ _ Hg1 Hg12)) as Hg3.
  set (st3 := Facade.set_field this _ st2) in *.
  (* the controller *)
  unfold Facade.initializeController.
  destruct (Controller_getInstance_new st3) as (c & st4 & -> & Hc4 & Hg34 & Hm4 & Hf4 & _).
  cbn [bind].
  assert (this < length (objects st3)) as Hlt3.
  { rewrite Hlen3. destruct Hg12 as (_ & Hl & _). lia. }
  assert (objects st4 !! this = Some (OFacade (Some m) None None)) as Ho4.
  { destruct Hg34 as (Hg & _). by rewrite Hg. }
  destruct (set_field_spec this (λ '(m, _, v), OFacade m (Some c) v) st4 _ _ _ Ho4)
    as (Ho5 & Hlen5 & _ & Hm5 & Hv5 & Hc5 & Hf5).
  pose proof (set_field_grows st this (λ '(m, _, v), OFacade m (Some c) v) st4 _ _ _ Ho4
                (le_n _) (grows_trans _ _ _ Hg3 Hg34)) as Hg5.
  set (st5 := Facade.set_field this _ st4) in *.
  (* the view *)
  unfold Facade.initializeView.
  destruct (View_getInstance_new st5) as (v & st6 & -> & Hv6 & Hg56 & Hm6 & Hc6 & Hf6 & _).
  cbn [bind].
  assert (this < length (objects st5)) as Hlt5.
  { rewrite Hlen5. destruct Hg34 as (_ & Hl & _). lia. }
  assert (objects st6 !! this = Some (OFacade (Some m) (Some c) None)) as Ho6.
  { destruct Hg56 as (Hg & _). by rewrite Hg. }
  destruct (set_field_spec this (λ '(m, c, _), OFacade m c (Some v)) st6 _ _ _ Ho6)
    as (Ho7 & Hlen7 & _ & Hm7 & Hv7 & Hc7 & Hf7).
  pose proof (set_field_grows st this (λ '(m, c, _), OFacade m c (Some v)) st6 _ _ _ Ho6
                (le_n _) (grows_trans _ _ _ Hg5 Hg56)) as Hg7.
  set (st7 := Facade.set_field this _ st6) in *.
  exists st7, m, c, v.
  split_and!; try done;
    first [by rewrite Hf7, Hf6, Hf5, Hf4, Hf3, Hf2
          |by rewrite Hm7, Hm6, Hm5, Hm4, Hm3
          |by rewrite Hc7, Hc6, Hc5
          |by rewrite Hv7].
Qed.

(** X11. [new Facade()] with the slot free builds the whole core and
    never fails: afterwards the four static slots are taken, and the
    fields [model], [controller], [view] of the new facade hold exactly
    the three singletons, so the fall-backs of the facade's methods for a
    missing registry are never used by a facade built this way.  A
    singleton that existed before is the one used (it is not replaced),
    and no older object is touched. *)
Theorem Facade_new_core st :
  Facade_instance st = None →
  ∃ i st' m c v,
    Facade.new st = Ok i st'
    ∧ Facade_instance st' = Some i
    ∧ Model_instance st' = Some m
    ∧ Controller_instance st' = Some c
    ∧ View_instance st' = Some v
    ∧ objects st' !! i = Some (OFacade (Some m) (Some c) (Some v))
    ∧ grows st st'
    ∧ (∀ m0, Model_instance st = Some m0 → m = m0)
    ∧ (∀ c0, Controller_instance st = Some c0 → c = c0)
    ∧ (∀ v0, View_instance st = Some v0 → v = v0).
Proof.
  intros Hnone.
  destruct (Facade_new_free st Hnone) as (st' & m & c & v & Hr & Hf & Hm & Hc & Hv & Ho & Hg).
  exists (length (objects st)), st', m, c, v. split_and!; try done.
  - intros m0 Hm0. destruct Hg as (_ & _ & Hgm & _). specialize (Hgm _ Hm0). congruence.
  - intros c0 Hc0. destruct Hg as (_ & _ & _ & _ & Hgc & _). specialize (Hgc _ Hc0). congruence.
  - intros v0 Hv0. destruct Hg as (_ & _ & _ & Hgv & _). specialize (Hgv _ Hv0). congruence.
Qed.

(** X12. Each class has one instance at most, whatever factory is
    used: once [getInstance] has returned an instance, the static slot
    holds it and every later [getInstance], with any factory, returns the
    same instance and changes nothing.  With the slot free, a factory
    that throws makes [getInstance] throw the same error, in the state
    the factory left. *)
Theorem getInstance_stable st :
  (∀ factory i st', Model.getInstance factory st = Ok i st' →
     Model_instance st' = Some i ∧ ∀ g, Model.getInstance g st' = Ok i st')
  ∧ (∀ factory i st', View.getInstance factory st = Ok i st' →
       View_instance st' = Some i ∧ ∀ g, View.getInstance g st' = Ok i st')
  ∧ (∀ factory i st', Controller.getInstance factory st = Ok i st' →
       Controller_instance st' = Some i ∧ ∀ g, Controller.getInstance g st' = Ok i st')
  ∧ (∀ factory i st', Facade.getInstance factory st = Ok i st' →
       Facade_instance st' = Some i ∧ ∀ g, Facade.getInstance g st' = Ok i st')
  ∧ (∀ factory e st1, factory st = Throw e st1 →
       (Model_instance st = None → Model.getInstance factory st = Throw e st1)
       ∧ (View_instance st = None → View.getInstance factory st = Throw e st1)
       ∧ (Controller_instance st = None → Controller.getInstance factory st = Throw e st1)
       ∧ (Facade_instance st = None → Facade.getInstance factory st = Throw e st1)).
Proof.
  split_and!.
  - intros factory i st'. unfold Model.getInstance.
    destruct (Model_instance st) as [i0|] eqn:Hi.
    + intros [= <- <-]. rewrite Hi. done.
    + destruct (factory st) as [i1 st1|e st1| |]; cbn; [|done..]. intros [= <- <-]. done.
  - intros factory i st'. unfold View.getInstance.
    destruct (View_instance st) as [i0|] eqn:Hi.
    + intros [= <- <-]. rewrite Hi. done.
    + destruct (factory st) as [i1 st1|e st1| |]; cbn; [|done..]. intros [= <- <-]. done.
  - intros factory i st'. unfold Controller.getInstance.
    destruct (Controller_instance st) as [i0|] eqn:Hi.
    + intros [= <- <-]. rewrite Hi. done.
    + destruct (factory st) as [i1 st1|e st1| |]; cbn; [|done..]. intros [= <- <-]. done.
  - intros factory i st'. unfold Facade.getInstance.
    destruct (Facade_instance st) as [i0|] eqn:Hi.
    + intros [= <- <-]. rewrite Hi. done.
    + destruct (factory st) as [i1 st1|e st1| |]; cbn; [|done..]. intros [= <- <-]. done.
  - intros factory e st1 Hf. unfold Model.getInstance, View.getInstance,
      Controller.getInstance, Facade.getInstance.
    split_and!; intros ->; by rewrite Hf.
Qed.

(** X13. [new Notifier()] never fails and every notifier holds the one
    facade: the first one builds the facade, and with it the whole core,
    when there is none; a notifier built afterwards gets the same facade
    and changes nothing. *)
Theorem Notifier_new_shared st :
  ∃ n st',
    Notifier.new st = Ok n st'
    ∧ Facade_instance st' = Some (Notifier.facade n)
    ∧ grows st st'
    ∧ (Facade_instance st = None →
       ∃ m c v, Model_instance st' = Some m ∧ Controller_instance st' = Some c
         ∧ View_instance st' = Some v
         ∧ objects st' !! Notifier.facade n = Some (OFacade (Some m) (Some c) (Some v)))
    ∧ Notifier.new st' = Ok n st'.
Proof.
  unfold Notifier.new, Facade.getInstance.
  destruct (Facade_instance st) as [i|] eqn:Hi.
  - cbn. exists (Notifier.mkNotifier i), st. rewrite Hi. cbn.
    split_and!; first [done|apply grows_refl].
  - destruct (Facade_new_free st Hi) as (st' & m & c & v & -> & Hf & Hm & Hc & Hv & Ho & Hg).
    cbn. eexists _, _. split; [reflexivity|]. cbn. split_and!; try done.
    + destruct Hg as (? & ? & ? & ? & ? & Hgf). split_and!; try done.
      intros x Hx. by rewrite Hi in Hx.
    + intros _. exists m, c, v. done.
Qed.

End Construction.

(** The view exists already: the controller built now holds it. *)
Lemma Controller_getInstance_view_witness :
  Singleton.View_instance Cases.viewOnly = Some 0
  ∧ ∃ st', Singleton.Controller.getInstance Singleton.Controller.new Cases.viewOnly
           = Ok 1 st'
      ∧ Singleton.objects st' !! 1 = Some (Singleton.OController (Some 0))
      ∧ Singleton.View_instance st' = Some 0.
Proof.
  split; [reflexivity|].
  destruct (Controller_getInstance_view Cases.viewOnly) as (i & st' & Hr & Hc & _ & _ & Hnew).
  destruct (Hnew eq_refl) as (v & Hv & Ho & Hsame).
  pose proof (Hsame 0 eq_refl) as ->.
  assert (i = 1) as ->.
  { vm_compute in Hr. by injection Hr as <- _. }
  exists st'. split_and!; [exact Hr|exact Ho|exact Hv].
Defined.

(** [new Facade()] where only the view exists: the view is kept. *)
Lemma Facade_new_core_witness :
  ∃ st' m c,
    Singleton.Facade.new Cases.viewOnly = Ok 1 st'
    ∧ Singleton.objects st' !! 1 = Some (Singleton.OFacade (Some m) (Some c) (Some 0))
    ∧ Singleton.View_instance st' = Some 0.
Proof.
  destruct (Facade_new_core Cases.viewOnly eq_refl)
    as (i & st' & m & c & v & Hr & _ & _ & _ & Hv & Ho & _ & _ & _ & Hsame).
  pose proof (Hsame 0 eq_refl) as ->.
  assert (i = 1) as ->.
  { vm_compute in Hr. by injection Hr as <- _. }
  exists st', m, c. split_and!; [exact Hr|exact Ho|exact Hv].
Defined.

(** The started process: every [getInstance] keeps returning the same
    instance. *)
Lemma getInstance_stable_witness :
  Singleton.Facade.getInstance Singleton.Facade.new Singleton.empty = Ok 0 Scenario.started
  ∧ ∀ g, Singleton.Facade.getInstance g Scenario.started = Ok 0 Scenario.started.
Proof.
  assert (Singleton.Facade.getInstance Singleton.Facade.new Singleton.empty
          = Ok 0 Scenario.started) as Hr by (vm_compute; reflexivity).
  destruct (getInstance_stable Singleton.empty) as (_ & _ & _ & Hf & _).
  split; [exact Hr|]. exact (proj2 (Hf _ _ _ Hr)).
Defined.

(** The first notifier of a process. *)
Lemma Notifier_new_shared_witness :
  ∃ n st', Notifier.new Singleton.empty = Ok n st'
    ∧ Notifier.new st' = Ok n st'
    ∧ ∃ m c v, Singleton.objects st' !! Notifier.facade n
               = Some (Singleton.OFacade (Some m) (Some c) (Some v)).
Proof.
  destruct (Notifier_new_shared Singleton.empty) as (n & st' & Hr & _ & _ & Hcore & Hagain).
  destruct (Hcore eq_refl) as (m & c & v & _ & _ & _ & Ho).
  exists n, st'. split_and!; [exact Hr|exact Hagain|]. exists m, c, v. exact Ho.
Defined.

(** ** The facade in front of the registries *)

(** X14. Through a facade built by its constructor every method is the
    operation of the registry behind it, and [Notifier.sendNotification]
    is the broadcast of the view with a notification made of its three
    arguments: the fall-backs for a missing registry are not used. *)
Theorem Facade_forwards {U} (call : Script U → World U → Outcome (World U) unit)
    (st : Singleton.Statics) :
  Singleton.Facade_instance st = None →
  ∃ i st' this,
    Singleton.Facade.new st = Ok i st'
    ∧ Singleton.objects st' !! i = Some this
    ∧ (∀ n f (w : World U),
         Facade.registerCommand this n f w = registerCommand n f w)
    ∧ (∀ n (w : World U), Facade.hasCommand this n w = hasCommand n w)
    ∧ (∀ n (w : World U), Facade.removeCommand this n w = removeCommand n w)
    ∧ (∀ p w, Facade.registerProxy call this p w = registerProxy call p w)
    ∧ (∀ n (w : World U), Facade.retrieveProxy this n w = retrieveProxy n w)
    ∧ (∀ n (w : World U), Facade.hasProxy this n w = hasProxy n w)
    ∧ (∀ n w, Facade.removeProxy call this n w = removeProxy call n w)
    ∧ (∀ m w, Facade.registerMediator call this m w = registerMediator call m w)
    ∧ (∀ n (w : World U), Facade.retrieveMediator this n w = retrieveMediator n w)
    ∧ (∀ n (w : World U), Facade.hasMediator this n w = hasMediator n w)
    ∧ (∀ n w, Facade.removeMediator call this n w = removeMediator call n w)
    ∧ (∀ note w, Facade.notifyObservers call this note w = notifyObservers call note w)
    ∧ (∀ n body type w,
         Notifier.sendNotification call this n body type w
         = notifyObservers call (mkNotification n body type) w).
Proof.
  intros Hnone.
  destruct (Facade_new_free st Hnone) as (st' & m & c & v & Hr & _ & _ & _ & _ & Ho & _).
  exists (length (Singleton.objects st)), st', (Singleton.OFacade (Some m) (Some c) (Some v)).
  split_and!; done.
Qed.

(** The test of the notifier: a command registered through the facade
    runs when a notifier sends its notification. *)
Lemma Facade_forwards_witness :
  ∃ this,
    Singleton.objects Scenario.started !! 0 = Some this
    ∧ user (Scenario.settle (initial (5, 0))
              (bind (Facade.registerCommand this "testCommand" Cases.facadeTestCommand
                       (initial (5, 0)))
                 (λ _ w, Notifier.sendNotification (run 2) this "testCommand"
                           (Some 0) None w)))
      = (5, 10).
Proof.
  destruct (Facade_forwards (U:=nat * nat) (run 2) Singleton.empty eq_refl)
    as (i & st' & this & Hr & Ho & Hreg & _).
  assert (i = 0 ∧ st' = Scenario.started) as [-> ->].
  { vm_compute in Hr. injection Hr as <- <-. split; reflexivity. }
  exists this. split; [exact Ho|].
  rewrite Hreg. vm_compute in Ho. injection Ho as <-. vm_compute. reflexivity.
Defined.

(** The second handler of [boom] throws: the broadcast throws its error,
    after the first handler has run and before the third. *)
Lemma notifyObservers_failure_witness :
  notifyObservers (run 1) Cases.boomNote Cases.boomView
  = Throw (Error "boom") Cases.afterBoom
  ∧ user Cases.afterBoom = 1
  ∧ ∃ o w0 w1, o ∈ observersFor "boom" Cases.boomView
      ∧ run 1 (notifyMethod o Cases.boomNote) w0 = Throw (Error "boom") w1.
Proof.
  assert (notifyObservers (run 1) Cases.boomNote Cases.boomView
          = Throw (Error "boom") Cases.afterBoom) as Hr by (vm_compute; reflexivity).
  split_and!; [exact Hr|reflexivity|].
  destruct (proj1 (proj2 (notifyObservers_failure (run 1) Cases.boomNote Cases.boomView))
              _ _ Hr) as [H|(b & Hb & _)]; [exact H|].
  vm_compute in Hb. discriminate Hb.
Defined.

(** ** What a broadcast and the model leave alone *)

Section Frames.
Context {U : Type}.
Variable call : Script U → World U → Outcome (World U) unit.
Implicit Types (w : World U) (n : string) (p : Proxy U) (note : Notification).

Lemma notifyEach_preserves {A} (field : World U → A) observers note w :
  (∀ t w0, field (set_trace t w0) = field w0) →
  (∀ o, o ∈ observers → preserves field call (notifyMethod o note)) →
  ∃ w', notifyEach call observers note w = Ok tt w' ∧ field w' = field w.
Proof.
  intros Hfield. revert w. induction observers as [|o rest IH]; intros w Hall; cbn; [eauto|].
  unfold notifyObserver, invoke.
  destruct (Hall o (list_elem_of_here _ _) (set_trace [] w)) as (w1 & -> & Hkeep). cbn.
  destruct (IH (enclose (CNotify (notifyContext o) note) (trace w) w1)) as (w' & -> & Hkeep').
  { intros o' Hin. apply Hall. by apply list_elem_of_further. }
  exists w'. split; [done|]. rewrite Hkeep'. unfold enclose. by rewrite Hfield, Hkeep, Hfield.
Qed.

(** X15. A broadcast changes the registries and the application state
    only through the handlers it calls: for a name whose lookup finds no
    inherited member, and for any part of the world other than the log,
    when the handler of every observer of the name returns and leaves
    that part alone, [notifyObservers] returns and leaves it alone (so
    observers that only read leave the observer map, the mediators, the
    commands and the proxies as they were). *)
Theorem notifyObservers_frame {A} (field : World U → A) note w :
  (∀ b, get (observerMap w) (note_name note) ≠ Inherit b) →
  (∀ t w0, field (set_trace t w0) = field w0) →
  (∀ o, o ∈ observersFor (note_name note) w → preserves field call (notifyMethod o note)) →
  ∃ w', notifyObservers call note w = Ok tt w' ∧ field w' = field w.
Proof.
  intros Hno Hfield. unfold notifyObservers, observersFor.
  destruct (get (observerMap w) (note_name note)) as [l|b|] eqn:Hg.
  - apply get_Own in Hg. rewrite Hg. cbn. by apply notifyEach_preserves.
  - by destruct (Hno b).
  - eauto.
Qed.

Lemma get_delete_ne {A} (object : gmap string A) k k' :
  k ≠ k' → get (delete k object) k' = get object k'.
Proof. intros Hk. unfold get. by rewrite lookup_delete_ne. Qed.


End Frames.

(** The accumulating observer leaves the observer map alone, and has
    run. *)
Lemma notifyObservers_frame_witness :
  ∃ w', notifyObservers (run 1) (mkNotification "ViewTestNote" None None) Scenario.viewTest
        = Ok tt w'
    ∧ observerMap w' = observerMap Scenario.viewTest
    ∧ user w' = (12, 24).
Proof.
  destruct (notifyObservers_frame (run 1) observerMap
              (mkNotification "ViewTestNote" None None) Scenario.viewTest)
    as (w' & Hr & Hobs).
  - intros b. discriminate.
  - reflexivity.
  - intros o Ho w. cbn in Ho. apply list_elem_of_singleton in Ho as ->.
    eexists. split; reflexivity.
  - exists w'. split_and!; [exact Hr|exact Hobs|].
    vm_compute in Hr. injection Hr as <-. reflexivity.
Defined.


(** ** The controller's observers

    [Controller.registerCommand] and [Controller.removeCommand] keep one
    observer per command in the view.  The invariant is carried through
    every operation and, by induction on the fuel, through every plain
    script. *)

Section ControllerObservers.
Context {U : Type}.
Implicit Types (w : World U) (n : string) (o : Observer U) (ctx : NotifyContext).

Lemma spliceFirst_subset ctx (l : list (Observer U)) o :
  o ∈ spliceFirst ctx l → o ∈ l.
Proof.
  induction l as [|o' l IH]; [done|].
  rewrite spliceFirst_cons. destruct (decide _).
  - apply list_elem_of_further.
  - intros [->|Hin]%elem_of_cons; [apply list_elem_of_here|].
    by apply list_elem_of_further, IH.
Qed.

Lemma spliceFirst_apart ctx ctx' (l : list (Observer U)) :
  ctx ≠ ctx' →
  filter (λ o, notifyContext o = ctx') (spliceFirst ctx l)
  = filter (λ o, notifyContext o = ctx') l.
Proof.
  intros Hne. induction l as [|o l IH]; [done|].
  rewrite spliceFirst_cons. destruct (decide (notifyContext o = ctx)) as [Hc|Hc].
  - rewrite (filter_cons_False _ o l); [done|]. congruence.
  - destruct (decide (notifyContext o = ctx')) as [Hc'|Hc'].
    + rewrite !filter_cons_True by done. by rewrite IH.
    + by rewrite !filter_cons_False by done.
Qed.

Lemma spliceFirst_tail ctx (l : list (Observer U)) :
  filter (λ o, notifyContext o = ctx) (spliceFirst ctx l)
  = tail (filter (λ o, notifyContext o = ctx) l).
Proof.
  induction l as [|o l IH]; [done|].
  rewrite spliceFirst_cons. destruct (decide (notifyContext o = ctx)) as [Hc|Hc].
  - by rewrite (filter_cons_True _ o l) by done.
  - by rewrite !filter_cons_False by done.
Qed.

Lemma removeObserver_observers n ctx w w' :
  final (removeObserver n ctx w) = Some w' →
  exceptObservers w w'
  ∧ ∀ k, observersFor k w'
         = if decide (k = n) then spliceFirst ctx (observersFor k w) else observersFor k w.
Proof.
  intros Hf. destruct (removeObserver_final n ctx w w' Hf) as [He Hk]. split; [done|].
  intros k. destruct (decide (k = n)) as [->|Hne].
  - destruct (observerMap w !! n) as [l|] eqn:Hl.
    + destruct (removeObserver_observersFor n ctx w l Hl) as (w1 & Hr & Hobs).
      rewrite Hr in Hf. injection Hf as <-. rewrite Hobs. unfold observersFor. by rewrite Hl.
    + assert (observersFor n w = []) as -> by (unfold observersFor; by rewrite Hl).
      unfold removeObserver, get in Hf. rewrite Hl in Hf.
      destruct (objectPrototype n) as [[[|j]|]|]; cbn in Hf; injection Hf as <-;
        unfold observersFor; cbn; rewrite ?lookup_delete_eq, ?Hl; done.
  - unfold observersFor. by rewrite Hk.
Qed.

(** A removal that throws has changed nothing. *)
Lemma removeObserver_throws n ctx w e w' :
  removeObserver n ctx w = Throw e w' → w' = w.
Proof.
  unfold removeObserver. destruct (get (observerMap w) n) as [l|[[|j]|]|]; try done.
  - by destruct (decide _).
  - by intros [= _ <-].
  - by intros [= _ <-].
Qed.

Lemma tidy_initial (u : U) : tidy (initial u).
Proof.
  unfold tidy, boundTo, observersFor. cbn. split_and!.
  - intros n. by rewrite !lookup_empty.
  - intros n o. rewrite lookup_empty. cbn. by intros ?%elem_of_nil.
  - intros n m. by rewrite lookup_empty.
  - intros n f. by rewrite lookup_empty.
  - intros n p. by rewrite lookup_empty.
Qed.

Lemma tidy_same w w' :
  observerMap w' = observerMap w → mediatorMap w' = mediatorMap w →
  commandMap w' = commandMap w → proxyMap w' = proxyMap w →
  tidy w → tidy w'.
Proof.
  unfold tidy, boundTo, observersFor. by intros -> -> -> ->.
Qed.

(** The observer lists change, without gaining or losing an observer of
    the controller and gaining only observers with plain handlers. *)
Lemma tidy_observers w w' :
  exceptObservers w w' →
  (∀ k, boundTo CtxController k w' = boundTo CtxController k w) →
  (∀ k o, o ∈ observersFor k w' → o ∈ observersFor k w ∨ plainHandler o) →
  tidy w → tidy w'.
Proof.
  intros (Hm & Hc & Hp & _) Hb Ho (Tb & To & Tm & Tc & Tp). unfold tidy.
  rewrite Hm, Hc, Hp. split_and!; [|
    |done|done|done].
  - intros n. rewrite Hb. apply Tb.
  - intros n o Hin. destruct (Ho n o Hin) as [Hold|Hnew]; [by eapply To|done].
Qed.

Lemma withObserver_tidy n o w :
  notifyContext o ≠ CtxController → plainHandler o →
  tidy w → tidy (withObserver n o w).
Proof.
  intros Hctx Hplain. apply tidy_observers.
  - apply withObserver_exceptObservers.
  - intros k. unfold boundTo. rewrite observersFor_withObserver.
    destruct (decide (n = k)); [|done].
    rewrite filter_app, filter_cons_False by done. by rewrite filter_nil, app_nil_r.
  - intros k o'. rewrite observersFor_withObserver.
    destruct (decide (n = k)); [|by left].
    intros [Hin|Hin]%elem_of_app; [by left|]. apply list_elem_of_singleton in Hin as ->. by right.
Qed.

Lemma registerObserver_tidy n o w :
  notifyContext o ≠ CtxController → plainHandler o →
  tidy w → post tidy (registerObserver n o w).
Proof.
  intros Hctx Hplain Hw.
  destruct (registerObserver_cases n o w) as [->|[e ->]]; unfold post; cbn; [|done].
  by apply withObserver_tidy.
Qed.

Lemma registerEach_tidy interests o w :
  notifyContext o ≠ CtxController → plainHandler o →
  tidy w → post tidy (registerEach interests o w).
Proof.
  intros Hctx Hplain. revert w. induction interests as [|i rest IH]; intros w Hw; cbn; [done|].
  apply post_bind; [by apply registerObserver_tidy|]. intros _ w'. apply IH.
Qed.

Lemma removeObserver_tidy n ctx w :
  ctx ≠ CtxController → tidy w → post tidy (removeObserver n ctx w).
Proof.
  intros Hctx Hw. unfold post.
  destruct (final (removeObserver n ctx w)) as [w'|] eqn:Hf; [|done].
  destruct (removeObserver_observers n ctx w w' Hf) as [He Hobs].
  apply (tidy_observers w w'); [done| | |done].
  - intros k. unfold boundTo. rewrite Hobs. destruct (decide (k = n)); [|done].
    by apply spliceFirst_apart.
  - intros k o. rewrite Hobs. destruct (decide (k = n)); [|by left].
    intros Hin. left. by eapply spliceFirst_subset.
Qed.

Lemma removeEach_tidy interests ctx w :
  ctx ≠ CtxController → tidy w → post tidy (removeEach interests ctx w).
Proof.
  intros Hctx. revert w. induction interests as [|i rest IH]; intros w Hw; cbn; [done|].
  apply post_bind; [by apply removeObserver_tidy|]. intros _ w'. apply IH.
Qed.

Lemma withCommand_tidy n f w :
  plainFactory f → tidy w → tidy (withCommand n f w).
Proof.
  intros Hf (Tb & To & Tm & Tc & Tp). unfold tidy, withCommand.
  destruct (commandMap w !! n) as [f0|] eqn:Hn.
  - unfold boundTo, observersFor. cbn. split_and!; [|done|done| |done].
    + intros k. destruct (decide (n = k)) as [<-|Hne].
      * rewrite lookup_insert_eq. specialize (Tb n). by rewrite Hn in Tb.
      * rewrite lookup_insert_ne by done. apply Tb.
    + intros k f'. destruct (decide (n = k)) as [<-|Hne].
      * rewrite lookup_insert_eq. by intros [= <-].
      * rewrite lookup_insert_ne by done. apply Tc.
  - destruct (withObserver_exceptObservers n commandObserver w) as (Hm & Hc & Hp & _).
    split_and!.
    + intros k. unfold boundTo.
      change (observersFor k (set_commandMap _ ?w0)) with (observersFor k w0).
      rewrite observersFor_withObserver. cbn [commandMap set_commandMap]. rewrite Hc.
      destruct (decide (n = k)) as [<-|Hne].
      * rewrite lookup_insert_eq, filter_app, (filter_cons_True _ commandObserver []) by done.
        specialize (Tb n). rewrite Hn in Tb. unfold boundTo in Tb. by rewrite Tb.
      * rewrite lookup_insert_ne by done. apply Tb.
    + intros k o.
      change (observersFor k (set_commandMap _ ?w0)) with (observersFor k w0).
      rewrite observersFor_withObserver. destruct (decide (n = k)); [|apply To].
      intros [Hin|Hin]%elem_of_app; [by eapply To|].
      apply list_elem_of_singleton in Hin as ->. intros note. by cbn.
    + cbn [mediatorMap set_commandMap]. rewrite Hm. apply Tm.
    + cbn [commandMap set_commandMap]. rewrite Hc. intros k f'.
      destruct (decide (n = k)) as [<-|Hne].
      * rewrite lookup_insert_eq. by intros [= <-].
      * rewrite lookup_insert_ne by done. apply Tc.
    + cbn [proxyMap set_commandMap]. rewrite Hp. apply Tp.
Qed.

Lemma registerCommand_tidy n f w :
  ordinary n → plainFactory f → tidy w → post tidy (registerCommand n f w).
Proof.
  intros Ho Hf Hw. rewrite registerCommand_ordinary by done. unfold post. cbn.
  by apply withCommand_tidy.
Qed.

(** Whatever the name, [removeCommand] leaves a tidy world tidy. *)
Lemma removeCommand_tidy n w :
  tidy w → post tidy (removeCommand n w).
Proof.
  intros Hw. pose proof Hw as (Tb & To & Tm & Tc & Tp). unfold removeCommand.
  destruct (hasCommand n w); [|done]. unfold post.
  destruct (removeObserver n CtxController w) as [[] w1|e w1| |] eqn:Hr; cbn; [| |done..].
  2:{ by rewrite (removeObserver_throws _ _ _ _ _ Hr). }
  destruct (removeObserver_observers n CtxController w w1) as [(Hm & Hc & Hp & _) Hall];
    [by rewrite Hr|].
  unfold tidy. split_and!.
  - intros k. unfold boundTo.
    change (observersFor k (set_commandMap _ ?w0)) with (observersFor k w0).
    cbn [commandMap set_commandMap]. rewrite Hc, Hall.
    destruct (decide (k = n)) as [->|Hne].
    + rewrite lookup_delete_eq, spliceFirst_tail. specialize (Tb n). unfold boundTo in Tb.
      rewrite Tb. by destruct (commandMap w !! n).
    + rewrite lookup_delete_ne by done. apply Tb.
  - intros k o.
    change (observersFor k (set_commandMap _ ?w0)) with (observersFor k w0).
    rewrite Hall. destruct (decide (k = n)); [|apply To].
    intros Hin. eapply To, spliceFirst_subset, Hin.
  - cbn [mediatorMap set_commandMap]. rewrite Hm. apply Tm.
  - cbn [commandMap set_commandMap]. rewrite Hc. intros k f'.
    destruct (decide (n = k)) as [<-|Hne].
    + by rewrite lookup_delete_eq.
    + rewrite lookup_delete_ne by done. apply Tc.
  - cbn [proxyMap set_commandMap]. rewrite Hp. apply Tp.
Qed.

(** In a tidy world [removeCommand] finds the observer it removes. *)
Lemma removeCommand_returns n w :
  ordinary n → tidy w → ∃ w', removeCommand n w = Ok tt w'.
Proof.
  intros Ho (Tb & _). unfold removeCommand.
  destruct (hasCommand n w) eqn:Hhas; [|eauto].
  apply hasCommand_true in Hhas as [f Hf]; [|done].
  pose proof (Tb n) as Hb. rewrite Hf in Hb.
  destruct (observerMap w !! n) as [l|] eqn:Hl.
  2:{ unfold boundTo, observersFor in Hb. by rewrite Hl in Hb. }
  rewrite (removeObserver_present _ _ _ _ Hl). cbn. eauto.
Qed.

Section WithCall.
Variable call : Script U → World U → Outcome (World U) unit.
Hypothesis call_tidy : ∀ s w, plainScript s → tidy w → post tidy (call s w).

Lemma invoke_tidy c body w :
  plainScript body → tidy w → post tidy (invoke call c body w).
Proof.
  intros Hs Hw. unfold invoke.
  assert (tidy (set_trace [] w)) as Hw0 by (by eapply tidy_same; [..|exact Hw]).
  pose proof (call_tidy body (set_trace [] w) Hs Hw0) as Hc.
  destruct (call body (set_trace [] w)) as [[] w1|e w1| |]; [| |done..];
    unfold post in *; cbn in *; by eapply tidy_same; [..|exact Hc].
Qed.

Lemma notifyEach_tidy observers note w :
  (∀ o, o ∈ observers → plainHandler o) →
  tidy w → post tidy (notifyEach call observers note w).
Proof.
  revert w. induction observers as [|o rest IH]; intros w Hall Hw; cbn; [done|].
  apply post_bind.
  - apply invoke_tidy; [|done]. apply Hall, list_elem_of_here.
  - intros _ w'. apply IH. intros o' Hin. by apply Hall, list_elem_of_further.
Qed.

Lemma set_proxyMap_delete_tidy n w : tidy w → tidy (set_proxyMap (delete n) w).
Proof.
  intros (Tb & To & Tm & Tc & Tp).
  unfold tidy, boundTo, observersFor. cbn. split_and!; [done|done|done|done|].
  intros k p'. destruct (decide (n = k)) as [<-|Hne].
  - by rewrite lookup_delete_eq.
  - rewrite lookup_delete_ne by done. apply Tp.
Qed.

Lemma perform_tidy a w :
  plainAction a → tidy w → post tidy (perform call a w).
Proof.
  intros Ha Hw. pose proof Hw as (Tb & To & Tm & Tc & Tp).
  destruct a as [f|c thn els|msg|n o|n ctx|note|m|n|n f|note|n|p|n]; cbn in Ha |- *.
  - by eapply tidy_same; [..|exact Hw].
  - destruct Ha as [Hthn Hels]. destruct (c (user w)); by apply call_tidy.
  - done.
  - destruct o as [notify ctx]. destruct Ha as [Hctx Hnotify].
    apply registerObserver_tidy; [exact Hctx|intros note; apply Hnotify|exact Hw].
  - by apply removeObserver_tidy.
  - unfold notifyObservers.
    destruct (get (observerMap w) (note_name note)) as [l|b|] eqn:Hl; [|done..].
    apply get_Own in Hl.
    apply notifyEach_tidy; [|done]. intros o Hin. apply (To (note_name note)).
    unfold observersFor. by rewrite Hl.
  - destruct m as [id name interests handle onRegister onRemove].
    destruct Ha as (Hhandle & HonRegister & HonRemove).
    unfold registerMediator. cbn.
    destruct (get (mediatorMap w) name) as [m0|b|] eqn:Hm; [done|done|].
    assert (tidy (log (EvListInterests id)
                    (set_mediatorMap
                       <[name := mkMediator id name interests handle onRegister onRemove]> w)))
      as Hw2.
    { unfold tidy, boundTo, observersFor. cbn. split_and!; [done|done| |done|done].
      intros k m'. destruct (decide (name = k)) as [<-|Hne].
      - rewrite lookup_insert_eq. by intros [= <-].
      - rewrite lookup_insert_ne by done. apply Tm. }
    apply post_bind.
    + destruct (decide _); [|done].
      apply registerEach_tidy; [done|intros note; apply Hhandle|exact Hw2].
    + intros _ w3 Hw3. by apply invoke_tidy.
  - unfold discard, removeMediator.
    destruct (get (mediatorMap w) n) as [m|b|] eqn:Hm; [|done..].
    apply get_Own in Hm.
    pose proof (Tm _ _ Hm) as Hplain.
    destruct m as [id name interests handle onRegister onRemove].
    destruct Hplain as (Hhandle & HonRegister & HonRemove). cbn.
    apply post_bind; [|done]. apply post_bind.
    { apply removeEach_tidy; [done|]. by eapply tidy_same; [..|exact Hw]. }
    intros _ w2 (Tb2 & To2 & Tm2 & Tc2 & Tp2). apply post_bind; [|done].
    apply invoke_tidy; [done|].
    unfold tidy, boundTo, observersFor. cbn. split_and!; [done|done| |done|done].
    intros k m'. destruct (decide (n = k)) as [<-|Hne].
    + by rewrite lookup_delete_eq.
    + rewrite lookup_delete_ne by done. apply Tm2.
  - destruct Ha as [Hn Hf]. by apply registerCommand_tidy.
  - unfold executeCommand.
    destruct (get (commandMap w) (note_name note)) as [f|[j|]|] eqn:Hf;
      [|by destruct (calledBare _)|done..].
    apply get_Own in Hf.
    pose proof (Tc _ _ Hf) as Hplain. destruct f as [id [execute]]. cbn in *.
    apply invoke_tidy; [apply Hplain|]. by eapply tidy_same; [..|exact Hw].
  - by apply removeCommand_tidy.
  - destruct p as [id name onRegister onRemove]. destruct Ha as [HonRegister HonRemove].
    unfold registerProxy. cbn. destruct (decide _); [done|]. apply invoke_tidy; [done|].
    unfold tidy, boundTo, observersFor. cbn. split_and!; [done|done|done|done|].
    intros k p'. destruct (decide (name = k)) as [<-|Hne].
    + rewrite lookup_insert_eq. by intros [= <-].
    + rewrite lookup_insert_ne by done. apply Tp.
  - unfold discard, removeProxy.
    destruct (get (proxyMap w) n) as [p|b|] eqn:Hp; [| |done].
    2:{ unfold post. cbn. by apply set_proxyMap_delete_tidy. }
    apply get_Own in Hp.
    pose proof (Tp _ _ Hp) as Hplain. destruct p as [id name onRegister onRemove].
    destruct Hplain as [HonRegister HonRemove]. cbn.
    apply post_bind; [|done]. apply post_bind; [|done].
    apply invoke_tidy; [done|]. by apply set_proxyMap_delete_tidy.
Qed.

Lemma sequence_tidy s w :
  plainScript s → tidy w → post tidy (sequence call s w).
Proof.
  revert w. induction s as [|a rest IH]; intros w Hs Hw; cbn; [done|].
  destruct Hs as [Ha Hrest].
  apply post_bind; [by apply perform_tidy|]. intros _ w'. by apply IH.
Qed.

End WithCall.

Lemma run_tidy fuel s w :
  plainScript s → tidy w → post tidy (run fuel s w).
Proof.
  revert s w. induction fuel as [|fuel IH]; intros s w Hs Hw; cbn; [done|].
  by apply sequence_tidy.
Qed.


End ControllerObservers.


(** ** Names that every object inherits

    The maps of the registries are plain objects: a lookup under a name
    such as [toString] or [constructor] finds the member of
    [Object.prototype] when the map has no entry of its own. *)

Section InheritedNames.
Context {U : Type}.
Variable call : Script U → World U → Outcome (World U) unit.
Implicit Types (w : World U) (n : string).


End InheritedNames.

